(** * Cart / inventory reconciliation backend: model and verified properties

    A shallow embedding of the Express/Mongoose backend
    ([Backend/routes/cart.js], [Backend/routes/inventory.js] and the three
    schemas [Inventory], [Cart], [CartItem]).

    The routes are modelled on two kinds of requests.
    - First on decoded requests: an id is the [ObjectId] it names and a
      quantity is the integer it denotes.  This is what the code does for
      a client that spells every id as [toString()] does (24 hex digits in
      lower case) and sends every quantity as a JSON number, as long as
      the numbers stay within the integers a double holds exactly.
    - Then, in [Wire], on requests as they are sent: an id is a string of
      hex digits in either letter case, a quantity is a JSON number or a
      JSON string.  The [String] path [item_id] and the [+=] on quantities
      tell the two apart, and the routes that go through them are modelled
      again there.

    Conventions of the embedding.
    - An [ObjectId] is a natural number.
    - A Mongoose [Number] that the validators restrict to integers is a [Z].
    - A collection is the list of its documents in natural (insertion)
      order; [findOne] returns the first match.
    - A route handler is a function from the store to a response and the
      store it leaves behind.  Inside a handler, [await]ed model calls are
      sequenced by a small monad with three outcomes: go on with a value,
      [return res...] early, or throw into the enclosing [catch].
    - [new Model(...)] draws a fresh [_id] from a counter kept in the store. *)

From stdpp Require Import base list strings gmap.
From Stdlib Require Import ZArith Lia Ascii.

Abbreviation ObjectId := nat.

(** A schema path that may be absent from the stored document, stored as an
    explicit [null], or hold a value.  Mongoose persists [null] but strips
    [undefined]. *)
Inductive field (A : Type) : Type :=
| undefined
| null
| value (a : A).
Arguments undefined {A}.
Arguments null {A}.
Arguments value {A} a.

#[global] Instance field_eq_dec {A} `{EqDecision A} : EqDecision (field A).
Proof. solve_decision. Defined.

(** JavaScript truthiness of an id-valued path: [item.item_id ? .. : ..]. *)
Definition truthy {A} (f : field A) : bool :=
  match f with value _ => true | _ => false end.

(** ** Schemas *)

(** Errors that reach a [catch] block. *)
Inductive error : Type :=
| ValidationError (paths : list string)   (* mongoose validation, no [code] *)
| MongoServerError (code : Z)             (* E11000 duplicate key *)
| TypeError                               (* [null.toString()] *)
| CastError (path : string)               (* a query value that does not cast *)
| Error (pre : string) (id : ObjectId) (post : string).
                                          (* [throw new Error(`pre${id}post`)] *)

(** [err.code && err.code === 11000] *)
Definition is_duplicate_key (e : error) : bool :=
  match e with MongoServerError c => bool_decide (c = 11000%Z) | _ => false end.

Module Inventory.

Record t : Type := {
  _id : ObjectId;
  itemQuantity : Z;
  itemStatus : string;
  itemName : string;
  itemOrderedStatus : string;
  itemRemark : option string
}.

Definition itemStatus_enum : list string := ["enabled"; "disabled"].

Definition itemOrderedStatus_enum : list string :=
  ["Available"; "Ordered from Akshay"; "Ordered from Amazon"; "Not Available"].

(** Paths that fail schema validation ([required], [enum]). *)
Definition invalid_paths (d : t) : list string :=
  (if bool_decide (itemStatus d ∈ itemStatus_enum) then [] else ["itemStatus"]) ++
  (if bool_decide (itemName d = "") then ["itemName"] else []) ++
  (if bool_decide (itemOrderedStatus d ∈ itemOrderedStatus_enum)
   then [] else ["itemOrderedStatus"]).

End Inventory.

Module CartItem.

Record t : Type := {
  _id : ObjectId;
  cart : ObjectId;
  item_id : field ObjectId;
  itemName : string;
  ordered_quantity : Z;
  allotted_quantity : Z;
  status : string;
  remarks : option string;
  link : option string
}.

Definition status_enum : list string :=
  ["Pending"; "Ready"; "Rejected"; "Delivered"; "Amazon"].

(** Paths that fail schema validation: [itemName] required,
    [ordered_quantity] required with [min: 1], [status] in its enum. *)
Definition invalid_paths (d : t) : list string :=
  (if bool_decide (itemName d = "") then ["itemName"] else []) ++
  (if bool_decide (ordered_quantity d < 1)%Z then ["ordered_quantity"] else []) ++
  (if bool_decide (status d ∈ status_enum) then [] else ["status"]).

Definition with_ordered_quantity (q : Z) (d : t) : t :=
  {| _id := _id d; cart := cart d; item_id := item_id d; itemName := itemName d;
     ordered_quantity := q; allotted_quantity := allotted_quantity d;
     status := status d; remarks := remarks d; link := link d |}.

Definition with_allotted_quantity (q : Z) (d : t) : t :=
  {| _id := _id d; cart := cart d; item_id := item_id d; itemName := itemName d;
     ordered_quantity := ordered_quantity d; allotted_quantity := q;
     status := status d; remarks := remarks d; link := link d |}.

Definition with_status (s : string) (d : t) : t :=
  {| _id := _id d; cart := cart d; item_id := item_id d; itemName := itemName d;
     ordered_quantity := ordered_quantity d;
     allotted_quantity := allotted_quantity d;
     status := s; remarks := remarks d; link := link d |}.

Definition with_remarks (r : string) (d : t) : t :=
  {| _id := _id d; cart := cart d; item_id := item_id d; itemName := itemName d;
     ordered_quantity := ordered_quantity d;
     allotted_quantity := allotted_quantity d;
     status := status d; remarks := Some r; link := link d |}.

Definition with_link (l : string) (d : t) : t :=
  {| _id := _id d; cart := cart d; item_id := item_id d; itemName := itemName d;
     ordered_quantity := ordered_quantity d;
     allotted_quantity := allotted_quantity d;
     status := status d; remarks := remarks d; link := Some l |}.

End CartItem.

Module Cart.

Record t : Type := {
  _id : ObjectId;
  userId : ObjectId;
  cartItems : list ObjectId
}.

Definition with_cartItems (l : list ObjectId) (c : t) : t :=
  {| _id := _id c; userId := userId c; cartItems := l |}.

End Cart.

(** ** The document store *)

Record DB : Type := {
  inventories : list Inventory.t;
  carts : list Cart.t;
  cartitems : list CartItem.t;
  next_id : ObjectId
}.

Definition set_inventories (l : list Inventory.t) (db : DB) : DB :=
  {| inventories := l; carts := carts db; cartitems := cartitems db;
     next_id := next_id db |}.

Definition set_carts (l : list Cart.t) (db : DB) : DB :=
  {| inventories := inventories db; carts := l; cartitems := cartitems db;
     next_id := next_id db |}.

Definition set_cartitems (l : list CartItem.t) (db : DB) : DB :=
  {| inventories := inventories db; carts := carts db; cartitems := l;
     next_id := next_id db |}.

Definition set_next_id (n : ObjectId) (db : DB) : DB :=
  {| inventories := inventories db; carts := carts db; cartitems := cartitems db;
     next_id := n |}.

Definition empty_db : DB :=
  {| inventories := []; carts := []; cartitems := []; next_id := 0 |}.

(** ** Responses *)

(** One row of the catalog-joined summary report. *)
Record summary_row : Type := {
  row_id : ObjectId;
  row_itemName : string;
  availableQuantity : Z;
  row_totalOrderedQuantity : Z;
  row_totalAllottedQuantity : Z;
  row_itemOrderedStatus : string;
  row_itemRemark : string
}.

(** The JSON bodies the handlers send. *)
Inductive body : Type :=
| errors_array                                   (* { errors: errors.array() } *)
| error_text (s : string)                        (* { error: '...' } *)
| error_id (pre : string) (id : ObjectId) (post : string)
                                                 (* { error: `pre${id}post` } *)
| error_message (e : error)                      (* { error: err.message } *)
| error_message_first (rejections : list error)  (* { error: err.message }, [err] the
                                                    one of these that settled first *)
| message_text (s : string)                      (* { message: '...' } *)
| message_cart (s : string) (c : Cart.t)         (* { message, cart } *)
| message_deleted (s : string) (d : Inventory.t) (deletedCount : nat)
| json_cart (c : Cart.t)
| json_cartItem (d : CartItem.t)
| json_cartItems (l : list CartItem.t)
| json_inventory (d : Inventory.t)
| json_summary (rows : list summary_row).

Record response : Type := Res { status_code : Z; sent : body }.

(** The error taxonomy of the specification, read off a response:
    404 is [NotFound]; 400 with the validator's error array is a
    [ValidationError], any other 400 is a [Conflict]; 500 is [Internal]. *)
Inductive error_kind : Type := NotFound | Conflict | Validation | Internal.

Definition kind_of (r : response) : option error_kind :=
  if (status_code r =? 404)%Z then Some NotFound
  else if (status_code r =? 400)%Z then
    match sent r with errors_array => Some Validation | _ => Some Conflict end
  else if (status_code r =? 500)%Z then Some Internal
  else None.

(** ** Handler monad *)

Inductive outcome (A : Type) : Type :=
| Next (a : A)          (* execution goes on *)
| Return (r : response) (* [return res.status(..).json(..)] *)
| Throw (e : error).    (* rejected promise / thrown exception *)
Arguments Next {A} a.
Arguments Return {A} r.
Arguments Throw {A} e.

Definition M (A : Type) : Type := DB -> outcome A * DB.

Definition ret {A} (a : A) : M A := fun db => (Next a, db).

Definition bind {A B} (m : M A) (k : A -> M B) : M B :=
  fun db =>
    match m db with
    | (Next a, db') => k a db'
    | (Return r, db') => (Return r, db')
    | (Throw e, db') => (Throw e, db')
    end.

Definition respond {A} (r : response) : M A := fun db => (Return r, db).

Definition throw {A} (e : error) : M A := fun db => (Throw e, db).

Notation "'let*' x ':=' m 'in' k" := (bind m (fun x => k))
  (at level 10, x name, m at level 100, k at level 200).

(** [try { body } catch (err) { res.status(..).json(handler err) }] *)
Definition try_catch (body : M response) (handler : error -> response)
    (db : DB) : response * DB :=
  match body db with
  | (Next r, db') => (r, db')
  | (Return r, db') => (r, db')
  | (Throw e, db') => (handler e, db')
  end.

(** [new ObjectId()] *)
Definition new_ObjectId : M ObjectId :=
  fun db => (Next (next_id db), set_next_id (S (next_id db)) db).

(** ** Collections *)

Section Collection.
Context {D : Type} (id_of : D -> ObjectId).

Definition findOne (q : D -> bool) (c : list D) : option D := List.find q c.

Definition has_id (i : ObjectId) (d : D) : bool := bool_decide (id_of d = i).

Definition findById (i : ObjectId) (c : list D) : option D := findOne (has_id i) c.

(** [deleteOne] removes the first matching document. *)
Fixpoint deleteOne (q : D -> bool) (c : list D) : list D :=
  match c with
  | [] => []
  | d :: c' => if q d then c' else d :: deleteOne q c'
  end.

(** [deleteMany] removes every matching document. *)
Definition deleteMany (q : D -> bool) (c : list D) : list D :=
  List.filter (fun d => negb (q d)) c.

Definition deletedCount (q : D -> bool) (c : list D) : nat :=
  length (List.filter q c).

(** The write of [doc.save()]: an update in place when the document is in
    the collection, an insert at the end when it is new. *)
Definition store (d : D) (c : list D) : list D :=
  if existsb (has_id (id_of d)) c
  then List.map (fun d' => if has_id (id_of d) d' then d else d') c
  else c ++ [d].

End Collection.

(** ** Model calls *)

(** [Inventory.findById(id)] *)
Definition Inventory_findById (id : ObjectId) : M (option Inventory.t) :=
  fun db => (Next (findById Inventory._id id (inventories db)), db).

(** [Inventory.find()] *)
Definition Inventory_find : M (list Inventory.t) :=
  fun db => (Next (inventories db), db).

(** [newInventory.save()] on a new document: schema validation, then the
    insert, which the unique index on [itemName] rejects with E11000. *)
Definition Inventory_save (d : Inventory.t) : M unit :=
  fun db =>
    match Inventory.invalid_paths d with
    | [] =>
        if existsb (fun d' => bool_decide (Inventory.itemName d' = Inventory.itemName d))
             (inventories db)
        then (Throw (MongoServerError 11000), db)
        else (Next tt, set_inventories (inventories db ++ [d]) db)
    | paths => (Throw (ValidationError paths), db)
    end.

(** [Inventory.findByIdAndDelete(id)] *)
Definition Inventory_findByIdAndDelete (id : ObjectId) : M (option Inventory.t) :=
  fun db =>
    (Next (findById Inventory._id id (inventories db)),
     set_inventories (deleteOne (has_id Inventory._id id) (inventories db)) db).

(** [Cart.findOne(query)] *)
Definition Cart_findOne (q : Cart.t -> bool) : M (option Cart.t) :=
  fun db => (Next (findOne q (carts db)), db).

(** [cart.save()]: an insert of a new cart is subject to the unique index
    on [userId]. *)
Definition Cart_save (c : Cart.t) : M unit :=
  fun db =>
    if existsb (has_id Cart._id (Cart._id c)) (carts db)
    then (Next tt, set_carts (store Cart._id c (carts db)) db)
    else if existsb (fun c' => bool_decide (Cart.userId c' = Cart.userId c)) (carts db)
    then (Throw (MongoServerError 11000), db)
    else (Next tt, set_carts (store Cart._id c (carts db)) db).

(** [Cart.deleteOne(query)] *)
Definition Cart_deleteOne (q : Cart.t -> bool) : M unit :=
  fun db => (Next tt, set_carts (deleteOne q (carts db)) db).

(** [CartItem.findOne(query)] *)
Definition CartItem_findOne (q : CartItem.t -> bool) : M (option CartItem.t) :=
  fun db => (Next (findOne q (cartitems db)), db).

(** [CartItem.findById(id)] *)
Definition CartItem_findById (id : ObjectId) : M (option CartItem.t) :=
  fun db => (Next (findById CartItem._id id (cartitems db)), db).

(** [CartItem.find()] *)
Definition CartItem_find : M (list CartItem.t) :=
  fun db => (Next (cartitems db), db).

(** [cartItem.save()]: schema validation, then the write.  Mongoose
    validates the modified and the required paths; on documents that were
    stored through [save()] this is validation of the whole document. *)
Definition CartItem_save (d : CartItem.t) : M CartItem.t :=
  fun db =>
    match CartItem.invalid_paths d with
    | [] => (Next d, set_cartitems (store CartItem._id d (cartitems db)) db)
    | paths => (Throw (ValidationError paths), db)
    end.

(** [CartItem.deleteOne(query)] *)
Definition CartItem_deleteOne (q : CartItem.t -> bool) : M unit :=
  fun db => (Next tt, set_cartitems (deleteOne q (cartitems db)) db).

(** [CartItem.deleteMany(query)], returning the deleted count. *)
Definition CartItem_deleteMany (q : CartItem.t -> bool) : M nat :=
  fun db =>
    (Next (deletedCount q (cartitems db)),
     set_cartitems (deleteMany q (cartitems db)) db).

(** [new Cart({ userId, cartItems: [] })] *)
Definition new_Cart (userId : ObjectId) : M Cart.t :=
  let* id := new_ObjectId in
  ret {| Cart._id := id; Cart.userId := userId; Cart.cartItems := [] |}.

(** [new CartItem({ cart, item_id, itemName, ordered_quantity, link })]:
    the schema defaults fill [allotted_quantity] and [status]. *)
Definition new_CartItem (cart : ObjectId) (item_id : field ObjectId)
    (itemName : string) (ordered_quantity : Z) (link : option string)
    : M CartItem.t :=
  let* id := new_ObjectId in
  ret {| CartItem._id := id; CartItem.cart := cart; CartItem.item_id := item_id;
         CartItem.itemName := itemName;
         CartItem.ordered_quantity := ordered_quantity;
         CartItem.allotted_quantity := 0; CartItem.status := "Pending";
         CartItem.remarks := None; CartItem.link := link |}.

(** [new Inventory({ itemQuantity, itemStatus, itemName })]: an absent
    [itemName] leaves the required path empty. *)
Definition new_Inventory (itemQuantity : Z) (itemStatus : string)
    (itemName : option string) : M Inventory.t :=
  let* id := new_ObjectId in
  ret {| Inventory._id := id; Inventory.itemQuantity := itemQuantity;
         Inventory.itemStatus := itemStatus;
         Inventory.itemName := default "" itemName;
         Inventory.itemOrderedStatus := "Available";
         Inventory.itemRemark := None |}.

(** ** Queries *)

(** [{ userId }] *)
Definition by_userId (u : ObjectId) (c : Cart.t) : bool :=
  bool_decide (Cart.userId c = u).

(** [{ cart: cart._id, item_id: item.item_id }], for an id in the spelling
    of [toString()]; [Wire.by_cart_item_id] is the query on the spelling
    sent. *)
Definition by_cart_item_id (c i : ObjectId) (d : CartItem.t) : bool :=
  bool_decide (CartItem.cart d = c) && bool_decide (CartItem.item_id d = value i).

(** [{ cart: cart._id, itemName, item_id: { $exists: false } }]:
    [$exists: false] holds of a document only when the path is absent from
    it; a stored [null] counts as present. *)
Definition by_cart_name_custom (c : ObjectId) (n : string) (d : CartItem.t) : bool :=
  bool_decide (CartItem.cart d = c) && bool_decide (CartItem.itemName d = n)
  && bool_decide (CartItem.item_id d = undefined).

(** [{ cart: cartDoc._id, itemName }] *)
Definition by_cart_name (c : ObjectId) (n : string) (d : CartItem.t) : bool :=
  bool_decide (CartItem.cart d = c) && bool_decide (CartItem.itemName d = n).

(** [{ item_id: id }], for an id in the spelling of [toString()];
    [Wire.by_item_id] is the query on the spelling sent. *)
Definition by_item_id (i : ObjectId) (d : CartItem.t) : bool :=
  bool_decide (CartItem.item_id d = value i).

(** ** Routes of [routes/cart.js] *)

(** *** POST /add-items *)

(** An item of a decoded request: the catalog item named and the quantity
    as a number.  [Wire.AddItems.item] is the item as it is sent. *)
Module AddItems.
Record item : Type := { item_id : ObjectId; ordered_quantity : Z }.
Record t : Type := { userId : ObjectId; items : list item }.

(** [body('items.*.ordered_quantity').isInt({ min: 1 })] *)
Definition valid (req : t) : bool :=
  forallb (fun it => bool_decide (1 <= ordered_quantity it)%Z) (items req).
End AddItems.

(** The body of [for (let item of items)], with the in-memory [cart]
    document threaded through the iterations. *)
Fixpoint add_items_loop (cart : Cart.t) (items : list AddItems.item) : M Cart.t :=
  match items with
  | [] => ret cart
  | item :: rest =>
      let* inventoryItem := Inventory_findById (AddItems.item_id item) in
      match inventoryItem with
      | None =>
          respond (Res 404 (error_id "Item with ID " (AddItems.item_id item)
                                     " not found in inventory"))
      | Some inventoryItem =>
          let* existingCartItem :=
            CartItem_findOne (by_cart_item_id (Cart._id cart) (AddItems.item_id item)) in
          match existingCartItem with
          | Some existingCartItem =>
              let* _ := CartItem_save
                (CartItem.with_ordered_quantity
                   (CartItem.ordered_quantity existingCartItem
                    + AddItems.ordered_quantity item) existingCartItem) in
              add_items_loop cart rest
          | None =>
              let* newCartItem :=
                new_CartItem (Cart._id cart) (value (AddItems.item_id item))
                  (Inventory.itemName inventoryItem)
                  (AddItems.ordered_quantity item) None in
              let* _ := CartItem_save newCartItem in
              add_items_loop
                (Cart.with_cartItems
                   (Cart.cartItems cart ++ [CartItem._id newCartItem]) cart)
                rest
          end
      end
  end.

Definition add_items (req : AddItems.t) (db : DB) : response * DB :=
  if negb (AddItems.valid req) then (Res 400 errors_array, db)
  else
    try_catch
      (let* found := Cart_findOne (by_userId (AddItems.userId req)) in
       let* cart := match found with
                    | Some cart => ret cart
                    | None => new_Cart (AddItems.userId req)
                    end in
       let* cart := add_items_loop cart (AddItems.items req) in
       let* _ := Cart_save cart in
       ret (Res 200 (json_cart cart)))
      (fun err => Res 500 (error_message err))
      db.

(** *** POST /add-custom-item *)

Module AddCustomItem.
Record t : Type := {
  userId : ObjectId;
  itemName : string;
  ordered_quantity : Z;
  link : option string
}.

Definition valid (req : t) : bool := bool_decide (1 <= ordered_quantity req)%Z.
End AddCustomItem.

Definition add_custom_item (req : AddCustomItem.t) (db : DB) : response * DB :=
  if negb (AddCustomItem.valid req) then (Res 400 errors_array, db)
  else
    try_catch
      (let* found := Cart_findOne (by_userId (AddCustomItem.userId req)) in
       let* cart := match found with
                    | Some cart => ret cart
                    | None => new_Cart (AddCustomItem.userId req)
                    end in
       let* existingCartItem :=
         CartItem_findOne
           (by_cart_name_custom (Cart._id cart) (AddCustomItem.itemName req)) in
       let* cart :=
         match existingCartItem with
         | Some existingCartItem =>
             let summed :=
               CartItem.with_ordered_quantity
                 (CartItem.ordered_quantity existingCartItem
                  + AddCustomItem.ordered_quantity req) existingCartItem in
             let linked :=
               match AddCustomItem.link req with
               | Some l => CartItem.with_link l summed
               | None => summed
               end in
             let* _ := CartItem_save linked in
             ret cart
         | None =>
             let* newCartItem :=
               new_CartItem (Cart._id cart) null (AddCustomItem.itemName req)
                 (AddCustomItem.ordered_quantity req) (AddCustomItem.link req) in
             let* _ := CartItem_save newCartItem in
             ret (Cart.with_cartItems
                    (Cart.cartItems cart ++ [CartItem._id newCartItem]) cart)
         end in
       let* _ := Cart_save cart in
       ret (Res 200 (json_cart cart)))
      (fun err => Res 500 (error_message err))
      db.

(** *** DELETE /remove-item/:cart/:itemName *)

Definition remove_item (cart : ObjectId) (itemName : string) (db : DB)
    : response * DB :=
  try_catch
    (let* cartDoc := Cart_findOne (has_id Cart._id cart) in
     match cartDoc with
     | None => respond (Res 404 (error_text "Cart not found."))
     | Some cartDoc =>
         let* cartItem := CartItem_findOne (by_cart_name (Cart._id cartDoc) itemName) in
         match cartItem with
         | None => respond (Res 404 (error_text "Item not found in the cart."))
         | Some cartItem =>
             let* _ := CartItem_deleteOne (has_id CartItem._id (CartItem._id cartItem)) in
             let cartDoc :=
               Cart.with_cartItems
                 (List.filter (fun id => negb (bool_decide (id = CartItem._id cartItem)))
                    (Cart.cartItems cartDoc)) cartDoc in
             if bool_decide (length (Cart.cartItems cartDoc) = 0)
             then
               let* _ := Cart_deleteOne (has_id Cart._id (Cart._id cartDoc)) in
               respond (Res 200 (message_text
                                   "Item removed and cart deleted as it was empty."))
             else
               let* _ := Cart_save cartDoc in
               respond (Res 200 (message_cart "Item removed from the cart." cartDoc))
         end
     end)
    (fun err => Res 500 (error_message err))
    db.

(** *** PUT /update-cart-item-status/:cartItemId *)

(** The list given to [isIn] by the status validators of
    /update-cart-item-status and /update-items-status. *)
Definition accepted_status : list string :=
  ["pending"; "ready"; "rejected"; "delivered"; "amazon"].

(** [.optional().isString().isIn([...])] *)
Definition valid_status (s : option string) : bool :=
  match s with None => true | Some s => bool_decide (s ∈ accepted_status) end.

(** The three guarded assignments
    [if (x !== undefined) cartItem.x (+)= x] shared by the update routes. *)
Definition assign_updates (allotted_quantity : option Z)
    (status remarks : option string) (cartItem : CartItem.t) : CartItem.t :=
  let cartItem :=
    match allotted_quantity with
    | Some q => CartItem.with_allotted_quantity
                  (CartItem.allotted_quantity cartItem + q) cartItem
    | None => cartItem
    end in
  let cartItem :=
    match status with
    | Some s => CartItem.with_status s cartItem
    | None => cartItem
    end in
  match remarks with
  | Some r => CartItem.with_remarks r cartItem
  | None => cartItem
  end.

(** The decoded body: a delta sent as a JSON number.
    [Wire.UpdateCartItemStatus.t] is the body as it is sent. *)
Module UpdateCartItemStatus.
Record t : Type := {
  allotted_quantity : option Z;
  status : option string;
  remarks : option string
}.

Definition valid (req : t) : bool :=
  match allotted_quantity req with
  | None => true
  | Some q => bool_decide (0 <= q)%Z
  end && valid_status (status req).
End UpdateCartItemStatus.

Definition update_cart_item_status (cartItemId : ObjectId)
    (req : UpdateCartItemStatus.t) (db : DB) : response * DB :=
  if negb (UpdateCartItemStatus.valid req) then (Res 400 errors_array, db)
  else
    try_catch
      (let* cartItem := CartItem_findById cartItemId in
       match cartItem with
       | None => respond (Res 404 (error_text "CartItem not found."))
       | Some cartItem =>
           let* updatedCartItem :=
             CartItem_save
               (assign_updates (UpdateCartItemStatus.allotted_quantity req)
                  (UpdateCartItemStatus.status req)
                  (UpdateCartItemStatus.remarks req) cartItem) in
           ret (Res 200 (json_cartItem updatedCartItem))
       end)
      (fun err => Res 500 (error_message err))
      db.

(** *** PUT /update-multiple-cart-items *)

(** An item of a decoded batch: the route validates no value, and the
    statements below on this route are about items whose members have the
    types of the schema paths they are written to. *)
Module UpdateMultiple.
Record item : Type := {
  _id : ObjectId;
  allotted_quantity : option Z;
  status : option string;
  remarks : option string
}.

(** The [.custom] validator: every item has an [_id] (here by its type) and
    names at least one path to update.  No validator looks at the values. *)
Definition valid (items : list item) : bool :=
  forallb (fun it => bool_decide (is_Some (allotted_quantity it))
                     || bool_decide (is_Some (status it))
                     || bool_decide (is_Some (remarks it))) items.
End UpdateMultiple.

(** One callback of [items.map(async (item) => ...)] up to the write of its
    [save()].  All callbacks are started by [map] before any of them
    resumes, so each [findById] reads the store as the request found it. *)
Definition update_task (snapshot : list CartItem.t) (item : UpdateMultiple.item)
    : error + CartItem.t :=
  match findById CartItem._id (UpdateMultiple._id item) snapshot with
  | None => inl (Error "CartItem with ID " (UpdateMultiple._id item) " not found.")
  | Some cartItem =>
      let cartItem :=
        assign_updates (UpdateMultiple.allotted_quantity item)
          (UpdateMultiple.status item) (UpdateMultiple.remarks item) cartItem in
      match CartItem.invalid_paths cartItem with
      | [] => inr cartItem
      | paths => inl (ValidationError paths)
      end
  end.

(** The write of [save()] on a loaded document sets the modified paths of
    the stored document to the in-memory values. *)
Definition set_modified (item : UpdateMultiple.item) (mem stored : CartItem.t)
    : CartItem.t :=
  let stored :=
    match UpdateMultiple.allotted_quantity item with
    | Some _ => CartItem.with_allotted_quantity (CartItem.allotted_quantity mem) stored
    | None => stored
    end in
  let stored :=
    match UpdateMultiple.status item with
    | Some _ => CartItem.with_status (CartItem.status mem) stored
    | None => stored
    end in
  match UpdateMultiple.remarks item, CartItem.remarks mem with
  | Some _, Some r => CartItem.with_remarks r stored
  | _, _ => stored
  end.

Definition commit_task (snapshot : list CartItem.t) (c : list CartItem.t)
    (item : UpdateMultiple.item) : list CartItem.t :=
  match update_task snapshot item with
  | inr mem =>
      List.map (fun d => if has_id CartItem._id (CartItem._id mem) d
                         then set_modified item mem d else d) c
  | inl _ => c
  end.

(** The rejections among the outcomes of the callbacks given to
    [Promise.all], in the order of the batch.  [Promise.all] rejects with
    the rejection that settles first.  The callbacks run concurrently, each
    with its own round trips to the database, so the batch does not fix
    which rejection that is: the handler's answer carries [err.message] of
    one of them, and the embedding keeps the list it is taken from. *)
Definition rejections {A} (results : list (error + A)) : list error :=
  omap (fun r => match r with inl e => Some e | inr _ => None end) results.

(** [Promise.all] does not cancel: every callback runs to its end whatever
    happens to the others, and the handler answers 500 as soon as one of
    them rejects. *)
Definition update_multiple_cart_items (items : list UpdateMultiple.item) (db : DB)
    : response * DB :=
  if negb (UpdateMultiple.valid items) then (Res 400 errors_array, db)
  else
    let snapshot := cartitems db in
    let results := List.map (update_task snapshot) items in
    let db' := set_cartitems (foldl (commit_task snapshot) snapshot items) db in
    match rejections results with
    | err :: errs => (Res 500 (error_message_first (err :: errs)), db')
    | [] =>
        (Res 200 (json_cartItems
                    (omap (fun r => match r with inr d => Some d | inl _ => None end)
                       results)), db')
    end.

(** *** GET /cart-item-summary *)

(** A value of the accumulator object [cartItemsById]. *)
Record group : Type := {
  group_id : ObjectId;
  totalOrderedQuantity : Z;
  totalAllottedQuantity : Z;
  group_itemName : string;
  group_itemOrderedStatus : string;
  group_itemRemark : string
}.

(** [item.item_id ? item.item_id.toString() : item._id.toString()], when
    the path holds the spelling of [toString()]; the spelling of an id is
    never the empty string, so a held id is truthy.  [Wire.group_key] is
    the key for any spelling. *)
Definition group_key (item : CartItem.t) : ObjectId :=
  match CartItem.item_id item with
  | value i => i
  | _ => CartItem._id item
  end.

Definition new_group (item : CartItem.t) : group :=
  {| group_id := CartItem._id item; totalOrderedQuantity := 0;
     totalAllottedQuantity := 0; group_itemName := CartItem.itemName item;
     group_itemOrderedStatus := ""; group_itemRemark := "" |}.

(** The two [+=] on the totals, within the integers a double holds
    exactly; [Wire.add_to_group] has the bound. *)
Definition add_to_group (item : CartItem.t) (g : group) : group :=
  {| group_id := group_id g;
     totalOrderedQuantity := totalOrderedQuantity g + CartItem.ordered_quantity item;
     totalAllottedQuantity := totalAllottedQuantity g + CartItem.allotted_quantity item;
     group_itemName := group_itemName g;
     group_itemOrderedStatus := group_itemOrderedStatus g;
     group_itemRemark := group_itemRemark g |}.

(** The callback of [cartItems.reduce((acc, item) => ..., {})]. *)
Definition group_step (acc : gmap nat group) (item : CartItem.t) : gmap nat group :=
  let key := group_key item in
  let acc :=
    match acc !! key with
    | None => <[key := new_group item]> acc
    | Some _ => acc
    end in
  alter (add_to_group item) key acc.

Definition cartItemsById (cartItems : list CartItem.t) : gmap nat group :=
  foldl group_step ∅ cartItems.

(** The callback of [inventories.map(inventory => ...)]. *)
Definition summary_of (acc : gmap nat group) (inventory : Inventory.t) : summary_row :=
  let cartData :=
    match acc !! Inventory._id inventory with
    | Some g => (totalOrderedQuantity g, totalAllottedQuantity g)
    | None => (0%Z, 0%Z)
    end in
  {| row_id := Inventory._id inventory;
     row_itemName := Inventory.itemName inventory;
     availableQuantity := Inventory.itemQuantity inventory;
     row_totalOrderedQuantity := fst cartData;
     row_totalAllottedQuantity := snd cartData;
     row_itemOrderedStatus := Inventory.itemOrderedStatus inventory;
     row_itemRemark := default "" (Inventory.itemRemark inventory) |}.

Definition cart_item_summary (db : DB) : response * DB :=
  try_catch
    (let* inventories := Inventory_find in
     let* cartItems := CartItem_find in
     let acc := cartItemsById cartItems in
     ret (Res 200 (json_summary (List.map (summary_of acc) inventories))))
    (fun err => Res 500 (error_message err))
    db.

(** *** PUT /update-items-status *)

Module UpdateItemsStatus.
Record item : Type := {
  _id : ObjectId;
  status : option string;
  remarks : option string
}.

Definition valid (items : list item) : bool :=
  forallb (fun it => valid_status (status it)) items.
End UpdateItemsStatus.

(** The body of [for (const item of items)].  [cartItem.item_id.toString()]
    throws a [TypeError] when the path holds no string. *)
Fixpoint update_items_status_loop (inventoryIds : list ObjectId)
    (items : list UpdateItemsStatus.item) : M unit :=
  match items with
  | [] => ret tt
  | item :: rest =>
      let* cartItem := CartItem_findById (UpdateItemsStatus._id item) in
      match cartItem with
      | None =>
          respond (Res 404 (error_id "Cart item with ID " (UpdateItemsStatus._id item)
                                     " not found."))
      | Some cartItem =>
          match CartItem.item_id cartItem with
          | value i =>
              if bool_decide (i ∈ inventoryIds)
              then
                let* _ := CartItem_save
                  (assign_updates None (UpdateItemsStatus.status item)
                     (UpdateItemsStatus.remarks item) cartItem) in
                update_items_status_loop inventoryIds rest
              else update_items_status_loop inventoryIds rest
          | _ => throw TypeError
          end
      end
  end.

Definition update_items_status (items : list UpdateItemsStatus.item) (db : DB)
    : response * DB :=
  if negb (UpdateItemsStatus.valid items) then (Res 400 errors_array, db)
  else
    try_catch
      (let* inventories := Inventory_find in
       let inventoryIds := List.map Inventory._id inventories in
       let* _ := update_items_status_loop inventoryIds items in
       ret (Res 200 (message_text "Cart items updated successfully.")))
      (fun err => Res 500 (error_message err))
      db.

(** ** Routes of [routes/inventory.js] *)

(** *** POST /inventory *)

Module PostInventory.
Record t : Type := {
  itemQuantity : Z;
  itemStatus : string;
  itemName : option string
}.

(** [validateInventoryInput]: [isInt({ min: 0 })] and [isIn(['enabled',
    'disabled'])]; the check of [itemName] is commented out in the source. *)
Definition valid (req : t) : bool :=
  bool_decide (0 <= itemQuantity req)%Z
  && bool_decide (itemStatus req ∈ Inventory.itemStatus_enum).
End PostInventory.

Definition post_inventory (req : PostInventory.t) (db : DB) : response * DB :=
  if negb (PostInventory.valid req) then (Res 400 errors_array, db)
  else
    try_catch
      (let* newInventory :=
         new_Inventory (PostInventory.itemQuantity req)
           (PostInventory.itemStatus req) (PostInventory.itemName req) in
       let* _ := Inventory_save newInventory in
       ret (Res 201 (json_inventory newInventory)))
      (fun err =>
         if is_duplicate_key err
         then Res 400 (error_text "Item name must be unique. This item already exists.")
         else Res 500 (error_text "Internal Server Error"))
      db.

(** *** DELETE /inventory/:id *)

(** The two deletions of [Promise.all([...])] touch different collections
    and do not depend on each other; both run whatever the other finds. *)
Definition delete_inventory (id : ObjectId) (db : DB) : response * DB :=
  try_catch
    (let* deletedItem := Inventory_findByIdAndDelete id in
     let* deletecartitem := CartItem_deleteMany (by_item_id id) in
     match deletedItem with
     | None => respond (Res 404 (message_text "Item not found"))
     | Some deletedItem =>
         ret (Res 200 (message_deleted "Item deleted successfully"
                         deletedItem deletecartitem))
     end)
    (fun err => Res 500 (error_text "Internal Server Error"))
    db.

(** [Cart.findOne({ userId }).populate('cartItems', ...)]: the references
    are replaced by the documents they resolve to; dangling ones drop out. *)
Definition populate (db : DB) (c : Cart.t) : list CartItem.t :=
  omap (fun id => findById CartItem._id id (cartitems db)) (Cart.cartItems c).

(** ** Well-formed stores *)

(** Ids already in the store were drawn from the counter, so the next
    [new ObjectId()] differs from all of them. *)
Definition fresh_ids (db : DB) : Prop :=
  Forall (fun c => Cart._id c < next_id db) (carts db) ∧
  Forall (fun d => CartItem._id d < next_id db ∧ CartItem.cart d < next_id db)
    (cartitems db).

(** [_id] is unique within each collection. *)
Definition unique_ids (db : DB) : Prop :=
  NoDup (List.map Inventory._id (inventories db)) ∧
  NoDup (List.map Cart._id (carts db)) ∧
  NoDup (List.map CartItem._id (cartitems db)).

(** The id of a line item is never the id of a catalog item, nor an id that
    some line item uses as its catalog reference. *)
Definition line_ids_apart (db : DB) : Prop :=
  Forall (fun d =>
            (CartItem._id d ∉ List.map Inventory._id (inventories db)) ∧
            Forall (fun d' => CartItem.item_id d' ≠ value (CartItem._id d))
              (cartitems db))
    (cartitems db).

(** ** Requests and stores used in the statements *)

(** An /add-items request with a single item. *)
Definition single_add (u i : ObjectId) (q : Z) : AddItems.t :=
  {| AddItems.userId := u;
     AddItems.items := [{| AddItems.item_id := i; AddItems.ordered_quantity := q |}] |}.

(** The line item [new CartItem(...)] builds in /add-items. *)
Definition catalog_line (n c i : ObjectId) (name : string) (q : Z) : CartItem.t :=
  {| CartItem._id := n; CartItem.cart := c; CartItem.item_id := value i;
     CartItem.itemName := name; CartItem.ordered_quantity := q;
     CartItem.allotted_quantity := 0; CartItem.status := "Pending";
     CartItem.remarks := None; CartItem.link := None |}.

(** A catalog holding ten units of glue, and nothing else in the store. *)
Definition glue : Inventory.t :=
  {| Inventory._id := 0; Inventory.itemQuantity := 10;
     Inventory.itemStatus := "enabled"; Inventory.itemName := "Glue";
     Inventory.itemOrderedStatus := "Available"; Inventory.itemRemark := None |}.

Definition glue_db : DB :=
  {| inventories := [glue]; carts := []; cartitems := []; next_id := 1 |}.

(** An /add-custom-item request. *)
Definition custom_add (u : ObjectId) (name : string) (q : Z) (l : option string)
    : AddCustomItem.t :=
  {| AddCustomItem.userId := u; AddCustomItem.itemName := name;
     AddCustomItem.ordered_quantity := q; AddCustomItem.link := l |}.

(** The line item [new CartItem(...)] builds in /add-custom-item. *)
Definition custom_line (n c : ObjectId) (name : string) (q : Z) (l : option string)
    : CartItem.t :=
  {| CartItem._id := n; CartItem.cart := c; CartItem.item_id := null;
     CartItem.itemName := name; CartItem.ordered_quantity := q;
     CartItem.allotted_quantity := 0; CartItem.status := "Pending";
     CartItem.remarks := None; CartItem.link := l |}.

(** The store after requester 7 asked for three units of glue. *)
Definition pending_db : DB :=
  {| inventories := [glue];
     carts := [{| Cart._id := 1; Cart.userId := 7; Cart.cartItems := [2] |}];
     cartitems := [catalog_line 2 1 0 "Glue" 3];
     next_id := 3 |}.

(** A store with one cart holding two line items: three units of glue, and
    one rope whose catalog item (id 1) is no longer in the catalog. *)
Definition glue_line : CartItem.t := catalog_line 3 2 0 "Glue" 3.

Definition rope_line : CartItem.t := catalog_line 4 2 1 "Rope" 1.

Definition requests_db : DB :=
  {| inventories := [glue];
     carts := [{| Cart._id := 2; Cart.userId := 7; Cart.cartItems := [3; 4] |}];
     cartitems := [glue_line; rope_line];
     next_id := 5 |}.

(** The status each stored line item has, by id. *)
Definition status_of (db : DB) (id : ObjectId) : option string :=
  CartItem.status <$> findById CartItem._id id (cartitems db).

(** An /update-cart-item-status body. *)
Definition status_update (a : option Z) (s r : option string)
    : UpdateCartItemStatus.t :=
  {| UpdateCartItemStatus.allotted_quantity := a;
     UpdateCartItemStatus.status := s; UpdateCartItemStatus.remarks := r |}.

(** An /update-items-status item. *)
Definition lenient_item (id : ObjectId) (s r : option string)
    : UpdateItemsStatus.item :=
  {| UpdateItemsStatus._id := id; UpdateItemsStatus.status := s;
     UpdateItemsStatus.remarks := r |}.

(** An /update-multiple-cart-items item. *)
Definition strict_item (id : ObjectId) (a : option Z) (s r : option string)
    : UpdateMultiple.item :=
  {| UpdateMultiple._id := id; UpdateMultiple.allotted_quantity := a;
     UpdateMultiple.status := s; UpdateMultiple.remarks := r |}.

(** ** The summary report, as the specification words it *)

Definition sum_ordered (l : list CartItem.t) : Z :=
  foldr (fun d s => CartItem.ordered_quantity d + s)%Z 0%Z l.

Definition sum_allotted (l : list CartItem.t) : Z :=
  foldr (fun d s => CartItem.allotted_quantity d + s)%Z 0%Z l.

(** Membership of the group kept under key [k]. *)
Definition in_group (k : ObjectId) (d : CartItem.t) : bool :=
  bool_decide (group_key d = k).

(** The row of a catalog item: its own fields, joined with the sums over
    exactly the line items that reference it. *)
Definition expected_row (db : DB) (inventory : Inventory.t) : summary_row :=
  let members := List.filter (by_item_id (Inventory._id inventory)) (cartitems db) in
  {| row_id := Inventory._id inventory;
     row_itemName := Inventory.itemName inventory;
     availableQuantity := Inventory.itemQuantity inventory;
     row_totalOrderedQuantity := sum_ordered members;
     row_totalAllottedQuantity := sum_allotted members;
     row_itemOrderedStatus := Inventory.itemOrderedStatus inventory;
     row_itemRemark := default "" (Inventory.itemRemark inventory) |}.

(** The group of a line item that is alone under its key. *)
Definition own_group (d : CartItem.t) : group :=
  {| group_id := CartItem._id d;
     totalOrderedQuantity := CartItem.ordered_quantity d;
     totalAllottedQuantity := CartItem.allotted_quantity d;
     group_itemName := CartItem.itemName d;
     group_itemOrderedStatus := ""; group_itemRemark := "" |}.

(** Two requesters asked for glue (3 and 4 units, 1 and 2 of them allotted)
    and each added a custom item named "Tape". *)
Definition summary_db : DB :=
  {| inventories := [glue];
     carts := [{| Cart._id := 1; Cart.userId := 7; Cart.cartItems := [2; 3] |};
               {| Cart._id := 4; Cart.userId := 8; Cart.cartItems := [5; 6] |}];
     cartitems :=
       [CartItem.with_allotted_quantity 1 (catalog_line 2 1 0 "Glue" 3);
        custom_line 3 1 "Tape" 2 None;
        CartItem.with_allotted_quantity 2 (catalog_line 5 4 0 "Glue" 4);
        custom_line 6 4 "Tape" 5 None];
     next_id := 7 |}.

(** ** Stores used for the removal and deletion statements *)

(** The references a cart keeps after the one to [id] is filtered out. *)
Definition remaining_refs (id : ObjectId) (c : Cart.t) : list ObjectId :=
  List.filter (fun i => negb (bool_decide (i = id))) (Cart.cartItems c).

(** A POST /inventory body. *)
Definition new_item (name : option string) (q : Z) (s : string) : PostInventory.t :=
  {| PostInventory.itemQuantity := q; PostInventory.itemStatus := s;
     PostInventory.itemName := name |}.

(** The items of a batch that address the line item [i]. *)
Definition addressed_to (i : ObjectId) (items : list UpdateMultiple.item)
    : list UpdateMultiple.item :=
  List.filter (fun it => bool_decide (UpdateMultiple._id it = i)) items.

(** A batch whose first item names a line item that does not exist. *)
Definition batch_with_missing : list UpdateMultiple.item :=
  [strict_item 99 (Some 1%Z) None None; strict_item 3 (Some 3%Z) None (Some "packed")].


(** * The remaining routes

    The other handlers of [routes/cart.js] and [routes/inventory.js], and
    the access check they are mounted behind.
    - Requests are decoded, as above: an id is the [ObjectId] it names, so
      the [isMongoId()] checks hold of every request that can be written
      down, and their 400 answers and the cast errors of malformed ids
      have no counterpart.
    - The [User] collection is written by [routes/user.js] only; the
      handlers that read it take it as a list of users.
    - [jwt.verify] is a parameter of the access check. *)

(** A handler whose success body is not one of [body] answers 200 with a
    value of its own type. *)
Inductive reply (A : Type) : Type :=
| Failed (r : response)   (* an early [return res...] or the [catch] *)
| Ok (a : A).             (* [res.status(200).json(a)] *)
Arguments Failed {A} r.
Arguments Ok {A} a.

Definition try_catch_ok {A} (body : M A) (handler : error -> response)
    (db : DB) : reply A * DB :=
  match body db with
  | (Next a, db') => (Ok a, db')
  | (Return r, db') => (Failed r, db')
  | (Throw e, db') => (Failed (handler e), db')
  end.

(** ** More routes of [routes/cart.js] *)

(** The documents [populate('cartItems', fields)] leaves in the cart, with
    the paths the requester-facing route selects. *)
Record item_view : Type := {
  view_id : ObjectId;
  view_itemName : string;
  view_ordered_quantity : Z;
  view_status : string;
  view_remarks : option string
}.

Definition view_of (d : CartItem.t) : item_view :=
  {| view_id := CartItem._id d; view_itemName := CartItem.itemName d;
     view_ordered_quantity := CartItem.ordered_quantity d;
     view_status := CartItem.status d; view_remarks := CartItem.remarks d |}.

(** The paths the administrator-facing route selects. *)
Record item_full_view : Type := {
  full_id : ObjectId;
  full_itemName : string;
  full_ordered_quantity : Z;
  full_allotted_quantity : Z;
  full_status : string;
  full_remarks : option string;
  full_link : option string
}.

Definition full_view_of (d : CartItem.t) : item_full_view :=
  {| full_id := CartItem._id d; full_itemName := CartItem.itemName d;
     full_ordered_quantity := CartItem.ordered_quantity d;
     full_allotted_quantity := CartItem.allotted_quantity d;
     full_status := CartItem.status d; full_remarks := CartItem.remarks d;
     full_link := CartItem.link d |}.

(** [Cart.findOne({ userId }).populate('cartItems', ...)] *)
Definition Cart_findOne_populated (q : Cart.t -> bool)
    : M (option (Cart.t * list CartItem.t)) :=
  fun db =>
    (Next (match findOne q (carts db) with
           | Some cart => Some (cart, populate db cart)
           | None => None
           end), db).

(** *** GET /cart-items-final/:userId *)
Definition cart_items_final (userId : ObjectId) (db : DB)
    : reply (list item_view) * DB :=
  try_catch_ok
    (let* cart := Cart_findOne_populated (by_userId userId) in
     match cart with
     | None => respond (Res 404 (message_text "No items found for this user."))
     | Some (_, cartItems) =>
         if bool_decide (length cartItems = 0)
         then respond (Res 404 (message_text "No items found for this user."))
         else ret (List.map view_of cartItems)
     end)
    (fun err => Res 500 (error_message err))
    db.

(** *** GET /cart-items-user/:userId *)
Definition cart_items_user (userId : ObjectId) (db : DB)
    : reply (list item_full_view) * DB :=
  try_catch_ok
    (let* cart := Cart_findOne_populated (by_userId userId) in
     match cart with
     | None => respond (Res 404 (message_text "No items found for this user."))
     | Some (_, cartItems) =>
         if bool_decide (length cartItems = 0)
         then respond (Res 404 (message_text "No items found for this user."))
         else ret (List.map full_view_of cartItems)
     end)
    (fun err => Res 500 (error_message err))
    db.

(** *** GET /cart-item-summary-custom *)

(** [{ item_id: null }] matches a stored [null] and an absent path. *)
Definition by_item_id_null (d : CartItem.t) : bool :=
  match CartItem.item_id d with
  | value _ => false
  | _ => true
  end.

Definition cart_item_summary_custom (db : DB) : response * DB :=
  try_catch
    (let* all := CartItem_find in
     ret (Res 200 (json_cartItems (List.filter by_item_id_null all))))
    (fun err => Res 500 (error_message err))
    db.

(** *** DELETE /remove-cart/:cart_id *)

(** [Cart.findByIdAndDelete(id)] *)
Definition Cart_findByIdAndDelete (id : ObjectId) : M (option Cart.t) :=
  fun db =>
    (Next (findById Cart._id id (carts db)),
     set_carts (deleteOne (has_id Cart._id id) (carts db)) db).

(** [{ cart: cart_id }] *)
Definition by_cart (c : ObjectId) (d : CartItem.t) : bool :=
  bool_decide (CartItem.cart d = c).

(** As in DELETE /inventory/:id, both deletions of the [Promise.all] run
    whatever the other finds. *)
Definition remove_cart (cart_id : ObjectId) (db : DB)
    : reply (Cart.t * nat) * DB :=
  try_catch_ok
    (let* deletedcart := Cart_findByIdAndDelete cart_id in
     let* deletecartitem := CartItem_deleteMany (by_cart cart_id) in
     match deletedcart with
     | None => respond (Res 404 (message_text "Cart not found"))
     | Some deletedcart => ret (deletedcart, deletecartitem)
     end)
    (fun err => Res 500 (error_text "Internal Server Error"))
    db.

(** *** GET /get-club-list *)

(** [Cart.find()] *)
Definition Cart_find : M (list Cart.t) := fun db => (Next (carts db), db).

Module User.
Record t : Type := {
  _id : ObjectId;
  cordName : string;
  clubName : string;
  mobile : string;
  email : string;
  password : string;
  access : string
}.
End User.

Record club : Type := {
  club_clubName : string;
  club_cordName : string;
  contact : string;
  cart_id : ObjectId;
  user_id : ObjectId
}.

(** The callback of [carts.map(cart => ...)] on a cart whose [userId] was
    populated: a requester that is not found leaves [null] there, and
    reading [cart.userId.clubName] throws. *)
Definition club_of (users : list User.t) (cart : Cart.t) : error + club :=
  match findById User._id (Cart.userId cart) users with
  | None => inl TypeError
  | Some user =>
      inr {| club_clubName := User.clubName user;
             club_cordName := User.cordName user;
             contact := User.mobile user;
             cart_id := Cart._id cart;
             user_id := User._id user |}
  end.

(** [carts.map] stops at the first callback that throws. *)
Fixpoint club_list (users : list User.t) (carts : list Cart.t)
    : error + list club :=
  match carts with
  | [] => inr []
  | cart :: rest =>
      match club_of users cart with
      | inl e => inl e
      | inr c =>
          match club_list users rest with
          | inl e => inl e
          | inr l => inr (c :: l)
          end
      end
  end.

Definition get_club_list (users : list User.t) (db : DB)
    : reply (list club) * DB :=
  try_catch_ok
    (let* carts := Cart_find in
     match club_list users carts with
     | inl e => throw e
     | inr clubList => ret clubList
     end)
    (fun err => Res 500 (error_message err))
    db.

(** ** More routes of [routes/inventory.js] *)

(** [updateOne]: the first matching document is rewritten. *)
Fixpoint updateOne {D : Type} (q : D -> bool) (f : D -> D) (c : list D) : list D :=
  match c with
  | [] => []
  | d :: c' => if q d then f d :: c' else d :: updateOne q f c'
  end.

(** *** PUT /inventory/:id *)

Module PutInventory.
Record t : Type := {
  itemName : option string;
  itemStatus : string;
  itemQuantity : Z
}.

(** [validateInventoryInput], as for POST /inventory. *)
Definition valid (req : t) : bool :=
  bool_decide (0 <= itemQuantity req)%Z
  && bool_decide (itemStatus req ∈ Inventory.itemStatus_enum).
End PutInventory.

(** The document after [{ itemName, itemStatus, itemQuantity }] is set on
    it; a name the body does not carry is left out of the update. *)
Definition updated_inventory (req : PutInventory.t) (d : Inventory.t) : Inventory.t :=
  {| Inventory._id := Inventory._id d;
     Inventory.itemQuantity := PutInventory.itemQuantity req;
     Inventory.itemStatus := PutInventory.itemStatus req;
     Inventory.itemName := default (Inventory.itemName d) (PutInventory.itemName req);
     Inventory.itemOrderedStatus := Inventory.itemOrderedStatus d;
     Inventory.itemRemark := Inventory.itemRemark d |}.

(** [Inventory.findByIdAndUpdate(id, update, { new: true })]: no schema
    validator runs on an update; the unique index on [itemName] rejects a
    name that another document holds. *)
Definition Inventory_findByIdAndUpdate (id : ObjectId) (req : PutInventory.t)
    : M (option Inventory.t) :=
  fun db =>
    match findById Inventory._id id (inventories db) with
    | None => (Next None, db)
    | Some d =>
        if existsb (fun d' => negb (has_id Inventory._id id d')
                              && bool_decide (Inventory.itemName d'
                                              = Inventory.itemName (updated_inventory req d)))
             (inventories db)
        then (Throw (MongoServerError 11000), db)
        else (Next (Some (updated_inventory req d)),
              set_inventories
                (updateOne (has_id Inventory._id id) (updated_inventory req)
                   (inventories db)) db)
    end.

Definition put_inventory (id : ObjectId) (req : PutInventory.t) (db : DB)
    : reply Inventory.t * DB :=
  if negb (PutInventory.valid req) then (Failed (Res 400 errors_array), db)
  else
    try_catch_ok
      (let* updatedItem := Inventory_findByIdAndUpdate id req in
       match updatedItem with
       | None => respond (Res 404 (message_text "Item not found"))
       | Some updatedItem => ret updatedItem
       end)
      (fun err =>
         if is_duplicate_key err
         then Res 400 (error_text "Item name must be unique. This name already exists.")
         else Res 500 (error_text "Internal Server Error"))
      db.

(** *** PUT /update-inventory-items *)

Module UpdateInventoryItems.
Record item : Type := {
  _id : ObjectId;
  itemOrderedStatus : option string;
  itemRemark : option string
}.
End UpdateInventoryItems.

(** The two guarded assignments of the callback. *)
Definition assign_annotations (item : UpdateInventoryItems.item)
    (inventory : Inventory.t) : Inventory.t :=
  {| Inventory._id := Inventory._id inventory;
     Inventory.itemQuantity := Inventory.itemQuantity inventory;
     Inventory.itemStatus := Inventory.itemStatus inventory;
     Inventory.itemName := Inventory.itemName inventory;
     Inventory.itemOrderedStatus :=
       default (Inventory.itemOrderedStatus inventory)
         (UpdateInventoryItems.itemOrderedStatus item);
     Inventory.itemRemark :=
       match UpdateInventoryItems.itemRemark item with
       | Some r => Some r
       | None => Inventory.itemRemark inventory
       end |}.

(** One callback of [items.map(async (item) => ...)] up to the write of its
    [save()], on the store as the request found it. *)
Definition annotate_task (snapshot : list Inventory.t)
    (item : UpdateInventoryItems.item) : error + Inventory.t :=
  match findById Inventory._id (UpdateInventoryItems._id item) snapshot with
  | None =>
      inl (Error "inventory item with ID " (UpdateInventoryItems._id item) " not found.")
  | Some inventory =>
      let inventory := assign_annotations item inventory in
      match Inventory.invalid_paths inventory with
      | [] => inr inventory
      | paths => inl (ValidationError paths)
      end
  end.

(** The write of [save()]: the modified paths of the stored document are
    set to the in-memory values. *)
Definition set_annotations (item : UpdateInventoryItems.item)
    (mem stored : Inventory.t) : Inventory.t :=
  {| Inventory._id := Inventory._id stored;
     Inventory.itemQuantity := Inventory.itemQuantity stored;
     Inventory.itemStatus := Inventory.itemStatus stored;
     Inventory.itemName := Inventory.itemName stored;
     Inventory.itemOrderedStatus :=
       match UpdateInventoryItems.itemOrderedStatus item with
       | Some _ => Inventory.itemOrderedStatus mem
       | None => Inventory.itemOrderedStatus stored
       end;
     Inventory.itemRemark :=
       match UpdateInventoryItems.itemRemark item with
       | Some _ => Inventory.itemRemark mem
       | None => Inventory.itemRemark stored
       end |}.

Definition commit_annotation (snapshot : list Inventory.t) (c : list Inventory.t)
    (item : UpdateInventoryItems.item) : list Inventory.t :=
  match annotate_task snapshot item with
  | inr mem =>
      List.map (fun d => if has_id Inventory._id (Inventory._id mem) d
                         then set_annotations item mem d else d) c
  | inl _ => c
  end.

(** The callbacks run under [Promise.all], as in
    /update-multiple-cart-items. *)
Definition update_inventory_items (items : list UpdateInventoryItems.item) (db : DB)
    : reply (list Inventory.t) * DB :=
  let snapshot := inventories db in
  let results := List.map (annotate_task snapshot) items in
  let db' := set_inventories (foldl (commit_annotation snapshot) snapshot items) db in
  match rejections results with
  | err :: errs => (Failed (Res 500 (error_message_first (err :: errs))), db')
  | [] =>
      (Ok (omap (fun r => match r with inr d => Some d | inl _ => None end) results), db')
  end.

(** *** GET /inventory *)
Definition get_inventory (db : DB) : reply (list Inventory.t) * DB :=
  try_catch_ok
    (let* items := Inventory_find in ret items)
    (fun err => Res 500 (error_text "Internal Server Error"))
    db.

(** *** GET /inventory/user *)

(** The paths the projection ['itemName itemStatus'] keeps. *)
Record inventory_view : Type := {
  inv_id : ObjectId;
  inv_itemName : string;
  inv_itemStatus : string
}.

Definition inventory_view_of (d : Inventory.t) : inventory_view :=
  {| inv_id := Inventory._id d; inv_itemName := Inventory.itemName d;
     inv_itemStatus := Inventory.itemStatus d |}.

(** [{ "itemStatus": "enabled" }] *)
Definition by_itemStatus (s : string) (d : Inventory.t) : bool :=
  bool_decide (Inventory.itemStatus d = s).

(** [Inventory.find(query)] *)
Definition Inventory_find_where (q : Inventory.t -> bool) : M (list Inventory.t) :=
  fun db => (Next (List.filter q (inventories db)), db).

Definition get_inventory_user (db : DB) : reply (list inventory_view) * DB :=
  try_catch_ok
    (let* items := Inventory_find_where (by_itemStatus "enabled") in
     ret (List.map inventory_view_of items))
    (fun err => Res 500 (error_text "Internal Server Error"))
    db.

(** ** The access check of [services/authMiddleware.js] *)

(** [s] without the prefix [pat], when it starts with it. *)
Fixpoint strip_prefix (pat s : string) : option string :=
  match pat, s with
  | EmptyString, _ => Some s
  | String a pat', String b s' =>
      if bool_decide (a = b) then strip_prefix pat' s' else None
  | String _ _, EmptyString => None
  end.

(** [s.replace(pat, '')] for a string [pat]: the first occurrence of [pat]
    is taken out. *)
Fixpoint replace (pat s : string) : string :=
  match strip_prefix pat s with
  | Some rest => rest
  | None =>
      match s with
      | EmptyString => EmptyString
      | String c s' => String c (replace pat s')
      end
  end.

(** What [jwt.verify(token, secret)] does: it returns the payload, whose
    [id] may be missing, or throws. *)
Inductive verified : Type :=
| Decoded (id : option ObjectId)
| TokenExpiredError
| JsonWebTokenError.

Section AuthMiddleware.
Variable jwt_verify : string -> verified.

(** The middleware [authMiddleware(requiredAccess)] on the [Authorization]
    header of a request: [None] stands for [next()], a response for an
    early [return res.status(..).json(..)]. *)
Definition authMiddleware (requiredAccess : string) (authorization : option string)
    (users : list User.t) : option response :=
  match replace "Bearer " <$> authorization with
  | None => Some (Res 401 (message_text "No token provided, authorization denied."))
  | Some token =>
      if bool_decide (token = "")
      then Some (Res 401 (message_text "No token provided, authorization denied."))
      else
        match jwt_verify token with
        | Decoded id =>
            match id ≫= (fun id => findById User._id id users) with
            | None => Some (Res 404 (message_text "User not found."))
            | Some user =>
                if bool_decide (User.access user = requiredAccess) then None
                else Some (Res 403 (message_text "Access denied."))
            end
        | TokenExpiredError =>
            Some (Res 401 (message_text "Token has expired. Please login again."))
        | JsonWebTokenError => Some (Res 401 (message_text "Token is not valid."))
        end
  end.

End AuthMiddleware.

(** ** Registration, [routes/user.js] *)

Module VerificationCode.
Record t : Type := { email : string; code : string }.
End VerificationCode.

(** The collections [routes/user.js] writes. *)
Record Accounts : Type := {
  users : list User.t;
  verificationcodes : list VerificationCode.t;
  next_account_id : ObjectId
}.

Definition access_enum : list string := ["user"; "bosslevel"].

(** Paths of a user that fail schema validation ([required], [enum]). *)
Definition User_invalid_paths (d : User.t) : list string :=
  (if bool_decide (User.cordName d = "") then ["cordName"] else []) ++
  (if bool_decide (User.clubName d = "") then ["clubName"] else []) ++
  (if bool_decide (User.mobile d = "") then ["mobile"] else []) ++
  (if bool_decide (User.email d = "") then ["email"] else []) ++
  (if bool_decide (User.password d = "") then ["password"] else []) ++
  (if bool_decide (User.access d ∈ access_enum) then [] else ["access"]).

Module Register.
Record t : Type := {
  cordName : string;
  clubName : string;
  mobile : string;
  email : string;
  password : string;
  access : option string;
  verificationCode : string
}.
End Register.

(** [access || 'user']: an absent or empty level falls back to ['user']. *)
Definition access_or_user (access : option string) : string :=
  match access with
  | Some a => if bool_decide (a = "") then "user" else a
  | None => "user"
  end.

(** [{ email }] *)
Definition by_email (e : string) (v : VerificationCode.t) : bool :=
  bool_decide (VerificationCode.email v = e).

(** [{ clubName: clubName }] *)
Definition by_clubName (n : string) (u : User.t) : bool :=
  bool_decide (User.clubName u = n).

(** POST /register.  [hashedPassword] is what [bcrypt.hash(password, 10)]
    returned; [Ok] stands for the 201 answer with the new user.  The save
    runs the schema validators and then the insert, which the unique index
    on [email] may reject. *)
Definition register (req : Register.t) (hashedPassword : string) (acc : Accounts)
    : reply User.t * Accounts :=
  match findOne (by_email (Register.email req)) (verificationcodes acc) with
  | None => (Failed (Res 400 (error_text "Invalid verification code.")), acc)
  | Some storedVerificationCode =>
      if bool_decide (Register.verificationCode req
                      ≠ VerificationCode.code storedVerificationCode)
      then (Failed (Res 400 (error_text "Invalid verification code.")), acc)
      else
        match findOne (by_clubName (Register.clubName req)) (users acc) with
        | Some existingUser =>
            (Failed (Res 400 (error_text "A user with this club name already exists.")),
             acc)
        | None =>
            let newUser :=
              {| User._id := next_account_id acc;
                 User.cordName := Register.cordName req;
                 User.clubName := Register.clubName req;
                 User.mobile := Register.mobile req;
                 User.email := Register.email req;
                 User.password := hashedPassword;
                 User.access := access_or_user (Register.access req) |} in
            let acc :=
              {| users := users acc; verificationcodes := verificationcodes acc;
                 next_account_id := S (next_account_id acc) |} in
            match User_invalid_paths newUser with
            | [] =>
                if existsb (fun u => bool_decide (User.email u = User.email newUser))
                     (users acc)
                then (Failed (Res 500 (error_message (MongoServerError 11000))), acc)
                else
                  (Ok newUser,
                   {| users := users acc ++ [newUser];
                      verificationcodes :=
                        deleteOne (by_email (Register.email req)) (verificationcodes acc);
                      next_account_id := next_account_id acc |})
            | paths => (Failed (Res 500 (error_message (ValidationError paths))), acc)
            end
        end
  end.

(** * The routes as one system *)

(** The requests that write to the store, as [index.js] mounts their
    routes. *)
Inductive request : Type :=
| POST_add_items (req : AddItems.t)
| POST_add_custom_item (req : AddCustomItem.t)
| DELETE_remove_item (cart : ObjectId) (itemName : string)
| PUT_update_cart_item_status (cartItemId : ObjectId) (req : UpdateCartItemStatus.t)
| PUT_update_multiple_cart_items (items : list UpdateMultiple.item)
| PUT_update_items_status (items : list UpdateItemsStatus.item)
| DELETE_remove_cart (cart_id : ObjectId)
| POST_inventory (req : PostInventory.t)
| DELETE_inventory (id : ObjectId)
| PUT_inventory (id : ObjectId) (req : PutInventory.t)
| PUT_update_inventory_items (items : list UpdateInventoryItems.item).

(** The store a request leaves behind. *)
Definition serve (r : request) (db : DB) : DB :=
  match r with
  | POST_add_items req => snd (add_items req db)
  | POST_add_custom_item req => snd (add_custom_item req db)
  | DELETE_remove_item cart itemName => snd (remove_item cart itemName db)
  | PUT_update_cart_item_status id req => snd (update_cart_item_status id req db)
  | PUT_update_multiple_cart_items items => snd (update_multiple_cart_items items db)
  | PUT_update_items_status items => snd (update_items_status items db)
  | DELETE_remove_cart cart_id => snd (remove_cart cart_id db)
  | POST_inventory req => snd (post_inventory req db)
  | DELETE_inventory id => snd (delete_inventory id db)
  | PUT_inventory id req => snd (put_inventory id req db)
  | PUT_update_inventory_items items => snd (update_inventory_items items db)
  end.

(** The store after a sequence of requests, served one after the other
    from the empty store. *)
Definition serve_all (rs : list request) : DB := foldl (fun db r => serve r db) empty_db rs.

Definition reachable (db : DB) : Prop := ∃ rs, db = serve_all rs.

(** A catalog reference as the routes write it: [null] on a custom item,
    the id of a catalog item otherwise. *)
Definition reference_ok (ids : list ObjectId) (f : field ObjectId) : Prop :=
  match f with
  | undefined => False
  | null => True
  | value k => k ∈ ids
  end.

(** A stored line item: it passes its schema, its id is not the id of a
    catalog item and its catalog reference resolves. *)
Definition line_ok (ids : list ObjectId) (d : CartItem.t) : Prop :=
  CartItem.invalid_paths d = [] ∧ (CartItem._id d ∉ ids) ∧
  reference_ok ids (CartItem.item_id d).

Definition store_ok (db : DB) : Prop :=
  Forall (fun d => Inventory._id d < next_id db) (inventories db) ∧
  fresh_ids db ∧ unique_ids db ∧
  Forall (line_ok (List.map Inventory._id (inventories db))) (cartitems db).

(** A sound line item: it passes its schema, its id is not the id of a
    catalog item and it holds the [item_id] path, as [null] or as an id. *)
Definition line_sound (ids : list ObjectId) (d : CartItem.t) : Prop :=
  CartItem.invalid_paths d = [] ∧ (CartItem._id d ∉ ids) ∧
  CartItem.item_id d ≠ undefined.

(** A sound store: as [store_ok], without the requirement that catalog
    references resolve. *)
Definition store_sound (db : DB) : Prop :=
  Forall (fun d => Inventory._id d < next_id db) (inventories db) ∧
  fresh_ids db ∧ unique_ids db ∧
  Forall (line_sound (List.map Inventory._id (inventories db))) (cartitems db).

(** A catalog of glue, then a request for three units of it by requester 7
    and a custom item of requester 8. *)
Definition sample_requests : list request :=
  [POST_inventory {| PostInventory.itemQuantity := 10;
                     PostInventory.itemStatus := "enabled";
                     PostInventory.itemName := Some "Glue" |};
   POST_add_items {| AddItems.userId := 7;
                     AddItems.items := [{| AddItems.item_id := 0;
                                           AddItems.ordered_quantity := 3 |}] |};
   POST_add_custom_item {| AddCustomItem.userId := 8;
                           AddCustomItem.itemName := "Tape";
                           AddCustomItem.ordered_quantity := 2;
                           AddCustomItem.link := None |}].

Definition sample_db : DB :=
  {| inventories := [glue];
     carts := [{| Cart._id := 1; Cart.userId := 7; Cart.cartItems := [2] |};
               {| Cart._id := 3; Cart.userId := 8; Cart.cartItems := [4] |}];
     cartitems := [catalog_line 2 1 0 "Glue" 3; custom_line 4 3 "Tape" 2 None];
     next_id := 5 |}.

(** [d'] is [d] with a requested quantity that is at least as large. *)
Definition grown (d d' : CartItem.t) : Prop :=
  d' = CartItem.with_ordered_quantity (CartItem.ordered_quantity d') d ∧
  (CartItem.ordered_quantity d ≤ CartItem.ordered_quantity d')%Z.

(** An /add-items request whose second item names no catalog item. *)
Definition add_then_unknown (u good : ObjectId) (q : Z) (bad : AddItems.item)
    (rest : list AddItems.item) : AddItems.t :=
  {| AddItems.userId := u;
     AddItems.items :=
       {| AddItems.item_id := good; AddItems.ordered_quantity := q |} :: bad :: rest |}.

(** Requests after which cart 2 of requester 7 holds the glue line 3 as
    its only line item and still refers to the rope line 4, which the
    cascade of DELETE /inventory/1 deleted without touching the cart. *)
Definition stale_ref_requests : list request :=
  [POST_inventory (new_item (Some "Glue") 10 "enabled");
   POST_inventory (new_item (Some "Rope") 4 "enabled");
   POST_add_items
     {| AddItems.userId := 7;
        AddItems.items := [{| AddItems.item_id := 0; AddItems.ordered_quantity := 3 |};
                           {| AddItems.item_id := 1; AddItems.ordered_quantity := 1 |}] |};
   DELETE_inventory 1].

(** Requests after which cart 2 of requester 7 holds the glue line 3 and
    the rope line 4 and refers to the glue line only: the second
    /add-items saved the rope line, then answered 404 for the unknown
    catalog id 99 and never saved the cart. *)
Definition unsaved_ref_requests : list request :=
  [POST_inventory (new_item (Some "Glue") 10 "enabled");
   POST_inventory (new_item (Some "Rope") 4 "enabled");
   POST_add_items (single_add 7 0 3);
   POST_add_items
     {| AddItems.userId := 7;
        AddItems.items := [{| AddItems.item_id := 1; AddItems.ordered_quantity := 1 |};
                           {| AddItems.item_id := 99; AddItems.ordered_quantity := 1 |}] |}].

(** The catalog after its only item lost its name. *)
Definition nameless_db : DB :=
  {| inventories :=
       [{| Inventory._id := 0; Inventory.itemQuantity := 10;
           Inventory.itemStatus := "enabled"; Inventory.itemName := "";
           Inventory.itemOrderedStatus := "Available";
           Inventory.itemRemark := None |}];
     carts := []; cartitems := []; next_id := 1 |}.

(** What a line item is to its requester: the paths no update route
    writes. *)
Definition as_requested (d : CartItem.t) : ObjectId * ObjectId * field ObjectId
                                           * string * Z * option string :=
  (CartItem._id d, CartItem.cart d, CartItem.item_id d, CartItem.itemName d,
   CartItem.ordered_quantity d, CartItem.link d).

(** The line items /add-items creates for a cart that holds none of the
    requested catalog items, with ids drawn from [n] on. *)
Fixpoint ordered_lines (catalog : list Inventory.t) (cart n : ObjectId)
    (items : list AddItems.item) : list CartItem.t :=
  match items with
  | [] => []
  | item :: rest =>
      catalog_line n cart (AddItems.item_id item)
        (from_option Inventory.itemName ""
           (findById Inventory._id (AddItems.item_id item) catalog))
        (AddItems.ordered_quantity item)
      :: ordered_lines catalog cart (S n) rest
  end.

(** The store after an /add-items request that stopped at an unknown
    catalog item: the cart of requester 7 was never saved, its line item
    was. *)
Definition orphan_db : DB :=
  {| inventories := [glue]; carts := [];
     cartitems := [catalog_line 2 1 0 "Glue" 3]; next_id := 3 |}.

(** The requesters of the carts of [sample_db]. *)
Definition sample_users : list User.t :=
  [{| User._id := 7; User.cordName := "Asha"; User.clubName := "Robotics";
      User.mobile := "0100"; User.email := "asha@club.example";
      User.password := "hash7"; User.access := "user" |};
   {| User._id := 8; User.cordName := "Ravi"; User.clubName := "Drama";
      User.mobile := "0200"; User.email := "ravi@club.example";
      User.password := "hash8"; User.access := "user" |}].

(** What a catalog item is to the routes that order from it: the paths
    /update-inventory-items never writes. *)
Definition as_cataloged (d : Inventory.t) : ObjectId * string * Z * string :=
  (Inventory._id d, Inventory.itemName d, Inventory.itemQuantity d,
   Inventory.itemStatus d).

(** The document POST /inventory builds on the id [n]. *)
Definition created_item (n : ObjectId) (req : PostInventory.t) (name : string)
    : Inventory.t :=
  {| Inventory._id := n; Inventory.itemQuantity := PostInventory.itemQuantity req;
     Inventory.itemStatus := PostInventory.itemStatus req;
     Inventory.itemName := name;
     Inventory.itemOrderedStatus := "Available"; Inventory.itemRemark := None |}.

(** The items of a batch that address the catalog item [i]. *)
Definition annotations_for (i : ObjectId) (items : list UpdateInventoryItems.item)
    : list UpdateInventoryItems.item :=
  List.filter (fun it => bool_decide (UpdateInventoryItems._id it = i)) items.

(** A catalog of glue and of rope that is switched off. *)
Definition rope : Inventory.t :=
  {| Inventory._id := 1; Inventory.itemQuantity := 4;
     Inventory.itemStatus := "disabled"; Inventory.itemName := "Rope";
     Inventory.itemOrderedStatus := "Available"; Inventory.itemRemark := None |}.

Definition catalog_db : DB :=
  {| inventories := [glue; rope]; carts := []; cartitems := []; next_id := 2 |}.

(** Whether the schema accepts the ordering status an item of a batch
    carries. *)
Definition accepted_annotation (it : UpdateInventoryItems.item) : bool :=
  match UpdateInventoryItems.itemOrderedStatus it with
  | Some s => bool_decide (s ∈ Inventory.itemOrderedStatus_enum)
  | None => true
  end.

(** The references of a cart, stored or in memory: ids drawn from the
    counter that resolve, if at all, to line items of this cart. *)
Definition refs_ok_cart (db : DB) (c : Cart.t) : Prop :=
  Forall (fun id =>
            id < next_id db ∧
            match findById CartItem._id id (cartitems db) with
            | Some d => CartItem.cart d = Cart._id c
            | None => True
            end) (Cart.cartItems c).

(** No requester has two carts, and every cart refers to its own line
    items only. *)
Definition carts_ok (db : DB) : Prop :=
  NoDup (List.map Cart.userId (carts db)) ∧ Forall (refs_ok_cart db) (carts db).

(** From [db] to [db'] the counter did not go back, and an id drawn before
    still names a line item of the same cart, if it names one. *)
Definition lines_kept (db db' : DB) : Prop :=
  next_id db ≤ next_id db' ∧
  ∀ i d', i < next_id db →
    findById CartItem._id i (cartitems db') = Some d' →
    ∃ d, findById CartItem._id i (cartitems db) = Some d ∧
         CartItem.cart d = CartItem.cart d'.

(** From [db] to [db'] line items kept their carts and no cart was
    written. *)
Definition store_kept (db db' : DB) : Prop :=
  lines_kept db db' ∧ carts db' `sublist_of` carts db.

(** An administrator beside the requesters of [sample_users], and tokens
    that verify to the ids 1 and 7. *)
Definition admin : User.t :=
  {| User._id := 1; User.cordName := "Meera"; User.clubName := "Stores";
     User.mobile := "0300"; User.email := "meera@club.example";
     User.password := "hash1"; User.access := "bosslevel" |}.

Definition sample_verify (token : string) : verified :=
  if bool_decide (token = "token-of-1") then Decoded (Some 1)
  else if bool_decide (token = "token-of-7") then Decoded (Some 7)
  else JsonWebTokenError.


(** The accounts after [sample_users] registered and a verification code
    was mailed to a further address, and the registration this address
    then sends. *)
Definition sample_accounts : Accounts :=
  {| users := sample_users;
     verificationcodes :=
       [{| VerificationCode.email := "noor@club.example";
           VerificationCode.code := "271828" |}];
     next_account_id := 9 |}.

Definition sample_registration : Register.t :=
  {| Register.cordName := "Noor"; Register.clubName := "Chess";
     Register.mobile := "0400"; Register.email := "noor@club.example";
     Register.password := "secret"; Register.access := Some "bosslevel";
     Register.verificationCode := "271828" |}.

(** * The routes on requests as they are sent

    Above, a request names an id by the [ObjectId] itself and carries its
    quantities as integers.  On the wire an id is a string of 24 hex
    digits in either letter case, a quantity is a JSON number or a JSON
    string, and two paths of the code see the difference:
    - the path [item_id] of a line item is a [String].  It keeps the
      spelling the request used and is compared letter by letter, while
      [findById], [findByIdAndDelete] and the [ObjectId] paths cast the
      string to an [ObjectId], for which the letter case does not count;
    - [isInt()] validates without converting, so a quantity sent as a
      string reaches [+=] as a string, and [+=] concatenates.
    This part models both, for the four routes whose results depend on
    them: /add-items, /update-cart-item-status, /cart-item-summary and
    DELETE /inventory/:id.  A Mongoose [Number] is a double: the model
    follows the integers a double holds exactly (below 2^53 in absolute
    value) and gives no result ([None]) for a request that leaves them. *)

Module Wire.

(** ** Ids as strings *)

Definition hex_digit (n : nat) : ascii :=
  nth n (String.list_ascii_of_string "0123456789abcdef") "0"%char.

(** The last [len] hex digits of [n], in lower case. *)
Fixpoint hex (len n : nat) : string :=
  match len with
  | 0 => ""
  | S len => hex len (n / 16) +:+ String (hex_digit (n mod 16)) ""
  end.

(** [id.toString()]: 24 hex digits in lower case. *)
Definition toString (id : ObjectId) : string := hex 24 id.

(** The value of a hex digit, in either letter case. *)
Definition hex_value (c : ascii) : option nat :=
  let n := nat_of_ascii c in
  if (48 <=? n) && (n <=? 57) then Some (n - 48)
  else if (97 <=? n) && (n <=? 102) then Some (n - 87)
  else if (65 <=? n) && (n <=? 70) then Some (n - 55)
  else None.

Fixpoint hex_number (acc : nat) (s : string) : option nat :=
  match s with
  | "" => Some acc
  | String c s =>
      match hex_value c with
      | Some v => hex_number (16 * acc + v) s
      | None => None
      end
  end.

(** The [ObjectId] a string of 24 hex digits is cast to. *)
Definition ObjectId_of (s : string) : option ObjectId :=
  if String.length s =? 24 then hex_number 0 s else None.

(** [isMongoId()]: 24 hex digits. *)
Definition isMongoId (s : string) : bool := bool_decide (is_Some (ObjectId_of s)).

(** ** Quantities as JSON values *)

(** A quantity of a request body: a JSON number with an integer value or a
    JSON string.  (A number with a fraction fails [isInt()] and is answered
    400 like a string that spells none.) *)
Inductive quantity : Type :=
| number (z : Z)
| text (s : string).

(** The integers a double holds exactly. *)
Definition safe (z : Z) : bool := (Z.abs z <? 2 ^ 53)%Z.

Definition digit_value (c : ascii) : option Z :=
  let n := nat_of_ascii c in
  if (48 <=? n) && (n <=? 57) then Some (Z.of_nat (n - 48)) else None.

Fixpoint digits_number (acc : Z) (s : string) : option Z :=
  match s with
  | "" => Some acc
  | String c s =>
      match digit_value c with
      | Some d => digits_number (10 * acc + d) s
      | None => None
      end
  end.

(** [/^[0-9]+$/], with the number spelled. *)
Definition unsigned_int (s : string) : option Z :=
  match s with
  | "" => None
  | _ => digits_number 0 s
  end.

(** [/^[-+]?[0-9]+$/], the pattern of [isInt()], with the number spelled. *)
Definition signed_int (s : string) : option Z :=
  match s with
  | String "+" s' => unsigned_int s'
  | String "-" s' => Z.opp <$> unsigned_int s'
  | _ => unsigned_int s
  end.

(** [isInt({ min })] on the value as sent: the pattern, and the number at
    least [min]. *)
Definition isInt (min : Z) (q : quantity) : bool :=
  match q with
  | number z => bool_decide (min ≤ z)%Z
  | text s =>
      match signed_int s with
      | Some z => bool_decide (min ≤ z)%Z
      | None => false
      end
  end.

(** A quantity the model follows: a number is an integer a double holds
    exactly.  (A string is what it is.) *)
Definition tracked (q : quantity) : bool :=
  match q with
  | number z => safe z
  | text _ => true
  end.

Definition digit (n : Z) : ascii := ascii_of_nat (48 + Z.to_nat n).

Fixpoint digits (fuel : nat) (n : Z) (acc : string) : string :=
  match fuel with
  | 0 => acc
  | S fuel =>
      let acc := String (digit (n mod 10)) acc in
      if (n / 10 =? 0)%Z then acc else digits fuel (n / 10) acc
  end.

(** [String(n)] for an integer a double holds exactly: its decimal digits,
    16 at most, after the sign. *)
Definition decimal (n : Z) : string :=
  if (n <? 0)%Z then String "-" (digits 16 (- n) "") else digits 16 n "".

(** The outcome of writing a value to a [Number] path. *)
Inductive cast (A : Type) : Type :=
| cast_ok (a : A)      (* the path holds [a] *)
| cast_error           (* the value is no number: the path is invalid *)
| cast_untracked.      (* a number beyond the integers a double holds exactly *)
Arguments cast_ok {A} a.
Arguments cast_error {A}.
Arguments cast_untracked {A}.

(** The cast of a value to [Number], on the values the routes write: a
    number, a string [isInt()] accepted, or the digits of a stored number
    followed by such a string.  A string that spells no number is [NaN]
    to [Number()], which the cast rejects. *)
Definition Number_of (q : quantity) : cast Z :=
  match q with
  | number z => if safe z then cast_ok z else cast_untracked
  | text s =>
      match signed_int s with
      | Some z => if safe z then cast_ok z else cast_untracked
      | None => cast_error
      end
  end.

(** [stored + sent] of JavaScript: the sum of two numbers, and for a
    string the digits of the stored number followed by the string. *)
Definition plus (stored : Z) (sent : quantity) : quantity :=
  match sent with
  | number z => number (stored + z)
  | text s => text (decimal stored +:+ s)
  end.

(** [doc.path += sent] on a [Number] path that holds [stored]. *)
Definition plus_assign (stored : Z) (sent : quantity) : cast Z :=
  if safe stored && tracked sent then Number_of (plus stored sent) else cast_untracked.

(** [a + b] on two stored numbers. *)
Definition plus_number (a b : Z) : option Z :=
  if safe a && safe b && safe (a + b) then Some (a + b)%Z else None.

(** ** Schemas and store *)

Module CartItem.

(** The line item schema, with [item_id] as the [String] it is. *)
Record t : Type := {
  _id : ObjectId;
  cart : ObjectId;
  item_id : field string;
  itemName : string;
  ordered_quantity : Z;
  allotted_quantity : Z;
  status : string;
  remarks : option string;
  link : option string
}.

Definition status_enum : list string :=
  ["Pending"; "Ready"; "Rejected"; "Delivered"; "Amazon"].

(** Paths that fail schema validation: [itemName] required,
    [ordered_quantity] required with [min: 1], [status] in its enum. *)
Definition invalid_paths (d : t) : list string :=
  (if bool_decide (itemName d = "") then ["itemName"] else []) ++
  (if bool_decide (ordered_quantity d < 1)%Z then ["ordered_quantity"] else []) ++
  (if bool_decide (status d ∈ status_enum) then [] else ["status"]).

Definition with_ordered_quantity (q : Z) (d : t) : t :=
  {| _id := _id d; cart := cart d; item_id := item_id d; itemName := itemName d;
     ordered_quantity := q; allotted_quantity := allotted_quantity d;
     status := status d; remarks := remarks d; link := link d |}.

Definition with_allotted_quantity (q : Z) (d : t) : t :=
  {| _id := _id d; cart := cart d; item_id := item_id d; itemName := itemName d;
     ordered_quantity := ordered_quantity d; allotted_quantity := q;
     status := status d; remarks := remarks d; link := link d |}.

Definition with_status (s : string) (d : t) : t :=
  {| _id := _id d; cart := cart d; item_id := item_id d; itemName := itemName d;
     ordered_quantity := ordered_quantity d;
     allotted_quantity := allotted_quantity d;
     status := s; remarks := remarks d; link := link d |}.

Definition with_remarks (r : string) (d : t) : t :=
  {| _id := _id d; cart := cart d; item_id := item_id d; itemName := itemName d;
     ordered_quantity := ordered_quantity d;
     allotted_quantity := allotted_quantity d;
     status := status d; remarks := Some r; link := link d |}.

End CartItem.

Record DB : Type := {
  inventories : list Inventory.t;
  carts : list Cart.t;
  cartitems : list CartItem.t;
  next_id : ObjectId
}.

Definition set_inventories (l : list Inventory.t) (db : DB) : DB :=
  {| inventories := l; carts := carts db; cartitems := cartitems db;
     next_id := next_id db |}.

Definition set_carts (l : list Cart.t) (db : DB) : DB :=
  {| inventories := inventories db; carts := l; cartitems := cartitems db;
     next_id := next_id db |}.

Definition set_cartitems (l : list CartItem.t) (db : DB) : DB :=
  {| inventories := inventories db; carts := carts db; cartitems := l;
     next_id := next_id db |}.

Definition set_next_id (n : ObjectId) (db : DB) : DB :=
  {| inventories := inventories db; carts := carts db; cartitems := cartitems db;
     next_id := n |}.

(** A document in memory: its paths, and the [Number] paths whose last
    assignment failed its cast.  [save()] reports these with the paths
    that fail the schema. *)
Record loaded : Type := {
  doc : CartItem.t;
  cast_errors : list string
}.

Definition load (d : CartItem.t) : loaded := {| doc := d; cast_errors := [] |}.

(** ** Responses *)

Inductive body : Type :=
| errors_array                                   (* { errors: errors.array() } *)
| error_text (s : string)                        (* { error: '...' } *)
| error_message (e : error)                      (* { error: err.message } *)
| message_text (s : string)                      (* { message: '...' } *)
| message_deleted (s : string) (d : Inventory.t) (deletedCount : nat)
| json_cart (c : Cart.t)
| json_cartItem (d : CartItem.t)
| json_summary (rows : list summary_row).

Record response : Type := Res { status_code : Z; sent : body }.

(** ** Handler monad *)

Inductive outcome (A : Type) : Type :=
| Next (a : A)          (* execution goes on *)
| Return (r : response) (* [return res.status(..).json(..)] *)
| Throw (e : error).    (* rejected promise / thrown exception *)
Arguments Next {A} a.
Arguments Return {A} r.
Arguments Throw {A} e.

(** As [M] above, on this store; [None] when the request leaves the
    numbers the model follows. *)
Definition M (A : Type) : Type := DB -> option (outcome A * DB).

Definition ret {A} (a : A) : M A := fun db => Some (Next a, db).

Definition bind {A B} (m : M A) (k : A -> M B) : M B :=
  fun db =>
    match m db with
    | Some (Next a, db') => k a db'
    | Some (Return r, db') => Some (Return r, db')
    | Some (Throw e, db') => Some (Throw e, db')
    | None => None
    end.

Definition respond {A} (r : response) : M A := fun db => Some (Return r, db).

Definition throw {A} (e : error) : M A := fun db => Some (Throw e, db).

Definition untracked {A} : M A := fun _ => None.

Notation "'let+' x ':=' m 'in' k" := (bind m (fun x => k))
  (at level 10, x name, m at level 100, k at level 200).

(** [try { body } catch (err) { res.status(..).json(handler err) }] *)
Definition try_catch (body : M response) (handler : error -> response)
    (db : DB) : option (response * DB) :=
  match body db with
  | Some (Next r, db') => Some (r, db')
  | Some (Return r, db') => Some (r, db')
  | Some (Throw e, db') => Some (handler e, db')
  | None => None
  end.

(** ** Model calls *)

(** [new ObjectId()] *)
Definition new_ObjectId : M ObjectId :=
  fun db => Some (Next (next_id db), set_next_id (S (next_id db)) db).

(** The cast of a string in a query or a document to an [ObjectId] path. *)
Definition as_ObjectId (path s : string) : M ObjectId :=
  match ObjectId_of s with
  | Some id => ret id
  | None => throw (CastError path)
  end.

(** [Inventory.findById(id)] *)
Definition Inventory_findById (id : string) : M (option Inventory.t) :=
  let+ id := as_ObjectId "_id" id in
  fun db => Some (Next (findById Inventory._id id (inventories db)), db).

(** [Inventory.find()] *)
Definition Inventory_find : M (list Inventory.t) :=
  fun db => Some (Next (inventories db), db).

(** [Inventory.findByIdAndDelete(id)] *)
Definition Inventory_findByIdAndDelete (id : string) : M (option Inventory.t) :=
  let+ id := as_ObjectId "_id" id in
  fun db =>
    Some (Next (findById Inventory._id id (inventories db)),
          set_inventories (deleteOne (has_id Inventory._id id) (inventories db)) db).

(** [Cart.findOne({ userId })] *)
Definition Cart_findOne_userId (userId : string) : M (option Cart.t) :=
  let+ userId := as_ObjectId "userId" userId in
  fun db => Some (Next (findOne (by_userId userId) (carts db)), db).

(** [new Cart({ userId, cartItems: [] })] *)
Definition new_Cart (userId : string) : M Cart.t :=
  let+ id := new_ObjectId in
  let+ userId := as_ObjectId "userId" userId in
  ret {| Cart._id := id; Cart.userId := userId; Cart.cartItems := [] |}.

(** [cart.save()]: an insert of a new cart is subject to the unique index
    on [userId]. *)
Definition Cart_save (c : Cart.t) : M unit :=
  fun db =>
    if existsb (has_id Cart._id (Cart._id c)) (carts db)
    then Some (Next tt, set_carts (store Cart._id c (carts db)) db)
    else if existsb (fun c' => bool_decide (Cart.userId c' = Cart.userId c)) (carts db)
    then Some (Throw (MongoServerError 11000), db)
    else Some (Next tt, set_carts (store Cart._id c (carts db)) db).

(** [CartItem.findOne(query)] *)
Definition CartItem_findOne (q : CartItem.t -> bool) : M (option CartItem.t) :=
  fun db => Some (Next (findOne q (cartitems db)), db).

(** [CartItem.findById(id)] *)
Definition CartItem_findById (id : string) : M (option CartItem.t) :=
  let+ id := as_ObjectId "_id" id in
  fun db => Some (Next (findById CartItem._id id (cartitems db)), db).

(** [CartItem.find()] *)
Definition CartItem_find : M (list CartItem.t) :=
  fun db => Some (Next (cartitems db), db).

(** [CartItem.deleteMany(query)], returning the deleted count. *)
Definition CartItem_deleteMany (q : CartItem.t -> bool) : M nat :=
  fun db =>
    Some (Next (deletedCount q (cartitems db)),
          set_cartitems (deleteMany q (cartitems db)) db).

(** The paths [save()] reports: those whose cast failed, and those that
    fail the schema. *)
Definition invalid_paths (d : loaded) : list string :=
  cast_errors d ++
  List.filter (fun p => negb (bool_decide (p ∈ cast_errors d)))
    (CartItem.invalid_paths (doc d)).

(** [cartItem.save()]: validation, then the write. *)
Definition CartItem_save (d : loaded) : M CartItem.t :=
  fun db =>
    match invalid_paths d with
    | [] => Some (Next (doc d),
                  set_cartitems (store CartItem._id (doc d) (cartitems db)) db)
    | paths => Some (Throw (ValidationError paths), db)
    end.

(** [new CartItem({ cart, item_id, itemName, ordered_quantity })]: the
    quantity is cast as it was sent, the schema defaults fill
    [allotted_quantity] and [status]. *)
Definition new_CartItem (cart : ObjectId) (item_id : string) (itemName : string)
    (ordered_quantity : quantity) : M loaded :=
  let+ id := new_ObjectId in
  let d q :=
    {| CartItem._id := id; CartItem.cart := cart; CartItem.item_id := value item_id;
       CartItem.itemName := itemName; CartItem.ordered_quantity := q;
       CartItem.allotted_quantity := 0; CartItem.status := "Pending";
       CartItem.remarks := None; CartItem.link := None |} in
  match Number_of ordered_quantity with
  | cast_ok q => ret (load (d q))
  | cast_error => ret {| doc := d 0%Z; cast_errors := ["ordered_quantity"] |}
  | cast_untracked => untracked
  end.

(** ** Queries *)

(** [{ cart: cart._id, item_id: item.item_id }]: the [String] path is
    matched by the spelling of the request. *)
Definition by_cart_item_id (c : ObjectId) (i : string) (d : CartItem.t) : bool :=
  bool_decide (CartItem.cart d = c) && bool_decide (CartItem.item_id d = value i).

(** [{ item_id: retardId }] *)
Definition by_item_id (i : string) (d : CartItem.t) : bool :=
  bool_decide (CartItem.item_id d = value i).

(** ** POST /add-items *)

Module AddItems.
Record item : Type := { item_id : string; ordered_quantity : quantity }.
Record t : Type := { userId : string; items : list item }.

(** [body('userId').isMongoId()], [body('items.*.item_id').isMongoId()],
    [body('items.*.ordered_quantity').isInt({ min: 1 })] *)
Definition valid (req : t) : bool :=
  isMongoId (userId req) &&
  forallb (fun it => isMongoId (item_id it) && isInt 1 (ordered_quantity it))
    (items req).

Definition tracked (req : t) : bool :=
  forallb (fun it => Wire.tracked (ordered_quantity it)) (items req).
End AddItems.

(** [existingCartItem.ordered_quantity += item.ordered_quantity] *)
Definition add_ordered_quantity (sent : quantity) (d : CartItem.t) : M loaded :=
  match plus_assign (CartItem.ordered_quantity d) sent with
  | cast_ok q => ret (load (CartItem.with_ordered_quantity q d))
  | cast_error => ret {| doc := d; cast_errors := ["ordered_quantity"] |}
  | cast_untracked => untracked
  end.

(** The body of [for (let item of items)], with the in-memory [cart]
    document threaded through the iterations. *)
Fixpoint add_items_loop (cart : Cart.t) (items : list AddItems.item) : M Cart.t :=
  match items with
  | [] => ret cart
  | item :: rest =>
      let+ inventoryItem := Inventory_findById (AddItems.item_id item) in
      match inventoryItem with
      | None =>
          respond (Res 404 (error_text ("Item with ID " +:+ AddItems.item_id item
                                        +:+ " not found in inventory")))
      | Some inventoryItem =>
          let+ existingCartItem :=
            CartItem_findOne (by_cart_item_id (Cart._id cart) (AddItems.item_id item)) in
          match existingCartItem with
          | Some existingCartItem =>
              let+ existingCartItem :=
                add_ordered_quantity (AddItems.ordered_quantity item) existingCartItem in
              let+ _ := CartItem_save existingCartItem in
              add_items_loop cart rest
          | None =>
              let+ newCartItem :=
                new_CartItem (Cart._id cart) (AddItems.item_id item)
                  (Inventory.itemName inventoryItem)
                  (AddItems.ordered_quantity item) in
              let+ _ := CartItem_save newCartItem in
              add_items_loop
                (Cart.with_cartItems
                   (Cart.cartItems cart ++ [CartItem._id (doc newCartItem)]) cart)
                rest
          end
      end
  end.

Definition add_items (req : AddItems.t) (db : DB) : option (response * DB) :=
  if negb (AddItems.tracked req) then None
  else if negb (AddItems.valid req) then Some (Res 400 errors_array, db)
  else
    try_catch
      (let+ found := Cart_findOne_userId (AddItems.userId req) in
       let+ cart := match found with
                    | Some cart => ret cart
                    | None => new_Cart (AddItems.userId req)
                    end in
       let+ cart := add_items_loop cart (AddItems.items req) in
       let+ _ := Cart_save cart in
       ret (Res 200 (json_cart cart)))
      (fun err => Res 500 (error_message err))
      db.

(** ** PUT /update-cart-item-status/:cartItemId *)

Module UpdateCartItemStatus.
Record t : Type := {
  allotted_quantity : option quantity;
  status : option string;
  remarks : option string
}.

(** [body('allotted_quantity').optional().isInt({ min: 0 })] and the
    status validator. *)
Definition valid (req : t) : bool :=
  match allotted_quantity req with
  | None => true
  | Some q => isInt 0 q
  end && valid_status (status req).

Definition tracked (req : t) : bool :=
  match allotted_quantity req with
  | None => true
  | Some q => Wire.tracked q
  end.
End UpdateCartItemStatus.

(** [if (allotted_quantity !== undefined)
       cartItem.allotted_quantity += allotted_quantity] *)
Definition add_allotted_quantity (sent : option quantity) (d : CartItem.t) : M loaded :=
  match sent with
  | None => ret (load d)
  | Some sent =>
      match plus_assign (CartItem.allotted_quantity d) sent with
      | cast_ok q => ret (load (CartItem.with_allotted_quantity q d))
      | cast_error => ret {| doc := d; cast_errors := ["allotted_quantity"] |}
      | cast_untracked => untracked
      end
  end.

(** The two guarded assignments [if (x !== undefined) cartItem.x = x]. *)
Definition assign_status_remarks (status remarks : option string) (d : loaded) : loaded :=
  let d1 :=
    match status with
    | Some s => CartItem.with_status s (doc d)
    | None => doc d
    end in
  {| doc := match remarks with
            | Some r => CartItem.with_remarks r d1
            | None => d1
            end;
     cast_errors := cast_errors d |}.

Definition update_cart_item_status (cartItemId : string)
    (req : UpdateCartItemStatus.t) (db : DB) : option (response * DB) :=
  if negb (UpdateCartItemStatus.tracked req) then None
  else if negb (isMongoId cartItemId && UpdateCartItemStatus.valid req)
  then Some (Res 400 errors_array, db)
  else
    try_catch
      (let+ cartItem := CartItem_findById cartItemId in
       match cartItem with
       | None => respond (Res 404 (error_text "CartItem not found."))
       | Some cartItem =>
           let+ cartItem :=
             add_allotted_quantity (UpdateCartItemStatus.allotted_quantity req)
               cartItem in
           let+ updatedCartItem :=
             CartItem_save
               (assign_status_remarks (UpdateCartItemStatus.status req)
                  (UpdateCartItemStatus.remarks req) cartItem) in
           ret (Res 200 (json_cartItem updatedCartItem))
       end)
      (fun err => Res 500 (error_message err))
      db.

(** ** GET /cart-item-summary *)

(** [item.item_id ? item.item_id.toString() : item._id.toString()]: the
    key of a line item is the spelling its [item_id] holds, and its own id
    when the path holds [null], nothing, or the empty string. *)
Definition group_key (item : CartItem.t) : string :=
  match CartItem.item_id item with
  | value s => if bool_decide (s = "") then toString (CartItem._id item) else s
  | _ => toString (CartItem._id item)
  end.

Definition new_group (item : CartItem.t) : group :=
  {| group_id := CartItem._id item; totalOrderedQuantity := 0;
     totalAllottedQuantity := 0; group_itemName := CartItem.itemName item;
     group_itemOrderedStatus := ""; group_itemRemark := "" |}.

(** The two [+=] on the totals of a group. *)
Definition add_to_group (item : CartItem.t) (g : group) : option group :=
  match plus_number (totalOrderedQuantity g) (CartItem.ordered_quantity item),
        plus_number (totalAllottedQuantity g) (CartItem.allotted_quantity item) with
  | Some o, Some a =>
      Some {| group_id := group_id g; totalOrderedQuantity := o;
              totalAllottedQuantity := a; group_itemName := group_itemName g;
              group_itemOrderedStatus := group_itemOrderedStatus g;
              group_itemRemark := group_itemRemark g |}
  | _, _ => None
  end.

(** The callback of [cartItems.reduce((acc, item) => ..., {})]. *)
Definition group_step (acc : option (gmap string group)) (item : CartItem.t)
    : option (gmap string group) :=
  match acc with
  | None => None
  | Some acc =>
      let key := group_key item in
      let g := default (new_group item) (acc !! key) in
      match add_to_group item g with
      | Some g => Some (<[key := g]> acc)
      | None => None
      end
  end.

Definition cartItemsById (cartItems : list CartItem.t) : option (gmap string group) :=
  foldl group_step (Some ∅) cartItems.

(** The callback of [inventories.map(inventory => ...)]: the group is
    looked up under [inventory._id.toString()]. *)
Definition summary_of (acc : gmap string group) (inventory : Inventory.t) : summary_row :=
  let cartData :=
    match acc !! toString (Inventory._id inventory) with
    | Some g => (totalOrderedQuantity g, totalAllottedQuantity g)
    | None => (0%Z, 0%Z)
    end in
  {| row_id := Inventory._id inventory;
     row_itemName := Inventory.itemName inventory;
     availableQuantity := Inventory.itemQuantity inventory;
     row_totalOrderedQuantity := fst cartData;
     row_totalAllottedQuantity := snd cartData;
     row_itemOrderedStatus := Inventory.itemOrderedStatus inventory;
     row_itemRemark := default "" (Inventory.itemRemark inventory) |}.

Definition cart_item_summary (db : DB) : option (response * DB) :=
  try_catch
    (let+ inventories := Inventory_find in
     let+ cartItems := CartItem_find in
     match cartItemsById cartItems with
     | Some acc => ret (Res 200 (json_summary (List.map (summary_of acc) inventories)))
     | None => untracked
     end)
    (fun err => Res 500 (error_message err))
    db.

(** ** DELETE /inventory/:id *)

(** The two deletions of [Promise.all([...])]: [findByIdAndDelete(id)] casts
    the parameter, [deleteMany({ item_id: retardId })] compares the [String]
    path with the parameter as it was spelled. *)
Definition delete_inventory (id : string) (db : DB) : option (response * DB) :=
  if negb (isMongoId id) then Some (Res 400 errors_array, db)
  else
    let retardId := id in
    try_catch
      (let+ deletedItem := Inventory_findByIdAndDelete id in
       let+ deletecartitem := CartItem_deleteMany (by_item_id retardId) in
       match deletedItem with
       | None => respond (Res 404 (message_text "Item not found"))
       | Some deletedItem =>
           ret (Res 200 (message_deleted "Item deleted successfully"
                           deletedItem deletecartitem))
       end)
      (fun err => Res 500 (error_text "Internal Server Error"))
      db.

(** ** Requests and stores used in the statements *)

(** A catalog of glue under the id whose last hex digit is the letter a,
    and nothing else in the store. *)
Definition glue_a : Inventory.t :=
  {| Inventory._id := 10; Inventory.itemQuantity := 10;
     Inventory.itemStatus := "enabled"; Inventory.itemName := "Glue";
     Inventory.itemOrderedStatus := "Available"; Inventory.itemRemark := None |}.

Definition glue_db : DB :=
  {| inventories := [glue_a]; carts := []; cartitems := []; next_id := 11 |}.

(** The id of the glue as [toString()] spells it, and in upper case. *)
Definition glue_id : string := "00000000000000000000000a".
Definition GLUE_ID : string := "00000000000000000000000A".

(** The requester with id 7. *)
Definition requester : string := "000000000000000000000007".

(** An /add-items request with a single item. *)
Definition single_add (u i : string) (q : quantity) : AddItems.t :=
  {| AddItems.userId := u;
     AddItems.items := [{| AddItems.item_id := i; AddItems.ordered_quantity := q |}] |}.

(** The line item [new CartItem(...)] builds in /add-items. *)
Definition catalog_line (n c : ObjectId) (i name : string) (q : Z) : CartItem.t :=
  {| CartItem._id := n; CartItem.cart := c; CartItem.item_id := value i;
     CartItem.itemName := name; CartItem.ordered_quantity := q;
     CartItem.allotted_quantity := 0; CartItem.status := "Pending";
     CartItem.remarks := None; CartItem.link := None |}.

(** The store after the requester asked for three units of glue. *)
Definition pending_db : DB :=
  {| inventories := [glue_a];
     carts := [{| Cart._id := 11; Cart.userId := 7; Cart.cartItems := [12] |}];
     cartitems := [catalog_line 12 11 glue_id "Glue" 3];
     next_id := 13 |}.

(** The store after a second request for glue, four units of it, named
    the glue in upper case. *)
Definition spelled_db : DB :=
  {| inventories := [glue_a];
     carts := [{| Cart._id := 11; Cart.userId := 7; Cart.cartItems := [12; 13] |}];
     cartitems := [catalog_line 12 11 glue_id "Glue" 3;
                   catalog_line 13 11 GLUE_ID "Glue" 4];
     next_id := 14 |}.

(** The catalog item a line item names: what its [item_id] casts to. *)
Definition names (d : CartItem.t) : option ObjectId :=
  match CartItem.item_id d with
  | value s => ObjectId_of s
  | _ => None
  end.

(** [pending_db] after three units of the glue were allotted. *)
Definition allotted_db : DB :=
  set_cartitems
    [CartItem.with_allotted_quantity 3 (catalog_line 12 11 glue_id "Glue" 3)]
    pending_db.

(** An /update-cart-item-status body. *)
Definition status_update (a : option quantity) (s r : option string)
    : UpdateCartItemStatus.t :=
  {| UpdateCartItemStatus.allotted_quantity := a;
     UpdateCartItemStatus.status := s; UpdateCartItemStatus.remarks := r |}.

(** What a line item is to its requester: the paths no update route
    writes. *)
Definition as_requested (d : CartItem.t) : ObjectId * ObjectId * field string
                                           * string * Z * option string :=
  (CartItem._id d, CartItem.cart d, CartItem.item_id d, CartItem.itemName d,
   CartItem.ordered_quantity d, CartItem.link d).

End Wire.
(** * Properties *)

(** ** Collections *)

Section CollectionFacts.
Context {D : Type} (id_of : D -> ObjectId).
Implicit Types (c : list D) (q : D -> bool).

Lemma findOne_app q c c' :
  findOne q (c ++ c') =
  match findOne q c with Some d => Some d | None => findOne q c' end.
Proof.
  induction c as [|d c IH]; simpl; [done|].
  unfold findOne in *; simpl. by destruct (q d).
Qed.

Lemma findOne_None_filter q c : findOne q c = None ↔ List.filter q c = [].
Proof.
  unfold findOne. induction c as [|d c IH]; simpl; [done|].
  destruct (q d); [split; discriminate | exact IH].
Qed.

Lemma findOne_Some q c d : findOne q c = Some d → d ∈ c ∧ q d = true.
Proof.
  unfold findOne. intros H. apply find_some in H as [Hin Hq].
  split; [by apply list_elem_of_In | done].
Qed.

Lemma existsb_has_id_below n c :
  Forall (fun d => id_of d < n) c → existsb (has_id id_of n) c = false.
Proof.
  induction 1 as [|d c Hd _ IH]; simpl; [done|].
  rewrite IH, orb_false_r. unfold has_id. apply bool_decide_eq_false. lia.
Qed.

Lemma map_has_id_below (f : D -> D) n c :
  Forall (fun d => id_of d < n) c →
  List.map (fun d' => if has_id id_of n d' then f d' else d') c = c.
Proof.
  induction 1 as [|d c Hd _ IH]; simpl; [done|].
  rewrite IH. unfold has_id. rewrite bool_decide_eq_false_2 by lia. done.
Qed.

Lemma store_new d c :
  existsb (has_id id_of (id_of d)) c = false → store id_of d c = c ++ [d].
Proof. unfold store. by intros ->. Qed.

Lemma store_last d d' c :
  Forall (fun x => id_of x < id_of d) c → id_of d' = id_of d →
  store id_of d' (c ++ [d]) = c ++ [d'].
Proof.
  intros Hc Hid. unfold store. rewrite Hid.
  assert (Hd : has_id id_of (id_of d) d = true)
    by (unfold has_id; by apply bool_decide_eq_true_2).
  rewrite existsb_app. simpl. rewrite Hd, orb_true_l, orb_true_r.
  rewrite map_app. simpl. rewrite Hd.
  f_equal. by apply (map_has_id_below (fun _ => d')).
Qed.

Lemma findById_Some i c d : findById id_of i c = Some d → d ∈ c ∧ id_of d = i.
Proof.
  intros [Hin Hd]%findOne_Some. split; [done|].
  by apply bool_decide_eq_true_1 in Hd.
Qed.

Lemma existsb_has_id_found i c d :
  findById id_of i c = Some d → existsb (has_id id_of i) c = true.
Proof.
  intros [Hin Hd]%findOne_Some. apply existsb_exists. exists d.
  split; [by apply list_elem_of_In | done].
Qed.

Lemma findById_replace_same (f : D -> D) i c :
  (∀ d, id_of (f d) = id_of d) →
  findById id_of i (List.map (fun d => if has_id id_of i d then f d else d) c)
  = f <$> findById id_of i c.
Proof.
  intros Hf. unfold findById, findOne.
  induction c as [|d c IH]; simpl; [done|].
  destruct (has_id id_of i d) eqn:Hd.
  - unfold has_id in *. rewrite Hf, Hd. done.
  - rewrite Hd. exact IH.
Qed.

Lemma findById_replace_other (f : D -> D) i j c :
  (∀ d, id_of (f d) = id_of d) → i ≠ j →
  findById id_of i (List.map (fun d => if has_id id_of j d then f d else d) c)
  = findById id_of i c.
Proof.
  intros Hf Hij. unfold findById, findOne.
  induction c as [|d c IH]; simpl; [done|].
  destruct (has_id id_of j d) eqn:Hd.
  - unfold has_id in *. rewrite Hf. apply bool_decide_eq_true_1 in Hd.
    rewrite !bool_decide_eq_false_2 by congruence. exact IH.
  - destruct (has_id id_of i d); [done | exact IH].
Qed.

Lemma findById_existsb i c :
  findById id_of i c = None ↔ existsb (has_id id_of i) c = false.
Proof.
  unfold findById, findOne. induction c as [|d c IH]; simpl; [done|].
  destruct (has_id id_of i d); simpl; [split; discriminate | exact IH].
Qed.

Lemma findById_replace_const i d c :
  findById id_of i (List.map (fun x => if has_id id_of (id_of d) x then d else x) c)
  = if bool_decide (i = id_of d)
    then (if existsb (has_id id_of (id_of d)) c then Some d else None)
    else findById id_of i c.
Proof.
  case_bool_decide as Hi.
  - subst i. unfold findById, findOne.
    induction c as [|x c IH]; simpl; [done|].
    destruct (has_id id_of (id_of d) x) eqn:Hx; simpl.
    + unfold has_id. by rewrite bool_decide_eq_true_2.
    + rewrite Hx. exact IH.
  - unfold findById, findOne.
    induction c as [|x c IH]; simpl; [done|].
    destruct (has_id id_of (id_of d) x) eqn:Hx.
    + apply bool_decide_eq_true_1 in Hx. unfold has_id.
      rewrite !bool_decide_eq_false_2 by congruence. exact IH.
    + destruct (has_id id_of i x); [done | exact IH].
Qed.

(** After [d.save()], a lookup of [d]'s id gives [d] and every other lookup
    is as before. *)
Lemma findById_store i d c :
  findById id_of i (store id_of d c)
  = if bool_decide (i = id_of d) then Some d else findById id_of i c.
Proof.
  unfold store. destruct (existsb _ c) eqn:He.
  - by rewrite findById_replace_const, He.
  - unfold findById. rewrite findOne_app. fold (findById id_of i c).
    case_bool_decide as Hi.
    + subst i. apply findById_existsb in He. rewrite He.
      unfold findOne, has_id. simpl. by rewrite bool_decide_eq_true_2.
    + destruct (findById id_of i c); [done|].
      unfold findOne, has_id. simpl. by rewrite bool_decide_eq_false_2.
Qed.

End CollectionFacts.

(** ** Adding catalog items *)

Lemma findOne_replaced (q : Cart.t -> bool) (c c' : Cart.t) (l : list Cart.t) :
  findOne q l = Some c → q c' = true →
  findOne q (List.map (fun x => if has_id Cart._id (Cart._id c) x then c' else x) l) = Some c'.
Proof.
  unfold findOne. intros Hf Hq. induction l as [|x l IH]; simpl in *; [done|].
  destruct (q x) eqn:Hx.
  - injection Hf as ->. unfold has_id. rewrite bool_decide_eq_true_2 by done. by rewrite Hq.
  - destruct (has_id Cart._id (Cart._id c) x); [by rewrite Hq | rewrite Hx; auto].
Qed.

Lemma catalog_line_valid n c i name q :
  name ≠ "" → (1 ≤ q)%Z → CartItem.invalid_paths (catalog_line n c i name q) = [].
Proof.
  intros Hn Hq. unfold CartItem.invalid_paths. simpl.
  rewrite bool_decide_eq_false_2 by done.
  rewrite bool_decide_eq_false_2 by lia. done.
Qed.

Lemma Cart_save_found db u c c' :
  findOne (by_userId u) (carts db) = Some c →
  Cart._id c' = Cart._id c → Cart.userId c' = u →
  ∃ l, Cart_save c' db = (Next tt, set_carts l db) ∧ findOne (by_userId u) l = Some c'.
Proof.
  intros Hc Hid Hu.
  assert (He : existsb (has_id Cart._id (Cart._id c')) (carts db) = true).
  { apply existsb_exists. exists c. apply findOne_Some in Hc as [Hin _].
    split; [by apply list_elem_of_In|]. unfold has_id. by apply bool_decide_eq_true_2. }
  exists (store Cart._id c' (carts db)). unfold Cart_save. rewrite He. split; [done|].
  unfold store. rewrite He, Hid. apply findOne_replaced; [done|].
  unfold by_userId. by apply bool_decide_eq_true_2.
Qed.

Lemma Cart_save_created db u c' :
  findOne (by_userId u) (carts db) = None →
  Forall (fun c => Cart._id c < Cart._id c') (carts db) → Cart.userId c' = u →
  Cart_save c' db = (Next tt, set_carts (carts db ++ [c']) db)
  ∧ findOne (by_userId u) (carts db ++ [c']) = Some c'.
Proof.
  intros Hc Hlt Hu.
  assert (He : existsb (has_id Cart._id (Cart._id c')) (carts db) = false)
    by by apply existsb_has_id_below.
  assert (Hq : by_userId u c' = true)
    by (unfold by_userId; by apply bool_decide_eq_true_2).
  unfold Cart_save. rewrite He. split.
  - rewrite store_new by done.
    replace (existsb _ (carts db)) with false; [done|].
    symmetry. apply not_true_is_false. intros [x [Hin Hx]]%existsb_exists.
    apply findOne_None_filter in Hc.
    assert (Hf : In x (List.filter (by_userId u) (carts db))).
    { apply filter_In. split; [done|]. unfold by_userId. rewrite <- Hu.
      apply bool_decide_eq_true_2. by apply bool_decide_eq_true_1 in Hx. }
    rewrite Hc in Hf. destruct Hf.
  - rewrite findOne_app, Hc. unfold findOne. simpl. by rewrite Hq.
Qed.

(** One iteration of the loop for a catalog item the cart does not hold:
    a line item is created and pushed onto the cart. *)
Lemma add_items_loop_create db cart i q inv rest :
  findById Inventory._id i (inventories db) = Some inv →
  findOne (by_cart_item_id (Cart._id cart) i) (cartitems db) = None →
  Forall (fun d => CartItem._id d < next_id db) (cartitems db) →
  Inventory.itemName inv ≠ "" → (1 ≤ q)%Z →
  add_items_loop cart
    ({| AddItems.item_id := i; AddItems.ordered_quantity := q |} :: rest) db
  = add_items_loop
      (Cart.with_cartItems (Cart.cartItems cart ++ [next_id db]) cart) rest
      (set_cartitems
         (cartitems db ++
            [catalog_line (next_id db) (Cart._id cart) i (Inventory.itemName inv) q])
         (set_next_id (S (next_id db)) db)).
Proof.
  intros Hinv Hnone Hlt Hname Hq. cbn [add_items_loop AddItems.item_id
    AddItems.ordered_quantity].
  unfold bind at 1, Inventory_findById. rewrite Hinv.
  unfold bind at 1, CartItem_findOne. rewrite Hnone.
  unfold bind at 1, new_CartItem, bind at 1, new_ObjectId, ret at 1.
  unfold bind at 1, CartItem_save.
  change (CartItem.invalid_paths _)
    with (CartItem.invalid_paths
            (catalog_line (next_id db) (Cart._id cart) i (Inventory.itemName inv) q)).
  rewrite catalog_line_valid by done.
  cbn [cartitems set_next_id CartItem._id].
  rewrite store_new; [done|]. by apply existsb_has_id_below.
Qed.

(** One iteration of the loop for a catalog item the cart holds: the
    quantity is added to the line item found. *)
Lemma add_items_loop_merge db cart i q inv e rest :
  findById Inventory._id i (inventories db) = Some inv →
  findOne (by_cart_item_id (Cart._id cart) i) (cartitems db) = Some e →
  CartItem.invalid_paths
    (CartItem.with_ordered_quantity (CartItem.ordered_quantity e + q) e) = [] →
  add_items_loop cart
    ({| AddItems.item_id := i; AddItems.ordered_quantity := q |} :: rest) db
  = add_items_loop cart rest
      (set_cartitems
         (store CartItem._id
            (CartItem.with_ordered_quantity (CartItem.ordered_quantity e + q) e)
            (cartitems db)) db).
Proof.
  intros Hinv He Hv. cbn [add_items_loop AddItems.item_id AddItems.ordered_quantity].
  unfold bind at 1, Inventory_findById. rewrite Hinv.
  unfold bind at 1, CartItem_findOne. rewrite He.
  unfold bind at 1, CartItem_save. by rewrite Hv.
Qed.

(** The first add of a catalog item the requester's cart does not hold yet. *)
Lemma add_items_first db u i q inv :
  fresh_ids db →
  findById Inventory._id i (inventories db) = Some inv →
  Inventory.itemName inv ≠ "" → (1 ≤ q)%Z →
  (∀ c, findOne (by_userId u) (carts db) = Some c →
        List.filter (by_cart_item_id (Cart._id c) i) (cartitems db) = []) →
  ∃ cart n db1,
    add_items (single_add u i q) db = (Res 200 (json_cart cart), db1) ∧
    inventories db1 = inventories db ∧
    findOne (by_userId u) (carts db1) = Some cart ∧
    n ∈ Cart.cartItems cart ∧
    cartitems db1 =
      cartitems db ++ [catalog_line n (Cart._id cart) i (Inventory.itemName inv) q] ∧
    Forall (fun d => CartItem._id d < n) (cartitems db) ∧
    List.filter (by_cart_item_id (Cart._id cart) i) (cartitems db) = [].
Proof.
  intros [Hcarts Hitems] Hinv Hname Hq Hnone.
  assert (Hids : Forall (fun d => CartItem._id d < next_id db) (cartitems db))
    by (eapply Forall_impl; [exact Hitems | by intros ? []]).
  assert (Hv : AddItems.valid (single_add u i q) = true).
  { unfold AddItems.valid. simpl. by rewrite bool_decide_eq_true_2. }
  unfold add_items. rewrite Hv. unfold single_add.
  cbn [negb AddItems.userId AddItems.items].
  unfold try_catch. unfold bind at 1 2 3. unfold Cart_findOne.
  destruct (findOne (by_userId u) (carts db)) as [c|] eqn:Hc.
  - specialize (Hnone c eq_refl).
    unfold ret at 1.
    rewrite (add_items_loop_create db c i q inv)
      by (try done; by apply findOne_None_filter).
    cbn [add_items_loop]. unfold ret at 1.
    set (cart := Cart.with_cartItems _ c).
    set (db' := set_cartitems _ _).
    destruct (Cart_save_found db' u c cart) as (l & Hsave & Hfind); [done..| |].
    { apply findOne_Some in Hc as [_ Hu]. by apply bool_decide_eq_true_1 in Hu. }
    unfold bind. rewrite Hsave. unfold ret.
    exists cart, (next_id db), (set_carts l db').
    repeat split; try done.
    subst cart. simpl. apply elem_of_app. right. by apply list_elem_of_singleton.
  - unfold new_Cart, bind at 1, new_ObjectId, ret at 1.
    set (c := {| Cart._id := next_id db; Cart.userId := u; Cart.cartItems := [] |}).
    set (db0 := set_next_id (S (next_id db)) db).
    assert (Hn0 : findOne (by_cart_item_id (Cart._id c) i) (cartitems db0) = None).
    { apply findOne_None_filter. simpl.
      clear -Hitems. induction Hitems as [|d l [_ Hd] _ IH]; simpl; [done|].
      unfold by_cart_item_id at 1. rewrite bool_decide_eq_false_2 by lia. done. }
    rewrite (add_items_loop_create db0 c i q inv); try done.
    2:{ simpl. eapply Forall_impl; [exact Hids | simpl; lia]. }
    cbn [add_items_loop]. unfold ret at 1.
    set (cart := Cart.with_cartItems _ c).
    set (db' := set_cartitems _ _).
    destruct (Cart_save_created db' u cart) as (Hsave & Hfind); [done..|].
    unfold bind. rewrite Hsave. unfold ret.
    exists cart, (S (next_id db)), (set_carts (carts db' ++ [cart]) db').
    repeat split; try done.
    + subst cart. simpl. by apply list_elem_of_singleton.
    + simpl. eapply Forall_impl; [exact Hids | simpl; lia].
    + apply findOne_None_filter. exact Hn0.
Qed.

Lemma invalid_paths_nil d :
  CartItem.invalid_paths d = [] ↔
  CartItem.itemName d ≠ "" ∧ (1 ≤ CartItem.ordered_quantity d)%Z
  ∧ CartItem.status d ∈ CartItem.status_enum.
Proof.
  unfold CartItem.invalid_paths.
  repeat case_bool_decide; simpl; split; try done; try (intros (? & ? & ?); done || lia).
  intros _. repeat split; [done | lia | done].
Qed.

Lemma with_ordered_quantity_valid d q :
  CartItem.invalid_paths d = [] → (1 ≤ q)%Z →
  CartItem.invalid_paths
    (CartItem.with_ordered_quantity (CartItem.ordered_quantity d + q) d) = [].
Proof.
  rewrite !invalid_paths_nil. simpl. intros (? & ? & ?) ?. repeat split; [done | lia | done].
Qed.

(** A further add of a catalog item whose line item is the newest of the
    store. *)
Lemma add_items_again db u i q inv cart old e :
  findById Inventory._id i (inventories db) = Some inv →
  findOne (by_userId u) (carts db) = Some cart →
  cartitems db = old ++ [e] →
  List.filter (by_cart_item_id (Cart._id cart) i) old = [] →
  by_cart_item_id (Cart._id cart) i e = true →
  Forall (fun d => CartItem._id d < CartItem._id e) old →
  CartItem.invalid_paths e = [] → (1 ≤ q)%Z →
  ∃ db2,
    add_items (single_add u i q) db = (Res 200 (json_cart cart), db2) ∧
    findOne (by_userId u) (carts db2) = Some cart ∧
    cartitems db2 =
      old ++ [CartItem.with_ordered_quantity (CartItem.ordered_quantity e + q) e].
Proof.
  intros Hinv Hc Hitems Hold He Hlt Hvalid Hq.
  assert (Hv : AddItems.valid (single_add u i q) = true).
  { unfold AddItems.valid. simpl. by rewrite bool_decide_eq_true_2. }
  unfold add_items. rewrite Hv. unfold single_add.
  cbn [negb AddItems.userId AddItems.items].
  unfold try_catch. unfold bind at 1 2 3. unfold Cart_findOne. rewrite Hc.
  unfold ret at 1.
  rewrite (add_items_loop_merge db cart i q inv e); try done.
  2:{ rewrite Hitems, findOne_app.
      apply findOne_None_filter in Hold. rewrite Hold.
      unfold findOne. simpl. by rewrite He. }
  2:{ by apply with_ordered_quantity_valid. }
  cbn [add_items_loop]. unfold ret at 1.
  rewrite Hitems, store_last by done.
  set (db' := set_cartitems _ _).
  destruct (Cart_save_found db' u cart cart) as (l & Hsave & Hfind); [done..| |].
  { apply findOne_Some in Hc as [_ Hu]. by apply bool_decide_eq_true_1 in Hu. }
  unfold bind. rewrite Hsave. unfold ret.
  by exists (set_carts l db').
Qed.

(** The same catalog item twice in one request: the second iteration finds
    the line item the first one created. *)
Lemma add_items_loop_same_request db cart i q1 q2 inv :
  findById Inventory._id i (inventories db) = Some inv →
  findOne (by_cart_item_id (Cart._id cart) i) (cartitems db) = None →
  Forall (fun d => CartItem._id d < next_id db) (cartitems db) →
  Inventory.itemName inv ≠ "" → (1 ≤ q1)%Z → (1 ≤ q2)%Z →
  add_items_loop cart
    [{| AddItems.item_id := i; AddItems.ordered_quantity := q1 |};
     {| AddItems.item_id := i; AddItems.ordered_quantity := q2 |}] db
  = (Next (Cart.with_cartItems (Cart.cartItems cart ++ [next_id db]) cart),
     set_cartitems
       (cartitems db ++
          [catalog_line (next_id db) (Cart._id cart) i (Inventory.itemName inv)
             (q1 + q2)])
       (set_next_id (S (next_id db)) db)).
Proof.
  intros Hinv Hnone Hlt Hname Hq1 Hq2.
  rewrite (add_items_loop_create db cart i q1 inv) by done.
  set (e := catalog_line (next_id db) (Cart._id cart) i (Inventory.itemName inv) q1).
  rewrite (add_items_loop_merge _ _ i q2 inv e).
  - cbn [add_items_loop cartitems set_cartitems]. unfold ret.
    by rewrite store_last.
  - done.
  - cbn [cartitems set_cartitems Cart._id Cart.with_cartItems].
    rewrite findOne_app, Hnone.
    unfold findOne, by_cart_item_id. simpl. by rewrite !bool_decide_eq_true_2.
  - apply with_ordered_quantity_valid; [by apply catalog_line_valid | done].
Qed.

(** When both requests name the catalog item by the spelling of
    [toString()] and carry their quantities as JSON numbers: adding the
    same catalog item twice (quantities q1, then q2) to a requester's cart
    that did not hold it leaves exactly one line item of that cart
    referencing the catalog item, with requested quantity q1 + q2: the
    first add creates the line item, the second one updates it in place
    and the store gains no document.  A quantity sent as a string, or an
    id in another letter case, is followed with the routes on requests as
    they are sent. *)
Theorem add_items_twice_merges db u i q1 q2 inv :
  fresh_ids db →
  findById Inventory._id i (inventories db) = Some inv →
  Inventory.itemName inv ≠ "" →
  (1 ≤ q1)%Z → (1 ≤ q2)%Z →
  (∀ c, findOne (by_userId u) (carts db) = Some c →
        List.filter (by_cart_item_id (Cart._id c) i) (cartitems db) = []) →
  let step1 := add_items (single_add u i q1) db in
  let step2 := add_items (single_add u i q2) (snd step1) in
  status_code (fst step1) = 200%Z ∧ status_code (fst step2) = 200%Z ∧
  ∃ cart d,
    findOne (by_userId u) (carts (snd step2)) = Some cart ∧
    CartItem._id d ∈ Cart.cartItems cart ∧
    List.filter (by_cart_item_id (Cart._id cart) i) (cartitems (snd step1))
      = [CartItem.with_ordered_quantity q1 d] ∧
    List.filter (by_cart_item_id (Cart._id cart) i) (cartitems (snd step2)) = [d] ∧
    CartItem.ordered_quantity d = (q1 + q2)%Z ∧
    length (cartitems (snd step2)) = length (cartitems (snd step1)).
Proof.
  intros Hfresh Hinv Hname Hq1 Hq2 Hnone.
  destruct (add_items_first db u i q1 inv) as
    (cart & n & db1 & Hs1 & Hinv1 & Hcart1 & Hn & Hitems1 & Hlt & Hold); try done.
  set (e := catalog_line n (Cart._id cart) i (Inventory.itemName inv) q1) in *.
  assert (He : by_cart_item_id (Cart._id cart) i e = true).
  { unfold by_cart_item_id. simpl. by rewrite !bool_decide_eq_true_2. }
  destruct (add_items_again db1 u i q2 inv cart (cartitems db) e) as
    (db2 & Hs2 & Hcart2 & Hitems2); try done.
  { by rewrite Hinv1. }
  { by apply catalog_line_valid. }
  intros step1 step2. subst step1 step2. rewrite Hs1. simpl. rewrite Hs2. simpl.
  split; [done|]. split; [done|].
  exists cart, (CartItem.with_ordered_quantity (q1 + q2) e).
  split; [done|]. split; [done|].
  rewrite Hitems1, Hitems2, !length_app, !List.filter_app, Hold. simpl. rewrite He.
  change (by_cart_item_id _ _ (CartItem.with_ordered_quantity _ e))
    with (by_cart_item_id (Cart._id cart) i e).
  rewrite He. done.
Qed.

(** The theorem at work on [glue_db]. *)
Lemma add_items_twice_merges_witness :
  let step1 := add_items (single_add 7 0 3) glue_db in
  let step2 := add_items (single_add 7 0 4) (snd step1) in
  status_code (fst step1) = 200%Z ∧ status_code (fst step2) = 200%Z ∧
  ∃ cart d,
    findOne (by_userId 7) (carts (snd step2)) = Some cart ∧
    CartItem._id d ∈ Cart.cartItems cart ∧
    List.filter (by_cart_item_id (Cart._id cart) 0) (cartitems (snd step1))
      = [CartItem.with_ordered_quantity 3 d] ∧
    List.filter (by_cart_item_id (Cart._id cart) 0) (cartitems (snd step2)) = [d] ∧
    CartItem.ordered_quantity d = (3 + 4)%Z ∧
    length (cartitems (snd step2)) = length (cartitems (snd step1)).
Proof.
  apply (add_items_twice_merges glue_db 7 0 3 4 glue).
  - split; constructor.
  - reflexivity.
  - discriminate.
  - lia.
  - lia.
  - intros c Hc. discriminate Hc.
Defined.

(** ** Adding custom items *)

(** The query of /add-custom-item asks for documents without an [item_id]
    path, and every custom line item is written with [item_id: null]:
    the query matches none of them. *)
Lemma by_cart_name_custom_stored c name d :
  CartItem.item_id d ≠ undefined → by_cart_name_custom c name d = false.
Proof.
  intros Hd. unfold by_cart_name_custom.
  rewrite (bool_decide_eq_false_2 (CartItem.item_id d = undefined)) by done.
  apply andb_false_r.
Qed.

Lemma custom_line_valid n c name q l :
  name ≠ "" → (1 ≤ q)%Z → CartItem.invalid_paths (custom_line n c name q l) = [].
Proof.
  intros Hn Hq. apply invalid_paths_nil. simpl.
  repeat split; [done | done | ]. unfold CartItem.status_enum. set_solver.
Qed.

(** Whatever the cart holds, a valid /add-custom-item creates a line item:
    it never merges into an existing one. *)
Lemma add_custom_item_always_creates db req :
  fresh_ids db →
  Forall (fun d => CartItem.item_id d ≠ undefined) (cartitems db) →
  AddCustomItem.itemName req ≠ "" → (1 ≤ AddCustomItem.ordered_quantity req)%Z →
  ∃ cart n db1,
    add_custom_item req db = (Res 200 (json_cart cart), db1) ∧
    cartitems db1 =
      cartitems db ++
        [custom_line n (Cart._id cart) (AddCustomItem.itemName req)
           (AddCustomItem.ordered_quantity req) (AddCustomItem.link req)].
Proof.
  intros [Hcarts Hitems] Hdef Hname Hq.
  assert (Hids : Forall (fun d => CartItem._id d < next_id db) (cartitems db))
    by (eapply Forall_impl; [exact Hitems | by intros ? []]).
  assert (Hnone : ∀ c, findOne (by_cart_name_custom c (AddCustomItem.itemName req))
                         (cartitems db) = None).
  { intros c. apply findOne_None_filter.
    clear -Hdef. induction Hdef as [|d l Hd _ IH]; simpl; [done|].
    by rewrite by_cart_name_custom_stored. }
  unfold add_custom_item, AddCustomItem.valid.
  rewrite bool_decide_eq_true_2 by done. cbn [negb].
  unfold try_catch. unfold bind at 1 2 3 4. unfold Cart_findOne.
  destruct (findOne (by_userId _) (carts db)) as [c|] eqn:Hc.
  - unfold ret at 1. unfold CartItem_findOne. rewrite Hnone.
    unfold bind at 1 2 3, new_CartItem, bind at 1, new_ObjectId, ret at 1.
    unfold CartItem_save.
    change (CartItem.invalid_paths _) with
      (CartItem.invalid_paths
         (custom_line (next_id db) (Cart._id c) (AddCustomItem.itemName req)
            (AddCustomItem.ordered_quantity req) (AddCustomItem.link req))).
    rewrite custom_line_valid by done.
    cbn [cartitems set_next_id]. rewrite store_new by by apply existsb_has_id_below.
    unfold ret at 1. set (cart := Cart.with_cartItems _ c). set (db' := set_cartitems _ _).
    destruct (Cart_save_found db' (AddCustomItem.userId req) c cart)
      as (l & Hsave & Hfind); [done..| |].
    { apply findOne_Some in Hc as [_ Hu]. by apply bool_decide_eq_true_1 in Hu. }
    unfold bind. rewrite Hsave. unfold ret.
    by exists cart, (next_id db), (set_carts l db').
  - unfold new_Cart, bind at 1 2, new_ObjectId, ret at 1. unfold CartItem_findOne.
    cbn [cartitems set_next_id]. rewrite Hnone.
    unfold bind at 1 2 3, new_CartItem, bind at 1, new_ObjectId, ret at 1.
    unfold CartItem_save.
    set (c := {| Cart._id := next_id db; Cart.cartItems := [] |}).
    change (CartItem.invalid_paths _) with
      (CartItem.invalid_paths
         (custom_line (S (next_id db)) (Cart._id c) (AddCustomItem.itemName req)
            (AddCustomItem.ordered_quantity req) (AddCustomItem.link req))).
    rewrite custom_line_valid by done.
    cbn [cartitems set_next_id next_id].
    rewrite store_new.
    2:{ apply existsb_has_id_below. eapply Forall_impl; [exact Hids | simpl; lia]. }
    unfold ret at 1. set (cart := Cart.with_cartItems _ c). set (db' := set_cartitems _ _).
    destruct (Cart_save_created db' (AddCustomItem.userId req) cart)
      as (Hsave & Hfind); [done..|].
    unfold bind. rewrite Hsave. unfold ret.
    by exists cart, (S (next_id db)), (set_carts (carts db' ++ [cart]) db').
Qed.

(** C2. Adding the custom item "Tape" twice for the same requester
    (quantity 2 without a link, then quantity 3 with a link) succeeds both
    times and leaves two line items named "Tape" in the cart, with
    quantities 2 and 3: the second add is not merged into the first, whose
    quantity and link stay as they were. *)
Theorem add_custom_item_twice_duplicates :
  let step1 := add_custom_item (custom_add 7 "Tape" 2 None) empty_db in
  let step2 :=
    add_custom_item (custom_add 7 "Tape" 3 (Some "https://shop/tape")) (snd step1) in
  status_code (fst step1) = 200%Z ∧ status_code (fst step2) = 200%Z ∧
  cartitems (snd step2) =
    [custom_line 1 0 "Tape" 2 None;
     custom_line 2 0 "Tape" 3 (Some "https://shop/tape")] ∧
  carts (snd step2) = [{| Cart._id := 0; Cart.userId := 7; Cart.cartItems := [1; 2] |}].
Proof. vm_compute. done. Qed.

(** ** Updating the status of line items *)

Lemma accepted_status_not_in_enum s :
  s ∈ accepted_status → s ∉ CartItem.status_enum.
Proof.
  unfold accepted_status, CartItem.status_enum. intros Hs He.
  repeat (apply elem_of_cons in Hs as [-> | Hs];
          [ repeat (apply elem_of_cons in He as [He | He]; [discriminate He|]);
            by apply elem_of_nil in He | ]).
  by apply elem_of_nil in Hs.
Qed.

Lemma assign_updates_id a s r d :
  CartItem._id (assign_updates a s r d) = CartItem._id d.
Proof. by destruct a, s, r. Qed.

Lemma assign_updates_status a s r d :
  CartItem.status (assign_updates a s r d) = default (CartItem.status d) s.
Proof. by destruct a, s, r. Qed.

(** An assignment of an accepted status never passes the schema. *)
Lemma assign_accepted_status_invalid a s r d :
  s ∈ accepted_status →
  In "status" (CartItem.invalid_paths (assign_updates a (Some s) r d)).
Proof.
  intros Hs%accepted_status_not_in_enum. unfold CartItem.invalid_paths.
  rewrite assign_updates_status. simpl.
  rewrite (bool_decide_eq_false_2 (s ∈ CartItem.status_enum)) by done.
  apply in_or_app. right. apply in_or_app. right. by left.
Qed.

Lemma CartItem_save_invalid d db path :
  In path (CartItem.invalid_paths d) →
  CartItem_save d db = (Throw (ValidationError (CartItem.invalid_paths d)), db).
Proof. unfold CartItem_save. by destruct (CartItem.invalid_paths d). Qed.

Lemma CartItem_save_cases d db :
  (CartItem_save d db = (Throw (ValidationError (CartItem.invalid_paths d)), db)
   ∧ CartItem.invalid_paths d ≠ [])
  ∨ (CartItem_save d db
       = (Next d, set_cartitems (store CartItem._id d (cartitems db)) db)
     ∧ CartItem.invalid_paths d = []).
Proof. unfold CartItem_save. destruct (CartItem.invalid_paths d); [by right | by left]. Qed.

(** A found line item saved with its status untouched leaves every stored
    status as it was. *)
Lemma status_of_store db d d0 i :
  findById CartItem._id (CartItem._id d) (cartitems db) = Some d0 →
  CartItem.status d = CartItem.status d0 →
  status_of (set_cartitems (store CartItem._id d (cartitems db)) db) i = status_of db i.
Proof.
  intros Hd0 Hst. unfold status_of. simpl. rewrite findById_store.
  case_bool_decide as Hi; [|done]. subst i. rewrite Hd0. simpl. by rewrite Hst.
Qed.

Lemma update_items_status_loop_statuses ids items :
  UpdateItemsStatus.valid items = true →
  ∀ db i, status_of (snd (update_items_status_loop ids items db)) i = status_of db i.
Proof.
  induction items as [|item rest IH]; intros Hv db i; [done|].
  simpl in Hv. apply andb_true_iff in Hv as [Hitem Hrest].
  cbn [update_items_status_loop]. unfold bind at 1, CartItem_findById.
  destruct (findById _ _ _) as [d|] eqn:Hd; [|done].
  destruct (CartItem.item_id d) as [| |k]; [done | done |].
  case_bool_decide; [|by apply IH].
  unfold bind.
  destruct (UpdateItemsStatus.status item) as [s|] eqn:Hs.
  - simpl in Hitem. apply bool_decide_eq_true_1 in Hitem.
    erewrite CartItem_save_invalid by by apply assign_accepted_status_invalid.
    done.
  - destruct (CartItem_save_cases
                (assign_updates None None (UpdateItemsStatus.remarks item) d) db)
      as [[-> _] | [-> _]]; [done|].
    rewrite IH by done. apply (status_of_store _ _ d).
    + destruct (findById_Some _ _ _ _ Hd) as [_ Hid].
      by rewrite assign_updates_id, Hid.
    + by rewrite assign_updates_status.
Qed.

(** C10. The status values the validators accept are none of the values of
    the schema enum.  Hence saving a line item to which an accepted status
    was assigned fails validation on the path [status]; a validated
    /update-cart-item-status request that supplies a status leaves the
    store as it was, answering 500 with that validation error when the
    line item exists; and no validated /update-items-status request
    changes the status of any stored line item. *)
Theorem accepted_status_never_stored db id req s items d rem :
  UpdateCartItemStatus.valid req = true →
  UpdateCartItemStatus.status req = Some s →
  UpdateItemsStatus.valid items = true →
  (∀ s', s' ∈ accepted_status → s' ∉ CartItem.status_enum) ∧
  CartItem_save (assign_updates None (Some s) rem d) db
    = (Throw (ValidationError
                (CartItem.invalid_paths (assign_updates None (Some s) rem d))), db) ∧
  In "status" (CartItem.invalid_paths (assign_updates None (Some s) rem d)) ∧
  snd (update_cart_item_status id req db) = db ∧
  (∀ d0, findById CartItem._id id (cartitems db) = Some d0 →
     ∃ paths, In "status" paths ∧
       fst (update_cart_item_status id req db)
         = Res 500 (error_message (ValidationError paths))) ∧
  (∀ i, status_of (snd (update_items_status items db)) i = status_of db i).
Proof.
  intros Hreq Hs Hitems.
  assert (Hacc : s ∈ accepted_status).
  { unfold UpdateCartItemStatus.valid in Hreq. rewrite Hs in Hreq.
    apply andb_true_iff in Hreq as [_ Hreq]. by apply bool_decide_eq_true_1 in Hreq. }
  split; [exact accepted_status_not_in_enum|].
  split; [by eapply CartItem_save_invalid, assign_accepted_status_invalid|].
  split; [by apply assign_accepted_status_invalid|].
  unfold update_cart_item_status. rewrite Hreq, Hs. cbn [negb].
  unfold try_catch, bind, CartItem_findById.
  split; [|split].
  - destruct (findById _ _ _) as [d0|]; [|done].
    by erewrite CartItem_save_invalid by by apply assign_accepted_status_invalid.
  - intros d0 ->.
    erewrite CartItem_save_invalid by by apply assign_accepted_status_invalid.
    eexists. split; [|done]. by apply assign_accepted_status_invalid.
  - intros i. unfold update_items_status. rewrite Hitems. cbn [negb].
    unfold try_catch, bind at 1, Inventory_find. unfold bind.
    pose proof (update_items_status_loop_statuses
                  (List.map Inventory._id (inventories db)) items Hitems db i) as Hloop.
    by destruct (update_items_status_loop _ items db) as [[[]| |] db'].
Qed.

(** The theorem at work on [requests_db]. *)
Lemma accepted_status_never_stored_witness :
  (∀ s', s' ∈ accepted_status → s' ∉ CartItem.status_enum) ∧
  CartItem_save (assign_updates None (Some "ready") None glue_line) requests_db
    = (Throw (ValidationError
                (CartItem.invalid_paths
                   (assign_updates None (Some "ready") None glue_line))),
       requests_db) ∧
  In "status"
    (CartItem.invalid_paths (assign_updates None (Some "ready") None glue_line)) ∧
  snd (update_cart_item_status 3 (status_update (Some 1%Z) (Some "ready") None)
         requests_db) = requests_db ∧
  (∀ d0, findById CartItem._id 3 (cartitems requests_db) = Some d0 →
     ∃ paths, In "status" paths ∧
       fst (update_cart_item_status 3 (status_update (Some 1%Z) (Some "ready") None)
              requests_db)
         = Res 500 (error_message (ValidationError paths))) ∧
  (∀ i, status_of
          (snd (update_items_status
                  [lenient_item 3 (Some "delivered") (Some "packed")] requests_db)) i
        = status_of requests_db i).
Proof.
  apply (accepted_status_never_stored requests_db 3
           (status_update (Some 1%Z) (Some "ready") None) "ready"
           [lenient_item 3 (Some "delivered") (Some "packed")] glue_line None).
  - reflexivity.
  - reflexivity.
  - reflexivity.
Defined.

(** The parts of /update-cart-item-status that do not touch the status. *)

Lemma update_status_not_found db id req :
  findById CartItem._id id (cartitems db) = None →
  UpdateCartItemStatus.valid req = true →
  update_cart_item_status id req db = (Res 404 (error_text "CartItem not found."), db).
Proof.
  intros Hnone Hv. unfold update_cart_item_status. rewrite Hv. cbn [negb].
  unfold try_catch, bind, CartItem_findById. by rewrite Hnone.
Qed.

Lemma assign_updates_valid a r d :
  CartItem.invalid_paths d = [] →
  CartItem.invalid_paths (assign_updates a None r d) = [].
Proof. rewrite !invalid_paths_nil. by destruct a, r. Qed.

(** A delta is added to the stored allotted quantity, a remark replaces the
    stored one. *)
Lemma update_status_accumulates db id d a r :
  findById CartItem._id id (cartitems db) = Some d →
  CartItem.invalid_paths d = [] → (0 ≤ a)%Z →
  let d' := assign_updates (Some a) None r d in
  let db' := set_cartitems (store CartItem._id d' (cartitems db)) db in
  update_cart_item_status id (status_update (Some a) None r) db
    = (Res 200 (json_cartItem d'), db') ∧
  findById CartItem._id id (cartitems db') = Some d' ∧
  CartItem.allotted_quantity d' = (CartItem.allotted_quantity d + a)%Z ∧
  CartItem.remarks d' = match r with Some _ => r | None => CartItem.remarks d end.
Proof.
  intros Hd Hvalid Ha d' db'.
  destruct (findById_Some _ _ _ _ Hd) as [_ Hid].
  split; [|split; [|split]].
  - unfold update_cart_item_status, UpdateCartItemStatus.valid. simpl.
    rewrite bool_decide_eq_true_2 by done. simpl.
    unfold try_catch, bind, CartItem_findById. rewrite Hd.
    unfold CartItem_save.
    by rewrite (assign_updates_valid (Some a) r d Hvalid).
  - subst db'. simpl. rewrite findById_store.
    subst d'. rewrite assign_updates_id, Hid. by rewrite bool_decide_eq_true_2.
  - subst d'. by destruct r.
  - subst d'. by destruct r.
Qed.

(** Delta 3, then delta 2, gives 5 more than before. *)
Lemma update_status_three_then_two db id d :
  findById CartItem._id id (cartitems db) = Some d →
  CartItem.invalid_paths d = [] →
  let db1 := snd (update_cart_item_status id (status_update (Some 3%Z) None None) db) in
  let db2 := snd (update_cart_item_status id (status_update (Some 2%Z) None None) db1) in
  CartItem.allotted_quantity <$> findById CartItem._id id (cartitems db2)
    = Some (CartItem.allotted_quantity d + 5)%Z.
Proof.
  intros Hd Hvalid.
  destruct (update_status_accumulates db id d 3 None Hd Hvalid) as (H1 & Hd1 & Hq1 & _);
    [lia|].
  cbn zeta. rewrite H1. cbn [snd].
  set (d1 := assign_updates (Some 3%Z) None None d) in *.
  destruct (update_status_accumulates _ id d1 2 None Hd1) as (H2 & Hd2 & Hq2 & _);
    [by apply (assign_updates_valid (Some 3%Z) None d) | lia |].
  rewrite H2. cbn [snd]. rewrite Hd2. simpl. f_equal. lia.
Qed.

Example pending_db_reached :
  add_items (single_add 7 0 3) glue_db
  = (Res 200 (json_cart {| Cart._id := 1; Cart.userId := 7; Cart.cartItems := [2] |}),
     pending_db).
Proof. reflexivity. Qed.

(** C3. On the store [pending_db], whose line item 2 is pending, the
    validated request that supplies the status "ready" (with a delta and a
    remark) is answered 500 with a validation error on [status] and the
    store is unchanged: the supplied status does not replace the stored
    one, and the delta and the remark sent with it are lost too.  The
    spelling of the schema, "Ready", does not pass the validator of the
    route. *)
Theorem update_status_drops_status :
  UpdateCartItemStatus.valid (status_update None (Some "ready") None) = true ∧
  update_cart_item_status 2 (status_update None (Some "ready") None) pending_db
    = (Res 500 (error_message (ValidationError ["status"])), pending_db) ∧
  update_cart_item_status 2
    (status_update (Some 1%Z) (Some "ready") (Some "packed")) pending_db
    = (Res 500 (error_message (ValidationError ["status"])), pending_db) ∧
  status_of pending_db 2 = Some "Pending" ∧
  update_cart_item_status 2 (status_update None (Some "Ready") None) pending_db
    = (Res 400 errors_array, pending_db).
Proof. vm_compute. done. Qed.

(** ** The summary report *)

Lemma lookup_group_step acc d k :
  group_step acc d !! k =
  if decide (group_key d = k)
  then Some (add_to_group d (default (new_group d) (acc !! k)))
  else acc !! k.
Proof.
  unfold group_step. case_decide as Hk.
  - subst k. destruct (acc !! group_key d) as [g|] eqn:Hg.
    + by rewrite lookup_alter_eq, Hg.
    + by rewrite lookup_alter_eq, lookup_insert_eq.
  - destruct (acc !! group_key d) as [g|] eqn:Hg.
    + by rewrite lookup_alter_ne.
    + by rewrite lookup_alter_ne, lookup_insert_ne.
Qed.

(** What the reduction leaves under a key: the line items of that key,
    added one after the other to the group opened by the first of them. *)
Lemma lookup_foldl_group_step l : ∀ acc k,
  foldl group_step acc l !! k =
  match List.filter (in_group k) l with
  | [] => acc !! k
  | d :: r =>
      Some (foldl (fun g x => add_to_group x g) (default (new_group d) (acc !! k))
              (d :: r))
  end.
Proof.
  induction l as [|d l IH]; intros acc k; simpl; [done|].
  rewrite IH, lookup_group_step. unfold in_group at 2.
  case_decide as Hk.
  - rewrite bool_decide_eq_true_2 by done. simpl.
    by destruct (List.filter (in_group k) l).
  - by rewrite bool_decide_eq_false_2.
Qed.

Lemma totals_foldl_add l : ∀ g,
  totalOrderedQuantity (foldl (fun g x => add_to_group x g) g l)
    = (totalOrderedQuantity g + sum_ordered l)%Z ∧
  totalAllottedQuantity (foldl (fun g x => add_to_group x g) g l)
    = (totalAllottedQuantity g + sum_allotted l)%Z.
Proof.
  induction l as [|d l IH]; intros g; simpl; [lia|].
  destruct (IH (add_to_group d g)) as [-> ->]. simpl. lia.
Qed.

Lemma summary_of_sums l inventory :
  let members := List.filter (in_group (Inventory._id inventory)) l in
  row_totalOrderedQuantity (summary_of (cartItemsById l) inventory) = sum_ordered members ∧
  row_totalAllottedQuantity (summary_of (cartItemsById l) inventory) = sum_allotted members.
Proof.
  unfold summary_of, cartItemsById. simpl. rewrite lookup_foldl_group_step.
  destruct (List.filter _ l) as [|d r]; [by rewrite lookup_empty|].
  rewrite lookup_empty. cbn [default fst snd].
  destruct (totals_foldl_add (d :: r) (new_group d)) as [-> ->]. done.
Qed.

Lemma filter_unique_id (l : list CartItem.t) d :
  NoDup (List.map CartItem._id l) → d ∈ l →
  List.filter (fun x => bool_decide (CartItem._id x = CartItem._id d)) l = [d].
Proof.
  induction l as [|x l IH]; simpl; intros Hnd Hd; [by apply elem_of_nil in Hd|].
  apply NoDup_cons in Hnd as [Hx Hnd].
  assert (Hrest : ∀ y, y ∈ l → CartItem._id y ≠ CartItem._id x).
  { intros y Hy Heq. apply Hx. rewrite <- Heq. apply list_elem_of_fmap. by exists y. }
  apply elem_of_cons in Hd as [-> | Hd].
  - rewrite bool_decide_eq_true_2 by done. f_equal.
    clear -Hrest. induction l as [|y l IH]; simpl; [done|].
    rewrite bool_decide_eq_false_2 by (apply Hrest; left).
    apply IH. intros z Hz. apply Hrest. by right.
  - rewrite bool_decide_eq_false_2 by (symmetry; by apply Hrest). by apply IH.
Qed.

Lemma unique_id_eq (l : list CartItem.t) x d :
  NoDup (List.map CartItem._id l) → x ∈ l → d ∈ l →
  CartItem._id x = CartItem._id d → x = d.
Proof.
  intros Hnd Hx Hd Heq.
  assert (Hin : In x (List.filter
                        (fun y => bool_decide (CartItem._id y = CartItem._id d)) l)).
  { apply filter_In. split; [by apply list_elem_of_In | by apply bool_decide_eq_true_2]. }
  rewrite filter_unique_id in Hin by done. by destruct Hin as [-> | []].
Qed.

Lemma line_ids_apart_elim db :
  line_ids_apart db →
  ∀ d, d ∈ cartitems db →
    (CartItem._id d ∉ List.map Inventory._id (inventories db)) ∧
    (∀ d', d' ∈ cartitems db → CartItem.item_id d' ≠ value (CartItem._id d)).
Proof.
  intros H d Hd. unfold line_ids_apart in H.
  rewrite Forall_forall in H. destruct (H d Hd) as [H1 H2].
  split; [done|]. by rewrite Forall_forall in H2.
Qed.

(** When every line item holds its catalog reference in the spelling of
    [toString()] and the totals stay within the integers a double holds
    exactly: in a store where the ids of line items are unique and apart
    from the ids that name catalog items, the summary report has
    one row per catalog item, in catalog order, whose totals are the sums
    of the ordered and allotted quantities over exactly the line items
    referencing that catalog item (zero when there is none) and whose
    available quantity is the quantity of the catalog item; every line item
    without a catalog reference is alone in the group kept under its own
    id, so two such items never share a group, whatever their names. *)
Theorem summary_joins_catalog db :
  unique_ids db → line_ids_apart db →
  cart_item_summary db
    = (Res 200 (json_summary (List.map (expected_row db) (inventories db))), db) ∧
  (∀ inventory, inventory ∈ inventories db →
     List.filter (by_item_id (Inventory._id inventory)) (cartitems db) = [] →
     row_totalOrderedQuantity (expected_row db inventory) = 0%Z ∧
     row_totalAllottedQuantity (expected_row db inventory) = 0%Z) ∧
  (∀ d, d ∈ cartitems db → truthy (CartItem.item_id d) = false →
     cartItemsById (cartitems db) !! group_key d = Some (own_group d) ∧
     List.filter (in_group (group_key d)) (cartitems db) = [d]) ∧
  (∀ d d', truthy (CartItem.item_id d) = false →
     truthy (CartItem.item_id d') = false →
     CartItem._id d ≠ CartItem._id d' → group_key d ≠ group_key d').
Proof.
  intros (_ & _ & Hnd) Hwf.
  pose proof (line_ids_apart_elim db Hwf) as Hapart.
  split; [|split; [|split]].
  - unfold cart_item_summary, try_catch, bind, Inventory_find, ret. f_equal. f_equal. f_equal.
    apply map_ext_in. intros inventory Hin%list_elem_of_In.
    destruct (summary_of_sums (cartitems db) inventory) as [Ho Ha].
    assert (Hmem : List.filter (in_group (Inventory._id inventory)) (cartitems db)
                   = List.filter (by_item_id (Inventory._id inventory)) (cartitems db)).
    { apply filter_ext_in. intros d Hd%list_elem_of_In.
      unfold in_group, by_item_id, group_key.
      destruct (Hapart d Hd) as [Hinv _].
      assert (Hne : CartItem._id d ≠ Inventory._id inventory).
      { intros Heq. apply Hinv. rewrite Heq. apply list_elem_of_fmap. by exists inventory. }
      destruct (CartItem.item_id d) as [| |k].
      - by rewrite !bool_decide_eq_false_2.
      - by rewrite !bool_decide_eq_false_2.
      - apply bool_decide_ext. split; congruence. }
    rewrite Hmem in Ho, Ha. unfold expected_row. rewrite <- Ho, <- Ha. done.
  - intros inventory _ Hnone. unfold expected_row. simpl. by rewrite Hnone.
  - intros d Hd Hcustom.
    assert (Hkey : group_key d = CartItem._id d).
    { unfold group_key. by destruct (CartItem.item_id d). }
    assert (Hmem : List.filter (in_group (group_key d)) (cartitems db) = [d]).
    { rewrite <- (filter_unique_id (cartitems db) d) by done.
      apply filter_ext_in. intros x Hx%list_elem_of_In.
      unfold in_group. rewrite Hkey. unfold group_key.
      destruct (CartItem.item_id x) as [| |k] eqn:Hk; try done.
      destruct (Hapart d Hd) as [_ Href]. specialize (Href x Hx).
      rewrite !bool_decide_eq_false_2; [done | | congruence].
      intros Heq. apply (unique_id_eq _ _ _ Hnd Hx Hd) in Heq. subst x.
      rewrite Hk in Hcustom. discriminate Hcustom. }
    split; [|done].
    unfold cartItemsById. rewrite lookup_foldl_group_step, Hmem, lookup_empty.
    simpl. unfold own_group, add_to_group, new_group. simpl. done.
  - intros d d' Hc Hc' Hne. unfold group_key.
    by destruct (CartItem.item_id d), (CartItem.item_id d').
Qed.

(** The theorem at work on [summary_db]. *)
Lemma summary_joins_catalog_witness :
  cart_item_summary summary_db
    = (Res 200 (json_summary (List.map (expected_row summary_db)
                                (inventories summary_db))), summary_db) ∧
  (∀ inventory, inventory ∈ inventories summary_db →
     List.filter (by_item_id (Inventory._id inventory)) (cartitems summary_db) = [] →
     row_totalOrderedQuantity (expected_row summary_db inventory) = 0%Z ∧
     row_totalAllottedQuantity (expected_row summary_db inventory) = 0%Z) ∧
  (∀ d, d ∈ cartitems summary_db → truthy (CartItem.item_id d) = false →
     cartItemsById (cartitems summary_db) !! group_key d = Some (own_group d) ∧
     List.filter (in_group (group_key d)) (cartitems summary_db) = [d]) ∧
  (∀ d d', truthy (CartItem.item_id d) = false →
     truthy (CartItem.item_id d') = false →
     CartItem._id d ≠ CartItem._id d' → group_key d ≠ group_key d').
Proof.
  apply (summary_joins_catalog summary_db).
  - unfold unique_ids. simpl. repeat split; by apply (bool_decide_unpack _).
  - by apply (bool_decide_unpack _).
Defined.

(** The example of the specification: glue, 10 on hand, requested 3 and 4
    with 1 and 2 allotted, is reported with totals 7 and 3. *)
Example summary_of_glue :
  List.map (expected_row summary_db) (inventories summary_db)
  = [{| row_id := 0; row_itemName := "Glue"; availableQuantity := 10;
        row_totalOrderedQuantity := 7; row_totalAllottedQuantity := 3;
        row_itemOrderedStatus := "Available"; row_itemRemark := "" |}].
Proof. reflexivity. Qed.

(** ** Removing line items and catalog items *)

Section DeleteFacts.
Context {D : Type} (id_of : D -> ObjectId).
Implicit Types (c : list D).

Lemma deleteOne_other i j c :
  i ≠ j →
  findById id_of i (deleteOne (has_id id_of j) c) = findById id_of i c.
Proof.
  intros Hij. unfold findById, findOne.
  induction c as [|d c IH]; simpl; [done|].
  destruct (has_id id_of j d) eqn:Hj; simpl.
  - unfold has_id in *. apply bool_decide_eq_true_1 in Hj.
    by rewrite bool_decide_eq_false_2 by congruence.
  - destruct (has_id id_of i d); [done | exact IH].
Qed.

Lemma deleteOne_same i c :
  NoDup (List.map id_of c) →
  findById id_of i (deleteOne (has_id id_of i) c) = None.
Proof.
  unfold findById, findOne.
  induction c as [|d c IH]; simpl; intros Hnd; [done|].
  apply NoDup_cons in Hnd as [Hd Hnd].
  destruct (has_id id_of i d) eqn:Hi; simpl.
  - unfold has_id in Hi. apply bool_decide_eq_true_1 in Hi. subst i.
    apply (findById_existsb id_of). apply not_true_is_false.
    intros [x [Hx Hid]]%existsb_exists. apply Hd.
    unfold has_id in Hid. apply bool_decide_eq_true_1 in Hid. rewrite <- Hid.
    apply list_elem_of_fmap. exists x. split; [done | by apply list_elem_of_In].
  - rewrite Hi. by apply IH.
Qed.

Lemma deleteMany_elem q c d :
  d ∈ deleteMany q c ↔ d ∈ c ∧ q d = false.
Proof.
  unfold deleteMany. rewrite !list_elem_of_In, filter_In.
  by rewrite negb_true_iff.
Qed.

End DeleteFacts.

(** What /remove-item does, on a store with unique ids: an unknown cart, or
    a name no line item of the cart bears, is answered 404 and changes
    nothing; otherwise the first line item of the cart with that name is
    deleted, every other line item is untouched, and the cart loses its
    reference to it: when no reference is left the cart is deleted,
    otherwise the cart stays with the remaining references.  The test is
    on the references of the cart, not on the line items that are stored
    for it. *)
Theorem remove_item_deletes db cart itemName :
  unique_ids db →
  match findById Cart._id cart (carts db) with
  | None =>
      remove_item cart itemName db = (Res 404 (error_text "Cart not found."), db) ∧
      kind_of (fst (remove_item cart itemName db)) = Some NotFound
  | Some cartDoc =>
      match findOne (by_cart_name cart itemName) (cartitems db) with
      | None =>
          remove_item cart itemName db
            = (Res 404 (error_text "Item not found in the cart."), db) ∧
          kind_of (fst (remove_item cart itemName db)) = Some NotFound
      | Some cartItem =>
          let r := remove_item cart itemName db in
          status_code (fst r) = 200%Z ∧
          inventories (snd r) = inventories db ∧
          findById CartItem._id (CartItem._id cartItem) (cartitems (snd r)) = None ∧
          (∀ i, i ≠ CartItem._id cartItem →
             findById CartItem._id i (cartitems (snd r))
             = findById CartItem._id i (cartitems db)) ∧
          (∀ j, j ≠ cart →
             findById Cart._id j (carts (snd r)) = findById Cart._id j (carts db)) ∧
          findById Cart._id cart (carts (snd r))
            = match remaining_refs (CartItem._id cartItem) cartDoc with
              | [] => None
              | refs => Some (Cart.with_cartItems refs cartDoc)
              end
      end
  end.
Proof.
  intros (_ & Hcarts & Hitems).
  unfold remove_item, try_catch, bind, Cart_findOne, CartItem_findOne,
    CartItem_deleteOne, Cart_deleteOne, respond.
  fold (findById Cart._id cart (carts db)).
  destruct (findById Cart._id cart (carts db)) as [cartDoc|] eqn:Hc; [|by split].
  destruct (findById_Some _ _ _ _ Hc) as [_ Hid]. rewrite Hid.
  destruct (findOne (by_cart_name cart itemName) (cartitems db)) as [cartItem|];
    [|by split].
  fold (remaining_refs (CartItem._id cartItem) cartDoc).
  destruct (remaining_refs (CartItem._id cartItem) cartDoc) as [|ref refs] eqn:Hrefs.
  - cbn. rewrite Hid.
    repeat split; try done.
    + by apply deleteOne_same.
    + intros i Hi. by apply deleteOne_other.
    + intros j Hj. by apply deleteOne_other.
    + by apply deleteOne_same.
  - cbn [Cart.cartItems Cart.with_cartItems length].
    rewrite bool_decide_eq_false_2 by done.
    unfold Cart_save. cbn [Cart._id Cart.with_cartItems carts set_cartitems].
    rewrite Hid, (existsb_has_id_found _ _ _ _ Hc).
    cbn [fst snd status_code inventories carts cartitems set_carts set_cartitems].
    repeat split; try done.
    + by apply deleteOne_same.
    + intros i Hi. by apply deleteOne_other.
    + intros j Hj. rewrite findById_store. cbn. by rewrite Hid, bool_decide_eq_false_2.
    + rewrite findById_store. cbn. by rewrite Hid, bool_decide_eq_true_2.
Qed.

(** The theorem at work on [requests_db]. *)
Lemma remove_item_deletes_witness :
  let r := remove_item 2 "Glue" requests_db in
  status_code (fst r) = 200%Z ∧
  inventories (snd r) = inventories requests_db ∧
  findById CartItem._id 3 (cartitems (snd r)) = None ∧
  (∀ i, i ≠ 3 →
     findById CartItem._id i (cartitems (snd r))
     = findById CartItem._id i (cartitems requests_db)) ∧
  (∀ j, j ≠ 2 →
     findById Cart._id j (carts (snd r)) = findById Cart._id j (carts requests_db)) ∧
  findById Cart._id 2 (carts (snd r))
    = Some {| Cart._id := 2; Cart.userId := 7; Cart.cartItems := [4] |}.
Proof.
  apply (remove_item_deletes requests_db 2 "Glue").
  unfold unique_ids. simpl. repeat split; by apply (bool_decide_unpack _).
Defined.

(** Removing the only item of a cart deletes the cart. *)
Example remove_last_item_deletes_cart :
  let db := snd (add_items (single_add 7 0 3) glue_db) in
  carts db = [{| Cart._id := 1; Cart.userId := 7; Cart.cartItems := [2] |}] ∧
  remove_item 1 "Glue" db
    = (Res 200 (message_text "Item removed and cart deleted as it was empty."),
       {| inventories := [glue]; carts := []; cartitems := []; next_id := 3 |}).
Proof. vm_compute. done. Qed.

(** C5. Whether /remove-item deletes the cart is decided on the cart's
    reference array, which other routes leave out of step with the line
    items stored for the cart.  After [stale_ref_requests] the glue line
    is the last line item of cart 2; removing it leaves no line item of
    the cart and yet the cart stays, with a reference that resolves to
    nothing.  After [unsaved_ref_requests] cart 2 has a glue line and a
    rope line; removing the glue line, which is not the last one, deletes
    the cart as "empty" and the rope line stays behind without its cart. *)
Theorem remove_item_out_of_step :
  let db1 := serve_all stale_ref_requests in
  let r1 := remove_item 2 "Glue" db1 in
  let db2 := serve_all unsaved_ref_requests in
  let r2 := remove_item 2 "Glue" db2 in
  List.filter (by_cart 2) (cartitems db1) = [catalog_line 3 2 0 "Glue" 3] ∧
  fst r1 = Res 200 (message_cart "Item removed from the cart."
                      {| Cart._id := 2; Cart.userId := 7; Cart.cartItems := [4] |}) ∧
  List.filter (by_cart 2) (cartitems (snd r1)) = [] ∧
  carts (snd r1) = [{| Cart._id := 2; Cart.userId := 7; Cart.cartItems := [4] |}] ∧
  List.filter (by_cart 2) (cartitems db2)
    = [catalog_line 3 2 0 "Glue" 3; catalog_line 4 2 1 "Rope" 1] ∧
  fst r2 = Res 200 (message_text "Item removed and cart deleted as it was empty.") ∧
  List.filter (by_cart 2) (cartitems (snd r2)) = [catalog_line 4 2 1 "Rope" 1] ∧
  carts (snd r2) = [].
Proof. vm_compute. repeat split; done. Qed.

(** When the request and the line items spell the id as [toString()]
    does: after deleting a catalog item by id no stored line item
    references that id, so no cart shows one when its references are
    populated; the line items that reference other catalog items, or none,
    are exactly the ones kept; the answer is 404 and the catalog is
    unchanged when the id is not in the catalog, and otherwise the answer
    is 200 and the catalog no longer holds the id. *)
Theorem delete_inventory_cascades db id :
  unique_ids db →
  let r := delete_inventory id db in
  (∀ d, d ∈ cartitems (snd r) → CartItem.item_id d ≠ value id) ∧
  (∀ c d, c ∈ carts (snd r) → d ∈ populate (snd r) c → CartItem.item_id d ≠ value id) ∧
  (∀ d, d ∈ cartitems (snd r) ↔ d ∈ cartitems db ∧ CartItem.item_id d ≠ value id) ∧
  carts (snd r) = carts db ∧
  (∀ j, j ≠ id →
     findById Inventory._id j (inventories (snd r))
     = findById Inventory._id j (inventories db)) ∧
  match findById Inventory._id id (inventories db) with
  | None =>
      kind_of (fst r) = Some NotFound ∧
      fst r = Res 404 (message_text "Item not found") ∧
      inventories (snd r) = inventories db
  | Some deletedItem =>
      status_code (fst r) = 200%Z ∧
      findById Inventory._id id (inventories (snd r)) = None
  end.
Proof.
  intros (Hinv & _ & _) r.
  assert (Hr : snd r = set_cartitems (deleteMany (by_item_id id) (cartitems db))
                         (set_inventories
                            (deleteOne (has_id Inventory._id id) (inventories db)) db)).
  { subst r. unfold delete_inventory, try_catch, bind, Inventory_findByIdAndDelete,
      CartItem_deleteMany. by destruct (findById Inventory._id id (inventories db)). }
  assert (Hkept : ∀ d, d ∈ cartitems (snd r) ↔
                       d ∈ cartitems db ∧ CartItem.item_id d ≠ value id).
  { intros d. rewrite Hr. cbn [cartitems set_cartitems set_inventories].
    rewrite deleteMany_elem. unfold by_item_id.
    by rewrite bool_decide_eq_false. }
  split; [intros d Hd; by apply Hkept in Hd as [_ ?]|].
  split.
  { intros c d _ Hd. unfold populate in Hd.
    apply list_elem_of_omap in Hd as (i & _ & Hi).
    apply findById_Some in Hi as [Hin _]. by apply Hkept in Hin as [_ ?]. }
  split; [exact Hkept|].
  split; [by rewrite Hr|].
  split; [intros j Hj; rewrite Hr; by apply deleteOne_other|].
  destruct (findById Inventory._id id (inventories db)) as [deletedItem|] eqn:Hfound.
  - split.
    + subst r. unfold delete_inventory, try_catch, bind, Inventory_findByIdAndDelete,
        CartItem_deleteMany. by rewrite Hfound.
    + rewrite Hr. by apply deleteOne_same.
  - assert (Hfst : fst r = Res 404 (message_text "Item not found")).
    { subst r. unfold delete_inventory, try_catch, bind, Inventory_findByIdAndDelete,
        CartItem_deleteMany. by rewrite Hfound. }
    rewrite Hfst. repeat split; try done.
    rewrite Hr. cbn [inventories set_cartitems set_inventories].
    clear -Hfound. unfold findById, findOne in Hfound.
    induction (inventories db) as [|x l IH]; simpl in *; [done|].
    destruct (has_id Inventory._id id x); [done|]. f_equal. by apply IH.
Qed.

(** The theorem at work on [summary_db]. *)
Lemma delete_inventory_cascades_witness :
  let r := delete_inventory 0 summary_db in
  (∀ d, d ∈ cartitems (snd r) → CartItem.item_id d ≠ value 0) ∧
  (∀ c d, c ∈ carts (snd r) → d ∈ populate (snd r) c → CartItem.item_id d ≠ value 0) ∧
  (∀ d, d ∈ cartitems (snd r) ↔ d ∈ cartitems summary_db ∧ CartItem.item_id d ≠ value 0) ∧
  carts (snd r) = carts summary_db ∧
  (∀ j, j ≠ 0 →
     findById Inventory._id j (inventories (snd r))
     = findById Inventory._id j (inventories summary_db)) ∧
  status_code (fst r) = 200%Z ∧
  findById Inventory._id 0 (inventories (snd r)) = None.
Proof.
  apply (delete_inventory_cascades summary_db 0).
  unfold unique_ids. simpl. repeat split; by apply (bool_decide_unpack _).
Defined.

(** ** Creating catalog items *)

Lemma existsb_same_name (l : list Inventory.t) existing name :
  existing ∈ l → Inventory.itemName existing = name →
  existsb (fun d' => bool_decide (Inventory.itemName d' = name)) l = true.
Proof.
  intros Hin Hname. apply existsb_exists. exists existing.
  split; [by apply list_elem_of_In | by apply bool_decide_eq_true_2].
Qed.

(** C7, as amended. A POST /inventory that passes the input validators and
    names an item the catalog already holds, the name not being the empty
    string, is answered 400 with the message that the name must be unique,
    which is the [Conflict] of the taxonomy and not the 500 of an internal
    error; the duplicate-key error of the unique index is what the handler
    translates; the catalog, the carts and the line items are left as they
    were. *)
Theorem post_inventory_duplicate_conflict db req name existing :
  PostInventory.valid req = true →
  PostInventory.itemName req = Some name → name ≠ "" →
  existing ∈ inventories db → Inventory.itemName existing = name →
  let r := post_inventory req db in
  fst r = Res 400 (error_text "Item name must be unique. This item already exists.") ∧
  kind_of (fst r) = Some Conflict ∧
  (∃ d, Inventory_save d (set_next_id (S (next_id db)) db)
          = (Throw (MongoServerError 11000), set_next_id (S (next_id db)) db)
        ∧ Inventory.itemName d = name) ∧
  inventories (snd r) = inventories db ∧
  carts (snd r) = carts db ∧
  cartitems (snd r) = cartitems db ∧
  existing ∈ inventories (snd r).
Proof.
  intros Hvalid Hname Hne Hin Hex r.
  assert (Hstatus : PostInventory.itemStatus req ∈ Inventory.itemStatus_enum).
  { unfold PostInventory.valid in Hvalid. apply andb_true_iff in Hvalid as [_ Hs].
    by apply bool_decide_eq_true_1 in Hs. }
  set (d := {| Inventory._id := next_id db;
               Inventory.itemQuantity := PostInventory.itemQuantity req;
               Inventory.itemStatus := PostInventory.itemStatus req;
               Inventory.itemName := name;
               Inventory.itemOrderedStatus := "Available";
               Inventory.itemRemark := None |}).
  assert (Hsave : Inventory_save d (set_next_id (S (next_id db)) db)
                  = (Throw (MongoServerError 11000), set_next_id (S (next_id db)) db)).
  { unfold Inventory_save, Inventory.invalid_paths. cbn [d Inventory.itemStatus
      Inventory.itemName Inventory.itemOrderedStatus].
    rewrite (bool_decide_eq_true_2 _ Hstatus).
    rewrite (bool_decide_eq_false_2 (name = "")) by done.
    cbn [app inventories set_next_id].
    by rewrite (existsb_same_name _ existing name). }
  assert (Hr : r = (Res 400 (error_text
                               "Item name must be unique. This item already exists."),
                    set_next_id (S (next_id db)) db)).
  { subst r. unfold post_inventory. rewrite Hvalid. cbn [negb].
    unfold try_catch, bind at 1, new_Inventory, bind at 1, new_ObjectId, ret at 1.
    rewrite Hname. change (default "" (Some name)) with name. fold d.
    unfold bind. by rewrite Hsave. }
  rewrite Hr. repeat split; try done. by exists d.
Qed.

(** The theorem at work on [glue_db]. *)
Lemma post_inventory_duplicate_conflict_witness :
  let r := post_inventory (new_item (Some "Glue") 4 "enabled") glue_db in
  fst r = Res 400 (error_text "Item name must be unique. This item already exists.") ∧
  kind_of (fst r) = Some Conflict ∧
  (∃ d, Inventory_save d (set_next_id (S (next_id glue_db)) glue_db)
          = (Throw (MongoServerError 11000), set_next_id (S (next_id glue_db)) glue_db)
        ∧ Inventory.itemName d = "Glue") ∧
  inventories (snd r) = inventories glue_db ∧
  carts (snd r) = carts glue_db ∧
  cartitems (snd r) = cartitems glue_db ∧
  glue ∈ inventories (snd r).
Proof.
  apply (post_inventory_duplicate_conflict glue_db
           (new_item (Some "Glue") 4 "enabled") "Glue" glue).
  - reflexivity.
  - reflexivity.
  - discriminate.
  - by apply list_elem_of_singleton.
  - reflexivity.
Defined.

(** The store after a catalog item was created as "Glue" and then renamed
    to the empty name by PUT /inventory/0, which runs no schema validator. *)
Lemma nameless_db_reached :
  serve_all [POST_inventory (new_item (Some "Glue") 10 "enabled");
             PUT_inventory 0 {| PutInventory.itemName := Some "";
                                PutInventory.itemStatus := "enabled";
                                PutInventory.itemQuantity := 10 |}]
  = nameless_db.
Proof. reflexivity. Qed.

(** C7, as stated, fails for the empty name.  On [nameless_db] the catalog
    holds an item whose name is the empty string; a POST /inventory of that
    name passes the input validators and names an existing item, yet the
    [required] check of the schema fails before the insert reaches the
    unique index: the answer is 500, the [Internal] error of the taxonomy
    and not [Conflict]. *)
Lemma post_inventory_empty_name_internal :
  let req := new_item (Some "") 4 "enabled" in
  let r := post_inventory req nameless_db in
  reachable nameless_db ∧
  PostInventory.valid req = true ∧
  (∃ existing, existing ∈ inventories nameless_db ∧
               PostInventory.itemName req = Some (Inventory.itemName existing)) ∧
  fst r = Res 500 (error_text "Internal Server Error") ∧
  kind_of (fst r) = Some Internal ∧
  kind_of (fst r) ≠ Some Conflict.
Proof.
  cbv zeta. split.
  { eexists. symmetry. apply nameless_db_reached. }
  split; [reflexivity|]. split.
  { eexists. split; [by apply list_elem_of_singleton | reflexivity]. }
  vm_compute. repeat split; done.
Qed.

(** ** The batch update with [Promise.all] *)

Lemma set_modified_id it mem stored :
  CartItem._id (set_modified it mem stored) = CartItem._id stored.
Proof.
  unfold set_modified.
  by destruct (UpdateMultiple.allotted_quantity it), (UpdateMultiple.status it),
    (UpdateMultiple.remarks it), (CartItem.remarks mem).
Qed.

(** Writing the modified paths of a document onto the document it was
    loaded from gives the in-memory document. *)
Lemma set_modified_assign it d :
  set_modified it
    (assign_updates (UpdateMultiple.allotted_quantity it) (UpdateMultiple.status it)
       (UpdateMultiple.remarks it) d) d
  = assign_updates (UpdateMultiple.allotted_quantity it) (UpdateMultiple.status it)
      (UpdateMultiple.remarks it) d.
Proof.
  unfold set_modified, assign_updates.
  by destruct (UpdateMultiple.allotted_quantity it), (UpdateMultiple.status it),
    (UpdateMultiple.remarks it).
Qed.

Lemma update_task_inr snap it mem :
  update_task snap it = inr mem →
  ∃ d, findById CartItem._id (UpdateMultiple._id it) snap = Some d ∧
       mem = assign_updates (UpdateMultiple.allotted_quantity it)
               (UpdateMultiple.status it) (UpdateMultiple.remarks it) d ∧
       CartItem._id mem = UpdateMultiple._id it.
Proof.
  unfold update_task. destruct (findById _ _ snap) as [d|] eqn:Hd; [|done].
  destruct (CartItem.invalid_paths _); [|done].
  intros [= <-]. exists d. split; [done|]. split; [done|].
  rewrite assign_updates_id. by apply findById_Some in Hd as [_ ?].
Qed.

Lemma commit_task_other snap c it i :
  UpdateMultiple._id it ≠ i →
  findById CartItem._id i (commit_task snap c it) = findById CartItem._id i c.
Proof.
  intros Hne. unfold commit_task.
  destruct (update_task snap it) as [e|mem] eqn:Ht; [done|].
  apply update_task_inr in Ht as (_ & _ & _ & Hid).
  apply findById_replace_other; [apply set_modified_id | congruence].
Qed.

Lemma commit_task_same snap c it :
  findById CartItem._id (UpdateMultiple._id it) (commit_task snap c it)
  = match update_task snap it with
    | inr mem => set_modified it mem <$> findById CartItem._id (UpdateMultiple._id it) c
    | inl _ => findById CartItem._id (UpdateMultiple._id it) c
    end.
Proof.
  unfold commit_task. destruct (update_task snap it) as [e|mem] eqn:Ht; [done|].
  apply update_task_inr in Ht as (_ & _ & _ & Hid). rewrite Hid.
  apply findById_replace_same, set_modified_id.
Qed.

Lemma foldl_commit_task_other snap items i : ∀ c,
  addressed_to i items = [] →
  findById CartItem._id i (foldl (commit_task snap) c items) = findById CartItem._id i c.
Proof.
  induction items as [|it items IH]; intros c Hnone; simpl; [done|].
  unfold addressed_to in Hnone. simpl in Hnone.
  case_bool_decide as Hit; [done|].
  rewrite IH by done. by apply commit_task_other.
Qed.

Lemma foldl_commit_task_once snap items it : ∀ c,
  addressed_to (UpdateMultiple._id it) items = [it] →
  findById CartItem._id (UpdateMultiple._id it) (foldl (commit_task snap) c items)
  = findById CartItem._id (UpdateMultiple._id it) (commit_task snap c it).
Proof.
  induction items as [|x items IH]; intros c Hone; simpl; [done|].
  unfold addressed_to in Hone. simpl in Hone.
  case_bool_decide as Hx.
  - injection Hone as -> Hrest. by apply foldl_commit_task_other.
  - rewrite IH by done. rewrite !commit_task_same.
    by rewrite commit_task_other.
Qed.

(** The callback of an item whose line item is not in the store rejects
    with the not-found error, whatever the other items are. *)
Lemma rejections_missing snap items missing :
  missing ∈ items →
  findById CartItem._id (UpdateMultiple._id missing) snap = None →
  Error "CartItem with ID " (UpdateMultiple._id missing) " not found."
    ∈ rejections (List.map (update_task snap) items).
Proof.
  intros Hin Hnone. unfold rejections.
  apply list_elem_of_omap. exists (update_task snap missing). split.
  - apply list_elem_of_fmap. by exists missing.
  - unfold update_task. by rewrite Hnone.
Qed.

(** What a batch with a rejection is answered and leaves behind. *)
Lemma strict_batch_rejected db items e :
  UpdateMultiple.valid items = true →
  e ∈ rejections (List.map (update_task (cartitems db)) items) →
  update_multiple_cart_items items db
  = (Res 500 (error_message_first
                (rejections (List.map (update_task (cartitems db)) items))),
     set_cartitems (foldl (commit_task (cartitems db)) (cartitems db) items) db).
Proof.
  intros Hvalid He. unfold update_multiple_cart_items. rewrite Hvalid. cbn [negb].
  destruct (rejections _); [by apply elem_of_nil in He | done].
Qed.

(** The message of the answer is the message of one of the rejections, and
    the not-found error of the missing line item is among them. *)
Lemma strict_batch_message db items missing :
  UpdateMultiple.valid items = true →
  missing ∈ items →
  findById CartItem._id (UpdateMultiple._id missing) (cartitems db) = None →
  ∃ errs,
    sent (fst (update_multiple_cart_items items db)) = error_message_first errs ∧
    Error "CartItem with ID " (UpdateMultiple._id missing) " not found." ∈ errs.
Proof.
  intros Hvalid Hin Hnone.
  pose proof (rejections_missing (cartitems db) items missing Hin Hnone) as He.
  rewrite (strict_batch_rejected db items _ Hvalid He). by eexists.
Qed.

(** C8, as amended. A validated /update-multiple-cart-items batch that
    names a line item which does not exist is answered 500, the internal
    error of the taxonomy and not [NotFound], and the batch is not
    aborted: every item whose line item exists, that is the only item of
    the batch for it and whose update passes the schema, has its update
    stored, wherever it stands in the batch. *)
Theorem strict_batch_runs_every_item db items missing :
  UpdateMultiple.valid items = true →
  missing ∈ items →
  findById CartItem._id (UpdateMultiple._id missing) (cartitems db) = None →
  let r := update_multiple_cart_items items db in
  status_code (fst r) = 500%Z ∧
  kind_of (fst r) = Some Internal ∧
  (∀ it d,
     addressed_to (UpdateMultiple._id it) items = [it] →
     findById CartItem._id (UpdateMultiple._id it) (cartitems db) = Some d →
     let d' := assign_updates (UpdateMultiple.allotted_quantity it)
                 (UpdateMultiple.status it) (UpdateMultiple.remarks it) d in
     CartItem.invalid_paths d' = [] →
     findById CartItem._id (UpdateMultiple._id it) (cartitems (snd r)) = Some d').
Proof.
  intros Hvalid Hin Hnone r.
  pose proof (rejections_missing (cartitems db) items missing Hin Hnone) as He.
  subst r. rewrite (strict_batch_rejected db items _ Hvalid He).
  cbn [fst snd status_code sent].
  split; [done|]. split; [done|].
  intros it d Honce Hd Hd'. cbn [cartitems set_cartitems].
  rewrite foldl_commit_task_once by done.
  rewrite commit_task_same. unfold update_task. rewrite Hd, Hd'.
  simpl. f_equal. apply set_modified_assign.
Qed.

(** The theorem at work on [requests_db]. *)
Lemma strict_batch_runs_every_item_witness :
  let r := update_multiple_cart_items batch_with_missing requests_db in
  status_code (fst r) = 500%Z ∧
  kind_of (fst r) = Some Internal ∧
  (∀ it d,
     addressed_to (UpdateMultiple._id it) batch_with_missing = [it] →
     findById CartItem._id (UpdateMultiple._id it) (cartitems requests_db) = Some d →
     let d' := assign_updates (UpdateMultiple.allotted_quantity it)
                 (UpdateMultiple.status it) (UpdateMultiple.remarks it) d in
     CartItem.invalid_paths d' = [] →
     findById CartItem._id (UpdateMultiple._id it) (cartitems (snd r)) = Some d').
Proof.
  apply (strict_batch_runs_every_item requests_db batch_with_missing
           (strict_item 99 (Some 1%Z) None None)).
  - reflexivity.
  - apply elem_of_cons. by left.
  - reflexivity.
Defined.

(** C8, as stated, fails on [batch_with_missing]: line item 99 does not
    exist and comes first, yet the answer is not a [NotFound] and the item
    after it is processed: line item 3 gets its 3 units and its remark. *)
Lemma strict_batch_does_not_abort :
  let r := update_multiple_cart_items batch_with_missing requests_db in
  UpdateMultiple.valid batch_with_missing = true ∧
  findById CartItem._id 99 (cartitems requests_db) = None ∧
  kind_of (fst r) ≠ Some NotFound ∧
  findById CartItem._id 3 (cartitems (snd r))
    ≠ findById CartItem._id 3 (cartitems requests_db) ∧
  fst r = Res 500 (error_message_first [Error "CartItem with ID " 99 " not found."]) ∧
  findById CartItem._id 3 (cartitems (snd r))
    = Some (CartItem.with_remarks "packed" (CartItem.with_allotted_quantity 3 glue_line)).
Proof. vm_compute. repeat split; done. Qed.

(** ** The catalog-filtered batch update *)

(** A line item whose catalog reference is not the id of a catalog item is
    passed over: the loop goes on with the rest of the batch from the same
    store. *)
Lemma lenient_skips_unresolved ids item rest db d k :
  findById CartItem._id (UpdateItemsStatus._id item) (cartitems db) = Some d →
  CartItem.item_id d = value k → k ∉ ids →
  update_items_status_loop ids (item :: rest) db
  = update_items_status_loop ids rest db.
Proof.
  intros Hd Hk Hids. cbn [update_items_status_loop].
  unfold bind, CartItem_findById. rewrite Hd, Hk.
  by rewrite bool_decide_eq_false_2.
Qed.

(** A resolved line item of a batch item that carries no status gets the
    remark, and the loop goes on from the updated store. *)
Lemma lenient_applies_remarks ids item rest db d k :
  findById CartItem._id (UpdateItemsStatus._id item) (cartitems db) = Some d →
  CartItem.item_id d = value k → k ∈ ids →
  UpdateItemsStatus.status item = None →
  CartItem.invalid_paths d = [] →
  update_items_status_loop ids (item :: rest) db
  = update_items_status_loop ids rest
      (set_cartitems
         (store CartItem._id
            (assign_updates None None (UpdateItemsStatus.remarks item) d)
            (cartitems db)) db).
Proof.
  intros Hd Hk Hids Hs Hvalid. cbn [update_items_status_loop].
  unfold bind, CartItem_findById. rewrite Hd, Hk, Hs.
  rewrite bool_decide_eq_true_2 by done.
  unfold CartItem_save. by rewrite (assign_updates_valid None _ d Hvalid).
Qed.

(** C9. On [requests_db], where line item 4 refers to a catalog item that
    is gone and line item 3 to one that exists: a batch naming only line
    item 4 is answered 200 and changes nothing, and a batch giving line
    item 4 a status and line item 3 only a remark stores that remark.  But
    the validated batch that gives line item 3 the status "ready" and a
    remark, after passing over line item 4, is answered 500 with a
    validation error on [status], and the store is unchanged: neither the
    status nor the remark of the remaining item is applied.  The same
    answer meets a batch of that item alone, on the store [pending_db]. *)
Theorem lenient_batch_drops_status :
  let skipped := lenient_item 4 (Some "ready") (Some "gone") in
  UpdateItemsStatus.valid [skipped; lenient_item 3 (Some "ready") (Some "packed")] = true ∧
  update_items_status [skipped] requests_db
    = (Res 200 (message_text "Cart items updated successfully."), requests_db) ∧
  update_items_status [skipped; lenient_item 3 None (Some "packed")] requests_db
    = (Res 200 (message_text "Cart items updated successfully."),
       set_cartitems [CartItem.with_remarks "packed" glue_line; rope_line] requests_db) ∧
  update_items_status [skipped; lenient_item 3 (Some "ready") (Some "packed")] requests_db
    = (Res 500 (error_message (ValidationError ["status"])), requests_db) ∧
  update_items_status [lenient_item 2 (Some "ready") (Some "packed")] pending_db
    = (Res 500 (error_message (ValidationError ["status"])), pending_db).
Proof. vm_compute. done. Qed.

(** A line item without a catalog reference makes the handler throw. *)
Example lenient_batch_custom_item :
  update_items_status [lenient_item 3 None (Some "packed")] summary_db
  = (Res 500 (error_message TypeError), summary_db).
Proof. vm_compute. done. Qed.

(** * The routes on requests as they are sent: what they do *)

(** The two spellings of the id of the glue cast to the same [ObjectId],
    and the lower-case one is the one [toString()] gives. *)
Lemma glue_spellings :
  Wire.ObjectId_of Wire.glue_id = Some 10 ∧ Wire.ObjectId_of Wire.GLUE_ID = Some 10 ∧
  Wire.toString 10 = Wire.glue_id ∧ Wire.glue_id ≠ Wire.GLUE_ID.
Proof. vm_compute. repeat split; done. Qed.

(** The stores of the statements below are left by requests: [pending_db]
    by the requester's first /add-items on a catalog that holds the glue,
    [spelled_db] by a second one that spells the id of the glue in upper
    case, [allotted_db] by an /update-cart-item-status on [pending_db]. *)
Lemma pending_db_sent :
  snd <$> Wire.add_items
            (Wire.single_add Wire.requester Wire.glue_id (Wire.number 3)) Wire.glue_db
  = Some Wire.pending_db.
Proof. vm_compute. done. Qed.

Lemma spelled_db_sent :
  snd <$> Wire.add_items
            (Wire.single_add Wire.requester Wire.GLUE_ID (Wire.number 4)) Wire.pending_db
  = Some Wire.spelled_db.
Proof. vm_compute. done. Qed.

Lemma allotted_db_sent :
  snd <$> Wire.update_cart_item_status "00000000000000000000000c"
            (Wire.status_update (Some (Wire.number 3)) None None) Wire.pending_db
  = Some Wire.allotted_db.
Proof. vm_compute. done. Qed.

(** On numbers and the spelling of [toString()] the second add is summed
    into the line item of the first. *)
Example add_items_numbers_sum :
  Wire.add_items (Wire.single_add Wire.requester Wire.glue_id (Wire.number 4))
    Wire.pending_db
  = Some (Wire.Res 200 (Wire.json_cart
                          {| Cart._id := 11; Cart.userId := 7; Cart.cartItems := [12] |}),
          Wire.set_cartitems [Wire.catalog_line 12 11 Wire.glue_id "Glue" 7]
            Wire.pending_db).
Proof. vm_compute. done. Qed.

(** C1. /add-items twice for the same catalog item does not always leave
    one line item with the sum.  The requester asks for 3 units of glue,
    which gives [pending_db], and then for 4 more.  Sent as the string "4",
    which [isInt({ min: 1 })] accepts, the 4 is appended by [+=] to the
    digits of the 3: the line item holds 34 units, not 7.  Sent with the id
    of the glue in upper case, which [isMongoId()] accepts and
    [Inventory.findById] resolves to the same catalog item, the 4 is not
    found by [CartItem.findOne] under the spelling of the first request: a
    second line item for the glue is created. *)
Theorem add_items_twice_diverges :
  let first := Wire.single_add Wire.requester Wire.glue_id (Wire.number 3) in
  let as_string := Wire.single_add Wire.requester Wire.glue_id (Wire.text "4") in
  let in_capitals := Wire.single_add Wire.requester Wire.GLUE_ID (Wire.number 4) in
  let cart refs := {| Cart._id := 11; Cart.userId := 7; Cart.cartItems := refs |} in
  Wire.AddItems.valid first = true ∧
  Wire.AddItems.valid as_string = true ∧
  Wire.AddItems.valid in_capitals = true ∧
  Wire.add_items first Wire.glue_db
  = Some (Wire.Res 200 (Wire.json_cart (cart [12])), Wire.pending_db) ∧
  Wire.add_items as_string Wire.pending_db
  = Some (Wire.Res 200 (Wire.json_cart (cart [12])),
          Wire.set_cartitems [Wire.catalog_line 12 11 Wire.glue_id "Glue" 34]
            Wire.pending_db) ∧
  Wire.add_items in_capitals Wire.pending_db
  = Some (Wire.Res 200 (Wire.json_cart (cart [12; 13])), Wire.spelled_db).
Proof. vm_compute. repeat split; done. Qed.

(** C4. The summary keys its groups by the spelling a line item holds and
    looks a catalog item up under the spelling of [toString()].  In
    [spelled_db], which two /add-items requests of one requester leave, both
    line items name the glue and ask for 3 and 4 units of it; the row of
    the glue reports 3 units requested, not 7: the line item stored under
    the upper-case spelling is in a group no row reads. *)
Theorem summary_misses_other_spelling :
  snd <$> Wire.add_items
            (Wire.single_add Wire.requester Wire.GLUE_ID (Wire.number 4)) Wire.pending_db
  = Some Wire.spelled_db ∧
  Forall (fun d => Wire.names d = Some (Inventory._id Wire.glue_a))
    (Wire.cartitems Wire.spelled_db) ∧
  List.map Wire.CartItem.ordered_quantity (Wire.cartitems Wire.spelled_db) = [3; 4]%Z ∧
  Wire.cart_item_summary Wire.spelled_db
  = Some (Wire.Res 200
            (Wire.json_summary
               [{| row_id := 10; row_itemName := "Glue"; availableQuantity := 10;
                   row_totalOrderedQuantity := 3; row_totalAllottedQuantity := 0;
                   row_itemOrderedStatus := "Available"; row_itemRemark := "" |}]),
          Wire.spelled_db).
Proof.
  split; [by vm_compute|]. split; [by repeat constructor|]. split; [done|].
  vm_compute. done.
Qed.

(** C6. DELETE /inventory/:id casts the parameter to find the catalog item
    and compares it as a string to find the line items.  With the id of
    the glue in upper case the glue is deleted from the catalog of
    [pending_db] and the line item that references it stays, 0 line items
    being reported as deleted; with the id in lower case the line item of
    [spelled_db] that was stored under the upper-case spelling stays. *)
Theorem delete_inventory_misses_other_spelling :
  snd <$> Wire.add_items
            (Wire.single_add Wire.requester Wire.glue_id (Wire.number 3)) Wire.glue_db
  = Some Wire.pending_db ∧
  Wire.delete_inventory Wire.GLUE_ID Wire.pending_db
  = Some (Wire.Res 200 (Wire.message_deleted "Item deleted successfully" Wire.glue_a 0),
          Wire.set_inventories [] Wire.pending_db) ∧
  Wire.names (Wire.catalog_line 12 11 Wire.glue_id "Glue" 3) = Some 10 ∧
  Wire.delete_inventory Wire.glue_id Wire.spelled_db
  = Some (Wire.Res 200 (Wire.message_deleted "Item deleted successfully" Wire.glue_a 1),
          Wire.set_cartitems [Wire.catalog_line 13 11 Wire.GLUE_ID "Glue" 4]
            (Wire.set_inventories [] Wire.spelled_db)) ∧
  Wire.names (Wire.catalog_line 13 11 Wire.GLUE_ID "Glue" 4) = Some 10.
Proof. vm_compute. repeat split; done. Qed.

(** ** Numbers and their digits *)












(** * Invariants of the store *)

Section SublistFacts.
Context {D : Type}.
Implicit Types (c : list D) (q : D -> bool).

Lemma deleteOne_sublist q c : deleteOne q c `sublist_of` c.
Proof.
  induction c as [|d c IH]; simpl; [done|].
  destruct (q d); [by apply sublist_cons | by apply sublist_skip].
Qed.

Lemma List_filter_sublist q c : List.filter q c `sublist_of` c.
Proof.
  induction c as [|d c IH]; simpl; [done|].
  destruct (q d); [by apply sublist_skip | by apply sublist_cons].
Qed.

Lemma deleteMany_sublist q c : deleteMany q c `sublist_of` c.
Proof. apply List_filter_sublist. Qed.

Lemma Forall_sublist (P : D -> Prop) c c' :
  Forall P c → c' `sublist_of` c → Forall P c'.
Proof.
  rewrite !Forall_forall. intros H Hsub x Hx. apply H. by eapply elem_of_sublist.
Qed.

Lemma NoDup_map_sublist {B} (f : D -> B) c c' :
  NoDup (List.map f c) → c' `sublist_of` c → NoDup (List.map f c').
Proof.
  intros Hnd Hsub. eapply sublist_NoDup; [exact Hnd|].
  by apply (fmap_sublist f).
Qed.

End SublistFacts.

Lemma line_ok_ids ids ids' d :
  (∀ k, k ∈ ids → k ∈ ids') → CartItem._id d ∉ ids' → line_ok ids d → line_ok ids' d.
Proof.
  intros Hsub Hid (Hv & _ & Href). repeat split; [done | done |].
  destruct (CartItem.item_id d); simpl in *; auto.
Qed.

(** ** The effects of the model calls on a well-formed store *)

Lemma store_ok_next_id db n :
  store_ok db → next_id db ≤ n → store_ok (set_next_id n db).
Proof.
  intros (Hinv & [Hc Hi] & Hu & Hl) Hn. repeat split; simpl; try done.
  - eapply Forall_impl; [exact Hinv | simpl; lia].
  - eapply Forall_impl; [exact Hc | simpl; lia].
  - eapply Forall_impl; [exact Hi | simpl; lia].
  - by destruct Hu as (? & ? & ?).
  - by destruct Hu as (? & ? & ?).
  - by destruct Hu as (? & ? & ?).
Qed.

Lemma NoDup_map_snoc {D} (f : D -> ObjectId) (c : list D) d :
  NoDup (List.map f c) → Forall (fun x => f x < f d) c → NoDup (List.map f (c ++ [d])).
Proof.
  intros Hnd Hlt. rewrite map_app. apply NoDup_app. split; [done|]. split.
  - intros x Hx Hd. apply list_elem_of_singleton in Hd. subst x.
    apply list_elem_of_fmap in Hx as (y & Hy & Hin).
    rewrite Forall_forall in Hlt. specialize (Hlt y Hin). lia.
  - apply NoDup_singleton.
Qed.

(** A line item built on the id just drawn is appended. *)
Lemma store_ok_new_line db d :
  store_ok db →
  S (CartItem._id d) = next_id db →
  Forall (fun x => CartItem._id x < CartItem._id d) (cartitems db) →
  Forall (fun x => Inventory._id x < CartItem._id d) (inventories db) →
  CartItem.cart d < next_id db →
  CartItem.invalid_paths d = [] →
  reference_ok (List.map Inventory._id (inventories db)) (CartItem.item_id d) →
  store_ok (set_cartitems (cartitems db ++ [d]) db).
Proof.
  intros (Hinv & [Hc Hi] & (Hu1 & Hu2 & Hu3) & Hl) Hid Hlines Hinvs Hcart Hvalid Href.
  repeat split; simpl; try done.
  - apply Forall_app. split; [done|]. apply Forall_singleton. lia.
  - by apply NoDup_map_snoc.
  - apply Forall_app. split; [done|]. apply Forall_singleton.
    repeat split; [done | | done].
    intros (x & Hx & Hin)%list_elem_of_fmap.
    rewrite Forall_forall in Hinvs. specialize (Hinvs x Hin). lia.
Qed.

(** Line items rewritten in place, each keeping its id and its cart. *)
Lemma store_ok_map_lines db (g : CartItem.t -> CartItem.t) :
  store_ok db →
  (∀ x, x ∈ cartitems db →
     CartItem._id (g x) = CartItem._id x ∧ CartItem.cart (g x) = CartItem.cart x ∧
     CartItem.item_id (g x) = CartItem.item_id x ∧ CartItem.invalid_paths (g x) = []) →
  store_ok (set_cartitems (List.map g (cartitems db)) db).
Proof.
  intros (Hinv & [Hc Hi] & (Hu1 & Hu2 & Hu3) & Hl) Hg.
  assert (Hids : List.map CartItem._id (List.map g (cartitems db))
                 = List.map CartItem._id (cartitems db)).
  { rewrite map_map. apply map_ext_in. intros x Hx%list_elem_of_In.
    by destruct (Hg x Hx) as (-> & _). }
  repeat split; simpl; try done.
  - rewrite Forall_forall in Hi |- *. intros y (x & -> & Hx)%list_elem_of_fmap.
    destruct (Hg x Hx) as (-> & -> & _). by apply Hi.
  - by rewrite Hids.
  - rewrite Forall_forall in Hl |- *. intros y (x & -> & Hx)%list_elem_of_fmap.
    destruct (Hg x Hx) as (Hid & _ & Hitem & Hvalid).
    destruct (Hl x Hx) as (_ & Hnot & Href).
    repeat split; [done | by rewrite Hid | by rewrite Hitem].
Qed.

(** Line items deleted. *)
Lemma store_ok_sub_lines db l :
  store_ok db → l `sublist_of` cartitems db → store_ok (set_cartitems l db).
Proof.
  intros (Hinv & [Hc Hi] & (Hu1 & Hu2 & Hu3) & Hl) Hsub.
  repeat split; simpl; try done.
  - by eapply Forall_sublist.
  - by eapply NoDup_map_sublist.
  - by eapply Forall_sublist.
Qed.

(** Carts deleted. *)
Lemma store_ok_sub_carts db l :
  store_ok db → l `sublist_of` carts db → store_ok (set_carts l db).
Proof.
  intros (Hinv & [Hc Hi] & (Hu1 & Hu2 & Hu3) & Hl) Hsub.
  repeat split; simpl; try done.
  - by eapply Forall_sublist.
  - by eapply NoDup_map_sublist.
Qed.

Lemma map_id_store {D} (id_of : D -> ObjectId) d c :
  existsb (has_id id_of (id_of d)) c = true →
  List.map id_of (store id_of d c) = List.map id_of c.
Proof.
  intros He. unfold store. rewrite He, map_map. apply map_ext.
  intros x. unfold has_id. case_bool_decide; congruence.
Qed.

(** A cart saved: in place when its id is stored, appended when its id is
    above the stored ones. *)
Lemma store_ok_save_cart db c :
  store_ok db → Cart._id c < next_id db →
  (existsb (has_id Cart._id (Cart._id c)) (carts db) = true
   ∨ Forall (fun x => Cart._id x < Cart._id c) (carts db)) →
  store_ok (set_carts (store Cart._id c (carts db)) db).
Proof.
  intros (Hinv & [Hc Hi] & (Hu1 & Hu2 & Hu3) & Hl) Hid Hcase.
  repeat split; simpl; try done.
  - unfold store. destruct (existsb _ (carts db)).
    + rewrite Forall_forall in Hc |- *. intros y (x & -> & Hx)%list_elem_of_fmap.
      destruct (has_id _ _ x); [done | by apply Hc].
    + apply Forall_app. split; [done | by apply Forall_singleton].
  - destruct Hcase as [He | Hlt].
    + by rewrite map_id_store.
    + rewrite store_new by by apply existsb_has_id_below.
      by apply NoDup_map_snoc.
Qed.

Lemma store_ok_save_line db d d' :
  store_ok db →
  findById CartItem._id (CartItem._id d') (cartitems db) = Some d →
  CartItem.cart d' = CartItem.cart d → CartItem.item_id d' = CartItem.item_id d →
  CartItem.invalid_paths d' = [] →
  store_ok (set_cartitems (store CartItem._id d' (cartitems db)) db).
Proof.
  intros Hok Hd Hcart Hitem Hvalid.
  unfold store. rewrite (existsb_has_id_found _ _ _ _ Hd).
  apply store_ok_map_lines; [done|]. intros x Hx.
  destruct (findById_Some _ _ _ _ Hd) as [Hin Hid].
  destruct Hok as (_ & _ & (_ & _ & Hnd) & Hl).
  unfold has_id. case_bool_decide as Hxid.
  - assert (x = d) as -> by (apply (unique_id_eq (cartitems db)); congruence).
    by rewrite Hid.
  - rewrite Forall_forall in Hl. by destruct (Hl x Hx) as (? & _).
Qed.

Lemma assign_updates_cart a s r d :
  CartItem.cart (assign_updates a s r d) = CartItem.cart d.
Proof. by destruct a, s, r. Qed.

Lemma assign_updates_item_id a s r d :
  CartItem.item_id (assign_updates a s r d) = CartItem.item_id d.
Proof. by destruct a, s, r. Qed.

Lemma store_ok_update_cart_item_status id req db :
  store_ok db → store_ok (snd (update_cart_item_status id req db)).
Proof.
  intros Hok. unfold update_cart_item_status.
  destruct (negb _); [done|].
  unfold try_catch, bind, CartItem_findById.
  destruct (findById CartItem._id id (cartitems db)) as [d|] eqn:Hd; [|done].
  destruct (CartItem_save_cases
              (assign_updates (UpdateCartItemStatus.allotted_quantity req)
                 (UpdateCartItemStatus.status req) (UpdateCartItemStatus.remarks req) d) db)
    as [[-> _] | [-> Hvalid]]; [done|].
  simpl. apply (store_ok_save_line db d); try done.
  - rewrite assign_updates_id. by destruct (findById_Some _ _ _ _ Hd) as [_ ->].
  - apply assign_updates_cart.
  - apply assign_updates_item_id.
Qed.

Lemma store_ok_update_items_status_loop ids items : ∀ db,
  store_ok db → store_ok (snd (update_items_status_loop ids items db)).
Proof.
  induction items as [|item rest IH]; intros db Hok; [done|].
  cbn [update_items_status_loop]. unfold bind at 1, CartItem_findById.
  destruct (findById _ _ _) as [d|] eqn:Hd; [|done].
  destruct (CartItem.item_id d) as [| |k] eqn:Hk; [done | done |].
  case_bool_decide; [|by apply IH].
  unfold bind.
  destruct (CartItem_save_cases
              (assign_updates None (UpdateItemsStatus.status item)
                 (UpdateItemsStatus.remarks item) d) db)
    as [[-> _] | [-> Hvalid]]; [done|].
  apply IH. apply (store_ok_save_line db d); try done.
  - rewrite assign_updates_id. by destruct (findById_Some _ _ _ _ Hd) as [_ ->].
  - apply assign_updates_cart.
  - apply assign_updates_item_id.
Qed.

Lemma store_ok_update_items_status items db :
  store_ok db → store_ok (snd (update_items_status items db)).
Proof.
  intros Hok. unfold update_items_status. destruct (negb _); [done|].
  unfold try_catch, bind at 1, Inventory_find. unfold bind.
  pose proof (store_ok_update_items_status_loop
                (List.map Inventory._id (inventories db)) items db Hok) as Hloop.
  by destruct (update_items_status_loop _ items db) as [[[]| |] db'].
Qed.

Lemma set_modified_fields it mem stored :
  CartItem.cart (set_modified it mem stored) = CartItem.cart stored ∧
  CartItem.item_id (set_modified it mem stored) = CartItem.item_id stored ∧
  CartItem.itemName (set_modified it mem stored) = CartItem.itemName stored ∧
  CartItem.ordered_quantity (set_modified it mem stored)
    = CartItem.ordered_quantity stored ∧
  CartItem.link (set_modified it mem stored) = CartItem.link stored ∧
  (CartItem.status (set_modified it mem stored) = CartItem.status stored
   ∨ CartItem.status (set_modified it mem stored) = CartItem.status mem).
Proof.
  unfold set_modified.
  destruct (UpdateMultiple.allotted_quantity it), (UpdateMultiple.status it),
    (UpdateMultiple.remarks it), (CartItem.remarks mem); simpl; auto 10.
Qed.

Lemma set_modified_valid it mem stored :
  CartItem.invalid_paths mem = [] → CartItem.invalid_paths stored = [] →
  CartItem.invalid_paths (set_modified it mem stored) = [].
Proof.
  rewrite !invalid_paths_nil. intros (_ & _ & Hm) (Hn & Hq & Hs).
  destruct (set_modified_fields it mem stored) as (_ & _ & -> & -> & _ & [-> | ->]);
    done.
Qed.

Lemma update_task_valid snap it mem :
  update_task snap it = inr mem → CartItem.invalid_paths mem = [].
Proof.
  unfold update_task. destruct (findById _ _ snap) as [d|]; [|done].
  destruct (CartItem.invalid_paths _) eqn:Hv; [|done]. by intros [= <-].
Qed.

Lemma store_ok_commit_tasks snap items : ∀ db,
  store_ok db →
  store_ok (set_cartitems (foldl (commit_task snap) (cartitems db) items) db).
Proof.
  induction items as [|it items IH]; intros db Hok; simpl.
  - by destruct db.
  - specialize (IH (set_cartitems (commit_task snap (cartitems db) it) db)).
    simpl in IH. apply IH. unfold commit_task.
    destruct (update_task snap it) as [e|mem] eqn:Ht; [by destruct db|].
    apply store_ok_map_lines; [done|]. intros x Hx.
    destruct (has_id CartItem._id (CartItem._id mem) x); [|].
    + destruct (set_modified_fields it mem x) as (Hc & Hi & _).
      repeat split; [apply set_modified_id | done | done |].
      apply set_modified_valid; [by eapply update_task_valid|].
      destruct Hok as (_ & _ & _ & Hl). rewrite Forall_forall in Hl.
      by destruct (Hl x Hx).
    + destruct Hok as (_ & _ & _ & Hl). rewrite Forall_forall in Hl.
      by destruct (Hl x Hx).
Qed.

Lemma store_ok_update_multiple_cart_items items db :
  store_ok db → store_ok (snd (update_multiple_cart_items items db)).
Proof.
  intros Hok. unfold update_multiple_cart_items. destruct (negb _); [done|].
  pose proof (store_ok_commit_tasks (cartitems db) items db Hok).
  by destruct (rejections _).
Qed.

Lemma store_ok_remove_item cart itemName db :
  store_ok db → store_ok (snd (remove_item cart itemName db)).
Proof.
  intros Hok.
  unfold remove_item, try_catch, bind, Cart_findOne, CartItem_findOne,
    CartItem_deleteOne, Cart_deleteOne, respond.
  fold (findById Cart._id cart (carts db)).
  destruct (findById Cart._id cart (carts db)) as [cartDoc|] eqn:Hc; [|done].
  destruct (findOne _ (cartitems db)) as [cartItem|]; [|done].
  assert (Hok1 : store_ok (set_cartitems
                   (deleteOne (has_id CartItem._id (CartItem._id cartItem))
                      (cartitems db)) db))
    by (apply store_ok_sub_lines; [done | apply deleteOne_sublist]).
  case_bool_decide.
  - cbn [snd]. apply (store_ok_sub_carts _ _ Hok1). apply deleteOne_sublist.
  - unfold Cart_save. cbn [Cart._id Cart.with_cartItems carts set_cartitems].
    destruct (findById_Some _ _ _ _ Hc) as [Hin Hid].
    rewrite Hid, (existsb_has_id_found _ _ _ _ Hc). cbn [snd].
    apply (store_ok_save_cart _ (Cart.with_cartItems _ cartDoc) Hok1).
    + destruct Hok as (_ & [Hcarts _] & _). rewrite Forall_forall in Hcarts.
      cbn [Cart._id Cart.with_cartItems set_cartitems next_id]. by apply Hcarts.
    + left. cbn [Cart._id Cart.with_cartItems carts set_cartitems].
      rewrite Hid. by apply (existsb_has_id_found _ _ _ _ Hc).
Qed.

Lemma store_ok_remove_cart cart_id db :
  store_ok db → store_ok (snd (remove_cart cart_id db)).
Proof.
  intros Hok.
  assert (Hr : snd (remove_cart cart_id db)
               = set_cartitems (deleteMany (by_cart cart_id) (cartitems db))
                   (set_carts (deleteOne (has_id Cart._id cart_id) (carts db)) db)).
  { unfold remove_cart, try_catch_ok, bind, Cart_findByIdAndDelete, CartItem_deleteMany.
    by destruct (findById Cart._id cart_id (carts db)). }
  rewrite Hr. apply store_ok_sub_lines; [|apply deleteMany_sublist].
  apply store_ok_sub_carts; [done | apply deleteOne_sublist].
Qed.

Lemma findById_of_elem (l : list CartItem.t) e :
  NoDup (List.map CartItem._id l) → e ∈ l →
  findById CartItem._id (CartItem._id e) l = Some e.
Proof.
  intros Hnd Hin. unfold findById, findOne.
  destruct (find _ _) as [x|] eqn:Hx.
  - apply find_some in Hx as [Hxin Hxid%bool_decide_eq_true_1].
    f_equal. apply (unique_id_eq l); try done. by apply list_elem_of_In.
  - apply list_elem_of_In in Hin.
    eapply find_none in Hx; [|exact Hin]. unfold has_id in Hx.
    by apply bool_decide_eq_false_1 in Hx.
Qed.

(** Closes a goal [store_ok db ∧ ...] whose first part is at hand. *)
Ltac close_ok := split; [done|]; repeat split; simpl; done || lia.

(** The loop of /add-items: the store stays well-formed, the catalog and
    the carts are not touched, and the in-memory cart keeps its id. *)
Lemma add_items_loop_ok items : ∀ cart db o db',
  store_ok db → Cart._id cart < next_id db →
  add_items_loop cart items db = (o, db') →
  store_ok db' ∧ carts db' = carts db ∧
  inventories db' = inventories db ∧ next_id db ≤ next_id db' ∧
  match o with
  | Next cart' => Cart._id cart' = Cart._id cart ∧ Cart.userId cart' = Cart.userId cart
  | _ => True
  end.
Proof.
  induction items as [|item rest IH]; intros cart db o db' Hok Hcart Hrun.
  { injection Hrun as <- <-. close_ok. }
  cbn [add_items_loop] in Hrun. unfold bind at 1, Inventory_findById in Hrun.
  destruct (findById Inventory._id _ (inventories db)) as [inv|] eqn:Hinv.
  2:{ injection Hrun as <- <-. close_ok. }
  unfold bind at 1, CartItem_findOne in Hrun.
  destruct (findOne _ (cartitems db)) as [e|] eqn:He.
  - unfold bind at 1 in Hrun.
    destruct (CartItem_save_cases
                (CartItem.with_ordered_quantity
                   (CartItem.ordered_quantity e + AddItems.ordered_quantity item) e) db)
      as [[Hs _] | [Hs Hvalid]]; rewrite Hs in Hrun.
    { injection Hrun as <- <-. close_ok. }
    assert (Hok1 : store_ok (set_cartitems
                     (store CartItem._id
                        (CartItem.with_ordered_quantity
                           (CartItem.ordered_quantity e + AddItems.ordered_quantity item) e)
                        (cartitems db)) db)).
    { apply findOne_Some in He as [Hin _].
      destruct Hok as (H1 & H2 & (H3 & H4 & Hnd) & H5).
      apply (store_ok_save_line db e); try done.
      by apply (findById_of_elem (cartitems db) e). }
    by destruct (IH cart _ _ _ Hok1 Hcart Hrun) as (? & ? & ? & ? & ?).
  - unfold bind at 1, new_CartItem, bind at 1, new_ObjectId, ret at 1 in Hrun.
    unfold bind at 1 in Hrun.
    match type of Hrun with context [CartItem_save ?d ?s] =>
      destruct (CartItem_save_cases d s) as [[Hs _] | [Hs Hvalid]]; rewrite Hs in Hrun end.
    { injection Hrun as <- <-. split; [by apply store_ok_next_id; [|lia]|].
      repeat split; try done. simpl. lia. }
    cbn [CartItem._id cartitems set_next_id] in Hrun.
    pose proof Hok as (Hinvs & [_ Hlines] & _).
    rewrite store_new in Hrun.
    2:{ apply existsb_has_id_below. eapply Forall_impl; [exact Hlines|]. by intros ? []. }
    apply IH in Hrun as (? & Hc' & Hi' & Hn' & Hm).
    + simpl in Hc', Hi', Hn'. split; [done|]. split; [done|]. split; [done|].
      split; [lia|]. by destruct o.
    + apply (store_ok_new_line (set_next_id (S (next_id db)) db)); simpl; try done.
      * by apply store_ok_next_id; [|lia].
      * eapply Forall_impl; [exact Hlines|]. by intros ? [].
      * lia.
      * apply list_elem_of_fmap. exists inv.
        destruct (findById_Some _ _ _ _ Hinv) as [? ?]. done.
    + simpl. lia.
Qed.

Lemma store_ok_Cart_save c db :
  store_ok db → Cart._id c < next_id db →
  (existsb (has_id Cart._id (Cart._id c)) (carts db) = true
   ∨ Forall (fun x => Cart._id x < Cart._id c) (carts db)) →
  store_ok (snd (Cart_save c db)).
Proof.
  intros Hok Hid Hcase. unfold Cart_save.
  destruct Hcase as [He | Hlt].
  - rewrite He. simpl. apply store_ok_save_cart; [done | done | by left].
  - rewrite (existsb_has_id_below _ _ _ Hlt).
    destruct (existsb _ (carts db)); [done|]. simpl.
    apply store_ok_save_cart; [done | done | by right].
Qed.

(** The cart a handler works on: the stored one, or a new one on the id
    just drawn. *)
Lemma cart_for_ok u db :
  store_ok db →
  ∃ cart db0,
    match findOne (by_userId u) (carts db) with
    | Some cart => ret cart
    | None => new_Cart u
    end db = (Next cart, db0) ∧
    store_ok db0 ∧ carts db0 = carts db ∧
    cartitems db0 = cartitems db ∧ inventories db0 = inventories db ∧
    Cart._id cart < next_id db0 ∧
    (existsb (has_id Cart._id (Cart._id cart)) (carts db) = true
     ∨ Forall (fun x => Cart._id x < Cart._id cart) (carts db)).
Proof.
  intros Hok.
  destruct (findOne (by_userId u) (carts db)) as [c|] eqn:Hc.
  - exists c, db. apply findOne_Some in Hc as [Hin _].
    pose proof Hok as (_ & [Hcarts _] & _). rewrite Forall_forall in Hcarts.
    do 5 (split; [done|]). split; [by apply Hcarts|].
    left. apply existsb_exists. exists c.
    split; [by apply list_elem_of_In | by apply bool_decide_eq_true_2].
  - eexists _, _. split; [reflexivity|]. split; [by apply store_ok_next_id; [|lia]|].
    do 3 (split; [done|]). split; [simpl; lia|].
    right. by destruct Hok as (_ & [Hcarts _] & _).
Qed.

Lemma store_ok_add_items req db :
  store_ok db → store_ok (snd (add_items req db)).
Proof.
  intros Hok. unfold add_items. destruct (negb _); [done|].
  unfold try_catch. unfold bind at 1, Cart_findOne. unfold bind at 1.
  destruct (cart_for_ok (AddItems.userId req) db Hok)
    as (cart & db0 & -> & Hok0 & Hc0 & _ & _ & Hid0 & Hcase).
  unfold bind at 1.
  destruct (add_items_loop cart (AddItems.items req) db0) as [o1 db1] eqn:Hloop.
  destruct (add_items_loop_ok _ _ _ _ _ Hok0 Hid0 Hloop) as (Hok1 & Hc1 & _ & Hn1 & Hcart).
  destruct o1 as [cart'| |]; [|by simpl..].
  destruct Hcart as [Hid' _].
  assert (Hsave : store_ok (snd (Cart_save cart' db1))).
  { apply store_ok_Cart_save; [done | lia | by rewrite Hid', Hc1, Hc0]. }
  unfold bind. by destruct (Cart_save cart' db1) as [[[]| |] db2].
Qed.

Lemma store_ok_add_custom_item req db :
  store_ok db → store_ok (snd (add_custom_item req db)).
Proof.
  intros Hok. unfold add_custom_item. destruct (negb _); [done|].
  unfold try_catch. unfold bind at 1, Cart_findOne. unfold bind at 1.
  destruct (cart_for_ok (AddCustomItem.userId req) db Hok)
    as (cart & db0 & -> & Hok0 & Hc0 & _ & _ & Hid0 & Hcase).
  unfold bind at 1, CartItem_findOne. unfold bind at 1.
  assert (Hfinish : ∀ cart' db1,
            store_ok db1 → carts db1 = carts db0 → next_id db0 ≤ next_id db1 →
            Cart._id cart' = Cart._id cart →
            store_ok
              (snd (let (o, db') :=
                      (let* _ := Cart_save cart' in
                       ret (Res 200 (json_cart cart'))) db1 in
                    match o with
                    | Next r | Return r => (r, db')
                    | Throw e => (Res 500 (error_message e), db')
                    end))).
  { intros cart' db1 Hok1 Hc1 Hn1 Hid'.
    assert (Hsave : store_ok (snd (Cart_save cart' db1))).
    { apply store_ok_Cart_save; [done | lia | by rewrite Hid', Hc1, Hc0]. }
    unfold bind. by destruct (Cart_save cart' db1) as [[[]| |] db2]. }
  destruct (findOne _ (cartitems db0)) as [e|] eqn:He.
  - unfold bind at 1.
    match goal with |- context [CartItem_save ?d ?s] =>
      destruct (CartItem_save_cases d s) as [[-> _] | [-> Hvalid]] end; [done|].
    unfold ret at 1. apply Hfinish; try done.
    apply findOne_Some in He as [Hin _].
    pose proof Hok0 as (_ & _ & (_ & _ & Hnd) & _).
    apply (store_ok_save_line db0 e); try done.
    + replace (CartItem._id _) with (CartItem._id e)
        by (by destruct (AddCustomItem.link req)).
      by apply findById_of_elem.
    + by destruct (AddCustomItem.link req).
    + by destruct (AddCustomItem.link req).
  - unfold bind at 1, new_CartItem, bind at 1, new_ObjectId, ret at 1.
    unfold bind at 1.
    match goal with |- context [CartItem_save ?d ?s] =>
      destruct (CartItem_save_cases d s) as [[-> _] | [-> Hvalid]] end.
    { simpl. by apply store_ok_next_id; [|lia]. }
    unfold ret at 1. cbn [CartItem._id cartitems set_next_id].
    pose proof Hok0 as (Hinvs & [_ Hlines] & _).
    rewrite store_new.
    2:{ apply existsb_has_id_below. eapply Forall_impl; [exact Hlines|]. by intros ? []. }
    apply Hfinish; simpl; try done; [|lia].
    apply (store_ok_new_line (set_next_id (S (next_id db0)) db0)); simpl; try done.
    + by apply store_ok_next_id; [|lia].
    + eapply Forall_impl; [exact Hlines|]. by intros ? [].
    + lia.
Qed.

(** ** The catalog routes *)

Lemma store_ok_post_inventory req db :
  store_ok db → store_ok (snd (post_inventory req db)).
Proof.
  intros Hok. unfold post_inventory. destruct (negb _); [done|].
  unfold try_catch, bind at 1, new_Inventory, bind at 1, new_ObjectId, ret at 1.
  unfold bind, Inventory_save.
  assert (Hok0 : store_ok (set_next_id (S (next_id db)) db))
    by (by apply store_ok_next_id; [|lia]).
  destruct (Inventory.invalid_paths _); [|done].
  destruct (existsb _ _); [done|]. cbn [snd inventories set_next_id].
  destruct Hok as (Hinv & [Hc Hi] & (Hu1 & Hu2 & Hu3) & Hl).
  repeat split; simpl; try done.
  - apply Forall_app. split; [|apply Forall_singleton; simpl; lia].
    eapply Forall_impl; [exact Hinv | simpl; lia].
  - eapply Forall_impl; [exact Hc | simpl; lia].
  - eapply Forall_impl; [exact Hi | simpl; lia].
  - apply NoDup_map_snoc; [done|]. done.
  - rewrite Forall_forall in Hl, Hi |- *. intros d Hin.
    pose proof (Hl d Hin) as Hd. destruct (Hi d Hin) as [Hid _].
    rewrite map_app. simpl.
    apply (line_ok_ids (List.map Inventory._id (inventories db))); [| |done].
    + intros k Hk. apply elem_of_app. by left.
    + intros [Hk | Hk%list_elem_of_singleton]%elem_of_app;
        [by destruct Hd as (_ & ? & _)|].
      lia.
Qed.

Lemma store_ok_same_catalog_ids db l :
  store_ok db → List.map Inventory._id l = List.map Inventory._id (inventories db) →
  store_ok (set_inventories l db).
Proof.
  intros (Hinv & [Hc Hi] & (Hu1 & Hu2 & Hu3) & Hl) Hids.
  repeat split; simpl; try done.
  - apply (Forall_fmap Inventory._id (fun i => i < next_id db)) in Hinv.
    apply (Forall_fmap Inventory._id (fun i => i < next_id db)).
    change (Forall (fun i => i < next_id db) (List.map Inventory._id l)).
    by rewrite Hids.
  - by rewrite Hids.
  - by rewrite Hids.
Qed.

Lemma map_id_updateOne {D} (id_of : D -> ObjectId) q (f : D -> D) c :
  (∀ d, id_of (f d) = id_of d) →
  List.map id_of (updateOne q f c) = List.map id_of c.
Proof.
  intros Hf. induction c as [|d c IH]; simpl; [done|].
  destruct (q d); simpl; by rewrite ?Hf, ?IH.
Qed.

Lemma store_ok_put_inventory id req db :
  store_ok db → store_ok (snd (put_inventory id req db)).
Proof.
  intros Hok. unfold put_inventory. destruct (negb _); [done|].
  unfold try_catch_ok, bind, Inventory_findByIdAndUpdate.
  destruct (findById _ _ _) as [d|]; [|done].
  destruct (existsb _ _); [done|]. simpl.
  apply store_ok_same_catalog_ids; [done|]. by apply map_id_updateOne.
Qed.

Lemma map_id_commit_annotations snap items : ∀ c,
  List.map Inventory._id (foldl (commit_annotation snap) c items)
  = List.map Inventory._id c.
Proof.
  induction items as [|it items IH]; intros c; simpl; [done|].
  rewrite IH. unfold commit_annotation.
  destruct (annotate_task snap it); [done|].
  rewrite map_map. apply map_ext. intros d. by destruct (has_id _ _ d).
Qed.

Lemma store_ok_update_inventory_items items db :
  store_ok db → store_ok (snd (update_inventory_items items db)).
Proof.
  intros Hok. unfold update_inventory_items.
  assert (store_ok (set_inventories
            (foldl (commit_annotation (inventories db)) (inventories db) items) db))
    by (apply store_ok_same_catalog_ids; [done | apply map_id_commit_annotations]).
  by destruct (rejections _).
Qed.

Lemma elem_of_map_id_deleteOne (l : list Inventory.t) id k :
  k ∈ List.map Inventory._id l → k ≠ id →
  k ∈ List.map Inventory._id (deleteOne (has_id Inventory._id id) l).
Proof.
  intros Hk Hne. induction l as [|d l IH]; simpl in *; [done|].
  apply elem_of_cons in Hk as [-> | Hk].
  - unfold has_id. rewrite bool_decide_eq_false_2 by done. simpl. by left.
  - destruct (has_id Inventory._id id d); [done|]. simpl. right. by apply IH.
Qed.

Lemma store_ok_delete_inventory id db :
  store_ok db → store_ok (snd (delete_inventory id db)).
Proof.
  intros Hok.
  assert (Hr : snd (delete_inventory id db)
               = set_cartitems (deleteMany (by_item_id id) (cartitems db))
                   (set_inventories
                      (deleteOne (has_id Inventory._id id) (inventories db)) db)).
  { unfold delete_inventory, try_catch, bind, Inventory_findByIdAndDelete,
      CartItem_deleteMany. by destruct (findById Inventory._id id (inventories db)). }
  rewrite Hr. destruct Hok as (Hinv & [Hc Hi] & (Hu1 & Hu2 & Hu3) & Hl).
  repeat split; simpl; try done.
  - eapply Forall_sublist; [exact Hinv | apply deleteOne_sublist].
  - eapply Forall_sublist; [exact Hi | apply deleteMany_sublist].
  - eapply NoDup_map_sublist; [exact Hu1 | apply deleteOne_sublist].
  - eapply NoDup_map_sublist; [exact Hu3 | apply deleteMany_sublist].
  - rewrite Forall_forall in Hl |- *. intros d [Hd Hq]%deleteMany_elem.
    destruct (Hl d Hd) as (Hv & Hid & Href). repeat split; [done | |].
    + intros Hin. apply Hid. eapply elem_of_sublist; [exact Hin|].
      apply (fmap_sublist Inventory._id), deleteOne_sublist.
    + unfold by_item_id in Hq. apply bool_decide_eq_false_1 in Hq.
      destruct (CartItem.item_id d) as [| |k]; try done. simpl in *.
      apply elem_of_map_id_deleteOne; [done | congruence].
Qed.

Lemma store_ok_serve r db :
  store_ok db → store_ok (serve r db).
Proof.
  intros Hok. destruct r; simpl.
  - by apply store_ok_add_items.
  - by apply store_ok_add_custom_item.
  - by apply store_ok_remove_item.
  - by apply store_ok_update_cart_item_status.
  - by apply store_ok_update_multiple_cart_items.
  - by apply store_ok_update_items_status.
  - by apply store_ok_remove_cart.
  - by apply store_ok_post_inventory.
  - by apply store_ok_delete_inventory.
  - by apply store_ok_put_inventory.
  - by apply store_ok_update_inventory_items.
Qed.

Lemma store_ok_empty : store_ok empty_db.
Proof. repeat split; simpl; constructor. Qed.

Lemma serve_all_snoc rs r : serve_all (rs ++ [r]) = serve r (serve_all rs).
Proof. unfold serve_all. by rewrite foldl_app. Qed.

Lemma reachable_store_ok db : reachable db → store_ok db.
Proof.
  intros [rs ->]. induction rs as [|r rs IH] using rev_ind.
  - apply store_ok_empty.
  - rewrite serve_all_snoc. by apply store_ok_serve.
Qed.

Lemma sample_db_reached : serve_all sample_requests = sample_db.
Proof. reflexivity. Qed.

Lemma store_ok_sample : store_ok sample_db.
Proof. apply reachable_store_ok. exists sample_requests. by rewrite sample_db_reached. Qed.

(** X2. Every store reached from the empty one by requests served one
    after the other has fresh ids, unique ids in each collection, and line
    item ids apart from the ids that name catalog items. *)
Theorem reachable_well_formed db :
  reachable db → fresh_ids db ∧ unique_ids db ∧ line_ids_apart db.
Proof.
  intros (Hinv & Hfresh & Huniq & Hl)%reachable_store_ok.
  split; [done|]. split; [done|].
  unfold line_ids_apart. rewrite Forall_forall in Hl |- *.
  intros d Hd. destruct (Hl d Hd) as (_ & Hid & _). split; [done|].
  rewrite Forall_forall. intros d' Hd' Heq.
  destruct (Hl d' Hd') as (_ & _ & Href). rewrite Heq in Href. by apply Hid.
Qed.

(** The theorem at work on [sample_db]. *)
Lemma reachable_well_formed_witness :
  fresh_ids sample_db ∧ unique_ids sample_db ∧ line_ids_apart sample_db.
Proof.
  apply (reachable_well_formed sample_db).
  exists sample_requests. reflexivity.
Defined.

(** X3. In every reachable store each line item has a non-empty name, a
    requested quantity of at least 1 and a status of the schema's enum,
    and it holds the [item_id] path, as [null] on a custom item and as the
    id its request named otherwise: no route stores a line item without
    that path. *)
Theorem reachable_lines_valid db d :
  reachable db → d ∈ cartitems db →
  CartItem.itemName d ≠ "" ∧ (1 ≤ CartItem.ordered_quantity d)%Z ∧
  CartItem.status d ∈ CartItem.status_enum ∧
  CartItem.item_id d ≠ undefined.
Proof.
  intros (_ & _ & _ & Hl)%reachable_store_ok Hd.
  rewrite Forall_forall in Hl. destruct (Hl d Hd) as (Hv & _ & Href).
  apply invalid_paths_nil in Hv as (? & ? & ?). do 3 (split; [done|]).
  by destruct (CartItem.item_id d).
Qed.

(** The theorem at work on the glue line of [sample_db]. *)
Lemma reachable_lines_valid_witness :
  CartItem.itemName (catalog_line 2 1 0 "Glue" 3) ≠ "" ∧
  (1 ≤ CartItem.ordered_quantity (catalog_line 2 1 0 "Glue" 3))%Z ∧
  CartItem.status (catalog_line 2 1 0 "Glue" 3) ∈ CartItem.status_enum ∧
  CartItem.item_id (catalog_line 2 1 0 "Glue" 3) ≠ undefined.
Proof.
  apply (reachable_lines_valid sample_db (catalog_line 2 1 0 "Glue" 3)).
  - exists sample_requests. reflexivity.
  - apply elem_of_cons. by left.
Defined.

(** * More on /add-items *)

(** X4. An /add-items request whose first item is a catalog item the cart
    does not hold yet and whose second item names no catalog item is
    answered 404 for that second item, but it is not undone: the line item
    of the first item stays in the store, while no cart is created or
    updated, so that no cart references the new line item.  The carts
    refer to ids drawn before the request, as they do in every store the
    routes write. *)
Theorem add_items_partial_commit db u good q inv bad rest :
  fresh_ids db →
  Forall (fun c => Forall (fun i => i < next_id db) (Cart.cartItems c)) (carts db) →
  findById Inventory._id good (inventories db) = Some inv →
  Inventory.itemName inv ≠ "" →
  AddItems.valid (add_then_unknown u good q bad rest) = true →
  (∀ c, findOne (by_userId u) (carts db) = Some c →
        List.filter (by_cart_item_id (Cart._id c) good) (cartitems db) = []) →
  findById Inventory._id (AddItems.item_id bad) (inventories db) = None →
  let r := add_items (add_then_unknown u good q bad rest) db in
  fst r = Res 404 (error_id "Item with ID " (AddItems.item_id bad)
                     " not found in inventory") ∧
  carts (snd r) = carts db ∧
  ∃ n c, cartitems (snd r)
         = cartitems db ++ [catalog_line n c good (Inventory.itemName inv) q] ∧
         Forall (fun c' => n ∉ Cart.cartItems c') (carts (snd r)) ∧
         (findOne (by_userId u) (carts db) = None →
          findById Cart._id c (carts (snd r)) = None).
Proof.
  intros [Hcarts Hitems] Hrefs Hinv Hname Hvalid Hnone Hbad.
  assert (Hq : (1 ≤ q)%Z).
  { unfold AddItems.valid in Hvalid. simpl in Hvalid.
    apply andb_true_iff in Hvalid as [Hq _]. by apply bool_decide_eq_true_1 in Hq. }
  assert (Hids : Forall (fun d => CartItem._id d < next_id db) (cartitems db))
    by (eapply Forall_impl; [exact Hitems | by intros ? []]).
  assert (Hr : ∃ n c m,
            add_items (add_then_unknown u good q bad rest) db
            = (Res 404 (error_id "Item with ID " (AddItems.item_id bad)
                          " not found in inventory"),
               set_cartitems
                 (cartitems db ++ [catalog_line n c good (Inventory.itemName inv) q])
                 (set_next_id m db)) ∧
            next_id db ≤ n ∧
            (findOne (by_userId u) (carts db) = None →
             findById Cart._id c (carts db) = None)).
  { unfold add_items. rewrite Hvalid. unfold add_then_unknown.
    cbn [negb AddItems.userId AddItems.items].
    unfold try_catch. unfold bind at 1, Cart_findOne. unfold bind at 1.
    assert (Hstop : ∀ cart db1, inventories db1 = inventories db →
              add_items_loop cart (bad :: rest) db1
              = (Return (Res 404 (error_id "Item with ID " (AddItems.item_id bad)
                                    " not found in inventory")), db1)).
    { intros cart db1 Hsame. cbn [add_items_loop].
      unfold bind, Inventory_findById. by rewrite Hsame, Hbad. }
    destruct (findOne (by_userId u) (carts db)) as [c|] eqn:Hc.
    - specialize (Hnone c eq_refl). unfold ret at 1. unfold bind at 1.
      rewrite (add_items_loop_create db c good q inv)
        by (try done; by apply findOne_None_filter).
      rewrite Hstop by done. by exists (next_id db), (Cart._id c), (S (next_id db)).
    - unfold new_Cart, bind at 1, new_ObjectId, ret at 1. unfold bind at 1.
      set (c := {| Cart._id := next_id db; Cart.userId := u; Cart.cartItems := [] |}).
      set (db0 := set_next_id (S (next_id db)) db).
      rewrite (add_items_loop_create db0 c good q inv); try done.
      + rewrite Hstop by done.
        exists (S (next_id db)), (next_id db), (S (S (next_id db))).
        split; [done|]. split; [lia|]. intros _. apply (findById_existsb Cart._id).
        by apply existsb_has_id_below.
      + apply findOne_None_filter. simpl.
        clear -Hitems. induction Hitems as [|d l [_ Hd] _ IH]; simpl; [done|].
        unfold by_cart_item_id at 1. rewrite bool_decide_eq_false_2 by lia. done.
      + simpl. eapply Forall_impl; [exact Hids | simpl; lia]. }
  destruct Hr as (n & c & m & Hr & Hn & Horphan). cbv zeta. rewrite Hr.
  split; [done|]. split; [done|]. exists n, c. split; [done|]. split; [|done].
  cbn [snd carts set_cartitems set_next_id].
  eapply Forall_impl; [exact Hrefs|]. intros c' Hc' Hin.
  rewrite Forall_forall in Hc'. specialize (Hc' n Hin). lia.
Qed.

(** The theorem at work on [sample_db]: requester 9, who has no cart, asks
    for glue and for an item that is not in the catalog. *)
Lemma add_items_partial_commit_witness :
  let bad := {| AddItems.item_id := 50; AddItems.ordered_quantity := 1 |} in
  let r := add_items (add_then_unknown 9 0 3 bad []) sample_db in
  fst r = Res 404 (error_id "Item with ID " 50 " not found in inventory") ∧
  carts (snd r) = carts sample_db ∧
  ∃ n c, cartitems (snd r) = cartitems sample_db ++ [catalog_line n c 0 "Glue" 3] ∧
         Forall (fun c' => n ∉ Cart.cartItems c') (carts (snd r)) ∧
         (findOne (by_userId 9) (carts sample_db) = None →
          findById Cart._id c (carts (snd r)) = None).
Proof.
  apply (add_items_partial_commit sample_db 9 0 3 glue
           {| AddItems.item_id := 50; AddItems.ordered_quantity := 1 |} []).
  - split; by apply (bool_decide_unpack _).
  - by apply (bool_decide_unpack _).
  - reflexivity.
  - discriminate.
  - reflexivity.
  - intros c Hc. discriminate Hc.
  - reflexivity.
Defined.

(** The loop, one item at a time. *)
Lemma add_items_loop_cons cart item rest db :
  add_items_loop cart (item :: rest) db
  = match add_items_loop cart [item] db with
    | (Next cart', db1) => add_items_loop cart' rest db1
    | (Return r, db1) => (Return r, db1)
    | (Throw e, db1) => (Throw e, db1)
    end.
Proof.
  cbn [add_items_loop].
  unfold Inventory_findById, CartItem_findOne, new_CartItem, new_ObjectId.
  unfold bind, ret.
  destruct (findById _ _ _) as [inv|]; [|done].
  destruct (findOne _ _) as [e|]; cbv beta iota.
  - destruct (CartItem_save (CartItem.with_ordered_quantity
          (CartItem.ordered_quantity e + AddItems.ordered_quantity item) e) db)
      as [[| |] ?]; done.
  - match goal with |- context [CartItem_save ?x ?s] =>
      by destruct (CartItem_save x s) as [[| |] ?] end.
Qed.

Lemma grown_refl d : grown d d.
Proof. split; [by destruct d | lia]. Qed.

Lemma grown_trans d1 d2 d3 : grown d1 d2 → grown d2 d3 → grown d1 d3.
Proof.
  intros [H12 Hq12] [H23 Hq23]. split; [|lia].
  rewrite H23 at 1. rewrite H12 at 1. done.
Qed.

Lemma add_items_one_grows cart item db o db1 :
  store_ok db → (0 ≤ AddItems.ordered_quantity item)%Z →
  add_items_loop cart [item] db = (o, db1) →
  ∀ i d, findById CartItem._id i (cartitems db) = Some d →
    ∃ d', findById CartItem._id i (cartitems db1) = Some d' ∧ grown d d'.
Proof.
  intros Hok Hq Hrun i d Hd.
  assert (Hsame : cartitems db1 = cartitems db → ∃ d',
            findById CartItem._id i (cartitems db1) = Some d' ∧ grown d d').
  { intros ->. exists d. split; [done | apply grown_refl]. }
  cbn [add_items_loop] in Hrun. unfold bind at 1, Inventory_findById in Hrun.
  destruct (findById Inventory._id _ _) as [inv|]; [|by injection Hrun as <- <-; auto].
  unfold bind at 1, CartItem_findOne in Hrun.
  destruct (findOne _ (cartitems db)) as [e|] eqn:He.
  - unfold bind at 1 in Hrun.
    match type of Hrun with context [CartItem_save ?x ?s] =>
      destruct (CartItem_save_cases x s) as [[Hs _] | [Hs _]]; rewrite Hs in Hrun end;
      injection Hrun as <- <-; [auto|].
    cbn [cartitems set_cartitems]. rewrite findById_store. cbn [CartItem._id
      CartItem.with_ordered_quantity].
    case_bool_decide as Hi; [|exists d; split; [done | apply grown_refl]].
    subst i. apply findOne_Some in He as [Hin _].
    destruct Hok as (_ & _ & (_ & _ & Hnd) & _).
    rewrite (findById_of_elem _ _ Hnd Hin) in Hd. injection Hd as <-.
    eexists. split; [done|]. split; [done | simpl; lia].
  - unfold bind at 1, new_CartItem, bind at 1, new_ObjectId, ret at 1 in Hrun.
    unfold bind at 1 in Hrun.
    match type of Hrun with context [CartItem_save ?x ?s] =>
      destruct (CartItem_save_cases x s) as [[Hs _] | [Hs _]]; rewrite Hs in Hrun end;
      injection Hrun as <- <-; [auto|].
    cbn [cartitems set_cartitems set_next_id CartItem._id].
    destruct Hok as (_ & [_ Hlines] & _).
    rewrite store_new.
    2:{ apply existsb_has_id_below. eapply Forall_impl; [exact Hlines|]. by intros ? []. }
    exists d. split; [|apply grown_refl].
    unfold findById. rewrite findOne_app. fold (findById CartItem._id i (cartitems db)).
    by rewrite Hd.
Qed.

Lemma add_items_loop_grows items : ∀ cart db o db',
  store_ok db → Cart._id cart < next_id db →
  Forall (fun it => 0 ≤ AddItems.ordered_quantity it)%Z items →
  add_items_loop cart items db = (o, db') →
  ∀ i d, findById CartItem._id i (cartitems db) = Some d →
    ∃ d', findById CartItem._id i (cartitems db') = Some d' ∧ grown d d'.
Proof.
  induction items as [|item rest IH]; intros cart db o db' Hok Hcart Hq Hrun i d Hd.
  { injection Hrun as <- <-. exists d. split; [done | apply grown_refl]. }
  apply Forall_cons in Hq as [Hq Hrest].
  rewrite add_items_loop_cons in Hrun.
  destruct (add_items_loop cart [item] db) as [o1 db1] eqn:Hone.
  destruct (add_items_one_grows _ _ _ _ _ Hok Hq Hone i d Hd) as (d1 & Hd1 & Hg1).
  destruct (add_items_loop_ok _ _ _ _ _ Hok Hcart Hone) as (Hok1 & _ & _ & Hn1 & Hc1).
  destruct o1 as [cart1| |]; try (injection Hrun as <- <-; by exists d1).
  destruct Hc1 as [Hid1 _].
  destruct (IH cart1 db1 o db' Hok1 ltac:(lia) Hrest Hrun i d1 Hd1) as (d' & Hd' & Hg').
  exists d'. split; [done|]. by eapply grown_trans.
Qed.

(** X5. On a well-formed store, whatever an /add-items request asks for and
    however it is answered, every line item that was stored is still
    stored under its id afterwards, unchanged but for its requested
    quantity, which is at least what it was: an add never removes a line
    item, never touches its allotted quantity, status, remark or link, and
    never lowers what was requested. *)
Theorem add_items_only_grows req db i d :
  store_ok db →
  findById CartItem._id i (cartitems db) = Some d →
  ∃ d', findById CartItem._id i (cartitems (snd (add_items req db))) = Some d' ∧
        grown d d'.
Proof.
  intros Hok Hd. unfold add_items.
  destruct (AddItems.valid req) eqn:Hvalid; cbn [negb];
    [|exists d; split; [done | apply grown_refl]].
  unfold try_catch. unfold bind at 1, Cart_findOne. unfold bind at 1.
  destruct (cart_for_ok (AddItems.userId req) db Hok)
    as (cart & db0 & -> & Hok0 & _ & Hi0 & _ & Hid0 & _).
  unfold bind at 1.
  destruct (add_items_loop cart (AddItems.items req) db0) as [o1 db1] eqn:Hloop.
  assert (Hq : Forall (fun it => 0 ≤ AddItems.ordered_quantity it)%Z (AddItems.items req)).
  { unfold AddItems.valid in Hvalid. rewrite forallb_forall in Hvalid.
    apply Forall_forall. intros it Hit%list_elem_of_In.
    specialize (Hvalid it Hit). apply bool_decide_eq_true_1 in Hvalid. lia. }
  rewrite <- Hi0 in Hd.
  destruct (add_items_loop_grows _ _ _ _ _ Hok0 Hid0 Hq Hloop i d Hd) as (d' & Hd' & Hg).
  exists d'. split; [|done].
  destruct o1 as [cart'| |]; [|done..].
  unfold bind, Cart_save.
  by repeat (destruct (existsb _ _)).
Qed.

(** The theorem at work on [sample_db]: requester 7 asks for more glue. *)
Lemma add_items_only_grows_witness :
  ∃ d', findById CartItem._id 2
          (cartitems (snd (add_items (single_add 7 0 5) sample_db))) = Some d' ∧
        grown (catalog_line 2 1 0 "Glue" 3) d'.
Proof.
  apply (add_items_only_grows (single_add 7 0 5) sample_db 2
           (catalog_line 2 1 0 "Glue" 3)).
  - repeat split; simpl; repeat constructor; simpl; try lia;
      try (by apply (bool_decide_unpack _)).
  - reflexivity.
Defined.

(** * More on the update routes *)



(** A delta with a sign passes [isInt({ min: 0 })] as well; appended to
    the digits of the stored quantity it spells no number, the cast fails,
    and the request is answered 500 with the store as it was. *)
Example update_status_signed_delta_fails :
  Wire.isInt 0 (Wire.text "+2") = true ∧
  Wire.update_cart_item_status "00000000000000000000000c"
    (Wire.status_update (Some (Wire.text "+2")) None None) Wire.allotted_db
  = Some (Wire.Res 500 (Wire.error_message (ValidationError ["allotted_quantity"])),
          Wire.allotted_db).
Proof. vm_compute. done. Qed.

Lemma assign_updates_as_requested a s r d :
  as_requested (assign_updates a s r d) = as_requested d.
Proof. by destruct a, s, r. Qed.

Lemma set_modified_as_requested it mem stored :
  as_requested (set_modified it mem stored) = as_requested stored.
Proof.
  unfold set_modified.
  by destruct (UpdateMultiple.allotted_quantity it), (UpdateMultiple.status it),
    (UpdateMultiple.remarks it), (CartItem.remarks mem).
Qed.

Lemma as_requested_store db d d0 i :
  findById CartItem._id (CartItem._id d) (cartitems db) = Some d0 →
  as_requested d = as_requested d0 →
  as_requested <$> findById CartItem._id i (store CartItem._id d (cartitems db))
  = as_requested <$> findById CartItem._id i (cartitems db).
Proof.
  intros Hd0 Hsame. rewrite findById_store.
  case_bool_decide as Hi; [|done]. subst i. rewrite Hd0. simpl. by rewrite Hsame.
Qed.

Lemma as_requested_lenient_loop ids items : ∀ db i,
  as_requested <$> findById CartItem._id i
                     (cartitems (snd (update_items_status_loop ids items db)))
  = as_requested <$> findById CartItem._id i (cartitems db).
Proof.
  induction items as [|item rest IH]; intros db i; [done|].
  cbn [update_items_status_loop]. unfold bind at 1, CartItem_findById.
  destruct (findById CartItem._id (UpdateItemsStatus._id item) (cartitems db))
    as [d|] eqn:Hd; [|done].
  destruct (CartItem.item_id d) as [| |k]; [done | done |].
  case_bool_decide; [|by apply IH].
  unfold bind.
  match goal with |- context [CartItem_save ?x ?s] =>
    destruct (CartItem_save_cases x s) as [[-> _] | [-> _]] end; [done|].
  rewrite IH. cbn [cartitems set_cartitems]. apply (as_requested_store _ _ d).
  - rewrite assign_updates_id. by destruct (findById_Some _ _ _ _ Hd) as [_ ->].
  - apply assign_updates_as_requested.
Qed.

Lemma as_requested_commit_tasks snap items : ∀ c i,
  as_requested <$> findById CartItem._id i (foldl (commit_task snap) c items)
  = as_requested <$> findById CartItem._id i c.
Proof.
  induction items as [|it items IH]; intros c i; simpl; [done|].
  rewrite IH. unfold commit_task.
  destruct (update_task snap it) as [e|mem]; [done|].
  destruct (decide (i = CartItem._id mem)) as [->|Hne].
  - rewrite findById_replace_same by apply set_modified_id.
    destruct (findById _ _ c); [|done]. simpl. by rewrite set_modified_as_requested.
  - by rewrite findById_replace_other by (apply set_modified_id || done).
Qed.

Lemma lenient_loop_frame ids items : ∀ db o db',
  update_items_status_loop ids items db = (o, db') →
  inventories db' = inventories db ∧ carts db' = carts db.
Proof.
  induction items as [|item rest IH]; intros db o db' Hrun.
  { by injection Hrun as <- <-. }
  cbn [update_items_status_loop] in Hrun. unfold bind at 1, CartItem_findById in Hrun.
  destruct (findById _ _ _) as [d|]; [|by injection Hrun as <- <-].
  destruct (CartItem.item_id d) as [| |k]; try (by injection Hrun as <- <-).
  case_bool_decide; [|by apply IH in Hrun]. unfold bind in Hrun.
  match type of Hrun with context [CartItem_save ?x ?y] =>
    destruct (CartItem_save_cases x y) as [[Hs _] | [Hs _]]; rewrite Hs in Hrun end;
    [by injection Hrun as <- <-|].
  by apply IH in Hrun as [-> ->].
Qed.

(** X7. No update route rewrites what was requested: whatever the request
    and however it is answered, after /update-cart-item-status,
    /update-multiple-cart-items and /update-items-status every line item
    id resolves exactly when it did before, to a line item with the same
    cart, catalog reference, name, requested quantity and link; the
    catalog and the carts are left as they were. *)
Theorem updates_keep_requests db i cartItemId req items batch :
  let after1 := snd (update_cart_item_status cartItemId req db) in
  let after2 := snd (update_multiple_cart_items items db) in
  let after3 := snd (update_items_status batch db) in
  (as_requested <$> findById CartItem._id i (cartitems after1)
   = as_requested <$> findById CartItem._id i (cartitems db)) ∧
  (as_requested <$> findById CartItem._id i (cartitems after2)
   = as_requested <$> findById CartItem._id i (cartitems db)) ∧
  (as_requested <$> findById CartItem._id i (cartitems after3)
   = as_requested <$> findById CartItem._id i (cartitems db)) ∧
  (inventories after1 = inventories db ∧ carts after1 = carts db) ∧
  (inventories after2 = inventories db ∧ carts after2 = carts db) ∧
  (inventories after3 = inventories db ∧ carts after3 = carts db).
Proof.
  assert (H1 : ∃ l, snd (update_cart_item_status cartItemId req db) = set_cartitems l db
               ∧ as_requested <$> findById CartItem._id i l
                 = as_requested <$> findById CartItem._id i (cartitems db)).
  { unfold update_cart_item_status. destruct (negb _); [exists (cartitems db); by destruct db|].
    unfold try_catch, bind, CartItem_findById.
    destruct (findById _ cartItemId _) as [d|] eqn:Hd;
      [|exists (cartitems db); by destruct db].
    match goal with |- context [CartItem_save ?x ?s] =>
      destruct (CartItem_save_cases x s) as [[-> _] | [-> _]] end;
      [exists (cartitems db); by destruct db|].
    eexists. split; [done|]. apply (as_requested_store _ _ d).
    - rewrite assign_updates_id. by destruct (findById_Some _ _ _ _ Hd) as [_ ->].
    - apply assign_updates_as_requested. }
  assert (H2 : ∃ l, snd (update_multiple_cart_items items db) = set_cartitems l db
               ∧ as_requested <$> findById CartItem._id i l
                 = as_requested <$> findById CartItem._id i (cartitems db)).
  { unfold update_multiple_cart_items.
    destruct (negb _); [exists (cartitems db); by destruct db|].
    eexists. split; [by destruct (rejections _)|].
    apply as_requested_commit_tasks. }
  assert (H3 : inventories (snd (update_items_status batch db)) = inventories db
               ∧ carts (snd (update_items_status batch db)) = carts db
               ∧ as_requested <$> findById CartItem._id i
                                    (cartitems (snd (update_items_status batch db)))
                 = as_requested <$> findById CartItem._id i (cartitems db)).
  { unfold update_items_status. destruct (negb _); [done|].
    unfold try_catch, bind at 1, Inventory_find. unfold bind.
    pose proof (as_requested_lenient_loop
                  (List.map Inventory._id (inventories db)) batch db i) as Hloop.
    destruct (update_items_status_loop _ batch db) as [o db'] eqn:Hrun.
    destruct (lenient_loop_frame _ _ _ _ _ Hrun) as [Hi Hc]. simpl in Hloop.
    by destruct o as [[]| |]. }
  destruct H1 as (l1 & -> & E1), H2 as (l2 & -> & E2), H3 as (Hi3 & Hc3 & E3).
  cbv zeta. by repeat split.
Qed.

(** The loop of /update-items-status on a batch cut in two. *)
Lemma lenient_loop_app ids pre rest : ∀ db,
  update_items_status_loop ids (pre ++ rest) db
  = match update_items_status_loop ids pre db with
    | (Next _, db1) => update_items_status_loop ids rest db1
    | (Return r, db1) => (Return r, db1)
    | (Throw e, db1) => (Throw e, db1)
    end.
Proof.
  induction pre as [|item pre IH]; intros db; [done|].
  cbn [app update_items_status_loop]. unfold bind at 1 3, CartItem_findById.
  destruct (findById _ _ _) as [d|]; [|done].
  destruct (CartItem.item_id d) as [| |k]; [done | done |].
  case_bool_decide; [|apply IH]. unfold bind.
  match goal with |- context [CartItem_save ?x ?y] =>
    destruct (CartItem_save x y) as [[| |] ?] end; [apply IH | done | done].
Qed.

Lemma lenient_valid_app pre rest :
  UpdateItemsStatus.valid (pre ++ rest) = true →
  UpdateItemsStatus.valid pre = true ∧ UpdateItemsStatus.valid rest = true.
Proof. unfold UpdateItemsStatus.valid. rewrite forallb_app. apply andb_true_iff. Qed.

(** What the handler answers, read off its loop. *)
Lemma update_items_status_run items db :
  UpdateItemsStatus.valid items = true →
  update_items_status items db
  = match update_items_status_loop (List.map Inventory._id (inventories db)) items db with
    | (Next _, db1) => (Res 200 (message_text "Cart items updated successfully."), db1)
    | (Return r, db1) => (r, db1)
    | (Throw e, db1) => (Res 500 (error_message e), db1)
    end.
Proof.
  intros Hv. unfold update_items_status. rewrite Hv. cbn [negb].
  unfold try_catch, bind at 1, Inventory_find. unfold bind.
  by destruct (update_items_status_loop _ items db) as [[[]| |] ?].
Qed.

Lemma lenient_loop_return ids items : ∀ db r db',
  update_items_status_loop ids items db = (Return r, db') → status_code r = 404%Z.
Proof.
  induction items as [|item rest IH]; intros db r db' Hloop; [done|].
  cbn [update_items_status_loop] in Hloop. unfold bind at 1, CartItem_findById in Hloop.
  destruct (findById _ _ _) as [d|]; [|by injection Hloop as <- <-].
  destruct (CartItem.item_id d) as [| |k]; [done | done |].
  case_bool_decide; [|by eapply IH]. unfold bind in Hloop.
  match type of Hloop with context [CartItem_save ?x ?y] =>
    destruct (CartItem_save_cases x y) as [[Hs _] | [Hs _]]; rewrite Hs in Hloop end;
    [done | by eapply IH].
Qed.

Lemma lenient_prefix_done pre db db1 :
  UpdateItemsStatus.valid pre = true →
  update_items_status pre db
    = (Res 200 (message_text "Cart items updated successfully."), db1) →
  update_items_status_loop (List.map Inventory._id (inventories db)) pre db
    = (Next tt, db1) ∧
  ∀ i, as_requested <$> findById CartItem._id i (cartitems db1)
       = as_requested <$> findById CartItem._id i (cartitems db).
Proof.
  intros Hv Hrun. rewrite update_items_status_run in Hrun by done.
  pose proof (as_requested_lenient_loop
                (List.map Inventory._id (inventories db)) pre db) as Hsame.
  destruct (update_items_status_loop _ pre db) as [[[]| |] db2] eqn:Hloop.
  - injection Hrun as <-. by split.
  - apply lenient_loop_return in Hloop. injection Hrun as -> _. done.
  - by injection Hrun.
Qed.

(** X8. A validated /update-items-status batch stops at the first item
    whose line item id does not exist: the answer is 404 for that id, the
    updates of the items before it are kept as they were stored, and the
    items after it are not looked at, whatever they are. *)
Theorem lenient_batch_stops_at_missing db pre missing post db1 :
  UpdateItemsStatus.valid (pre ++ missing :: post) = true →
  update_items_status pre db
    = (Res 200 (message_text "Cart items updated successfully."), db1) →
  findById CartItem._id (UpdateItemsStatus._id missing) (cartitems db) = None →
  update_items_status (pre ++ missing :: post) db
  = (Res 404 (error_id "Cart item with ID " (UpdateItemsStatus._id missing)
                " not found."), db1).
Proof.
  intros Hvalid Hpre Hnone.
  destruct (lenient_valid_app _ _ Hvalid) as [Hvpre _].
  destruct (lenient_prefix_done _ _ _ Hvpre Hpre) as [Hloop Hsame].
  rewrite update_items_status_run, lenient_loop_app, Hloop by done.
  cbn [update_items_status_loop]. unfold bind, CartItem_findById.
  specialize (Hsame (UpdateItemsStatus._id missing)). rewrite Hnone in Hsame.
  by destruct (findById _ _ (cartitems db1)).
Qed.

(** The theorem at work on [pending_db]: a remark for line item 2, then an
    id that does not exist, then line item 2 again. *)
Lemma lenient_batch_stops_at_missing_witness :
  update_items_status
    ([lenient_item 2 None (Some "packed")]
       ++ lenient_item 99 None None :: [lenient_item 2 None (Some "late")]) pending_db
  = (Res 404 (error_id "Cart item with ID " 99 " not found."),
     set_cartitems [CartItem.with_remarks "packed" (catalog_line 2 1 0 "Glue" 3)]
       pending_db).
Proof.
  apply (lenient_batch_stops_at_missing pending_db
           [lenient_item 2 None (Some "packed")] (lenient_item 99 None None)
           [lenient_item 2 None (Some "late")]).
  - reflexivity.
  - reflexivity.
  - reflexivity.
Defined.

(** X9. A validated /update-items-status batch that reaches a line item
    without a catalog reference (a custom item) throws on it: the answer
    is 500, the updates of the items before it are kept, and the items
    after it are not processed. *)
Theorem lenient_batch_throws_on_custom db pre custom post db1 d :
  UpdateItemsStatus.valid (pre ++ custom :: post) = true →
  update_items_status pre db
    = (Res 200 (message_text "Cart items updated successfully."), db1) →
  findById CartItem._id (UpdateItemsStatus._id custom) (cartitems db) = Some d →
  truthy (CartItem.item_id d) = false →
  update_items_status (pre ++ custom :: post) db
  = (Res 500 (error_message TypeError), db1).
Proof.
  intros Hvalid Hpre Hd Hcustom.
  destruct (lenient_valid_app _ _ Hvalid) as [Hvpre _].
  destruct (lenient_prefix_done _ _ _ Hvpre Hpre) as [Hloop Hsame].
  rewrite update_items_status_run, lenient_loop_app, Hloop by done.
  cbn [update_items_status_loop]. unfold bind, CartItem_findById.
  specialize (Hsame (UpdateItemsStatus._id custom)). rewrite Hd in Hsame.
  destruct (findById _ _ (cartitems db1)) as [d1|]; [|done].
  injection Hsame as _ _ Hitem _ _ _. rewrite Hitem.
  by destruct (CartItem.item_id d).
Qed.

(** The theorem at work on [sample_db]: the glue of requester 7, then the
    tape of requester 8. *)
Lemma lenient_batch_throws_on_custom_witness :
  update_items_status
    ([lenient_item 2 None (Some "packed")]
       ++ lenient_item 4 None (Some "ordered") :: []) sample_db
  = (Res 500 (error_message TypeError),
     set_cartitems [CartItem.with_remarks "packed" (catalog_line 2 1 0 "Glue" 3);
                    custom_line 4 3 "Tape" 2 None] sample_db).
Proof.
  apply (lenient_batch_throws_on_custom sample_db
           [lenient_item 2 None (Some "packed")] (lenient_item 4 None (Some "ordered"))
           [] _ (custom_line 4 3 "Tape" 2 None)).
  - reflexivity.
  - reflexivity.
  - reflexivity.
  - reflexivity.
Defined.

Lemma addressed_to_once items it :
  NoDup (List.map UpdateMultiple._id items) → it ∈ items →
  addressed_to (UpdateMultiple._id it) items = [it].
Proof.
  unfold addressed_to.
  induction items as [|x l IH]; simpl; intros Hnd Hd; [by apply elem_of_nil in Hd|].
  apply NoDup_cons in Hnd as [Hx Hnd].
  assert (Hrest : ∀ y, y ∈ l → UpdateMultiple._id y ≠ UpdateMultiple._id x).
  { intros y Hy Heq. apply Hx. rewrite <- Heq. apply list_elem_of_fmap. by exists y. }
  apply elem_of_cons in Hd as [-> | Hd].
  - rewrite bool_decide_eq_true_2 by done. f_equal.
    clear -Hrest. induction l as [|y l IH]; simpl; [done|].
    rewrite bool_decide_eq_false_2 by (apply Hrest; left).
    apply IH. intros z Hz. apply Hrest. by right.
  - rewrite bool_decide_eq_false_2 by (symmetry; by apply Hrest). by apply IH.
Qed.

Lemma rejections_none snap items :
  Forall (fun it => ∃ mem, update_task snap it = inr mem) items →
  rejections (List.map (update_task snap) items) = [].
Proof.
  intros Hall. unfold rejections.
  induction Hall as [|it l [mem Hit] _ IH]; simpl; [done|].
  rewrite Hit. simpl. exact IH.
Qed.

(** X10. /update-multiple-cart-items is the route through which a status
    is stored: it validates no value, so a status of the schema's enum
    reaches [save()] as it is.  A batch whose items carry no delta, name
    each line item at most once, all of them stored, with statuses and
    remarks that pass the schema, is answered 200 and every item has its
    status and its remark stored. *)
Theorem strict_batch_stores_status db items :
  UpdateMultiple.valid items = true →
  NoDup (List.map UpdateMultiple._id items) →
  Forall (fun it =>
            UpdateMultiple.allotted_quantity it = None ∧
            ∃ d, findById CartItem._id (UpdateMultiple._id it) (cartitems db) = Some d ∧
                 CartItem.invalid_paths
                   (assign_updates None (UpdateMultiple.status it)
                      (UpdateMultiple.remarks it) d) = []) items →
  let r := update_multiple_cart_items items db in
  status_code (fst r) = 200%Z ∧
  ∀ it d, it ∈ items →
    findById CartItem._id (UpdateMultiple._id it) (cartitems db) = Some d →
    findById CartItem._id (UpdateMultiple._id it) (cartitems (snd r))
    = Some (assign_updates None (UpdateMultiple.status it)
              (UpdateMultiple.remarks it) d).
Proof.
  intros Hvalid Hnd Hall.
  assert (Htasks : Forall (fun it => ∃ mem, update_task (cartitems db) it = inr mem) items).
  { eapply Forall_impl; [exact Hall|]. intros it (Hnone & d & Hd & Hv).
    unfold update_task. rewrite Hd, Hnone, Hv. by eexists. }
  assert (Hr : update_multiple_cart_items items db
               = (Res 200 (json_cartItems
                    (omap (fun r => match r with inr d => Some d | inl _ => None end)
                       (List.map (update_task (cartitems db)) items))),
                  set_cartitems
                    (foldl (commit_task (cartitems db)) (cartitems db) items) db)).
  { unfold update_multiple_cart_items. rewrite Hvalid. cbn [negb].
    by rewrite rejections_none. }
  cbv zeta. rewrite Hr. split; [done|].
  intros it d Hit Hd. cbn [snd cartitems set_cartitems].
  rewrite Forall_forall in Hall. destruct (Hall it Hit) as (Hnone & d0 & Hd0 & Hv).
  rewrite Hd in Hd0. injection Hd0 as <-.
  rewrite foldl_commit_task_once by by apply addressed_to_once.
  rewrite commit_task_same. unfold update_task. rewrite Hd, Hnone, Hv.
  simpl. f_equal. rewrite <- Hnone. apply set_modified_assign.
Qed.

(** The theorem at work on [sample_db]: the glue is made ready, the tape
    gets a remark. *)
Lemma strict_batch_stores_status_witness :
  let items := [strict_item 2 None (Some "Ready") None;
                strict_item 4 None None (Some "ordered")] in
  let r := update_multiple_cart_items items sample_db in
  status_code (fst r) = 200%Z ∧
  ∀ it d, it ∈ items →
    findById CartItem._id (UpdateMultiple._id it) (cartitems sample_db) = Some d →
    findById CartItem._id (UpdateMultiple._id it) (cartitems (snd r))
    = Some (assign_updates None (UpdateMultiple.status it)
              (UpdateMultiple.remarks it) d).
Proof.
  apply (strict_batch_stores_status sample_db
           [strict_item 2 None (Some "Ready") None;
            strict_item 4 None None (Some "ordered")]).
  - reflexivity.
  - by apply (bool_decide_unpack _).
  - repeat constructor; eexists; (split; [reflexivity | reflexivity]).
Defined.

(** * The cart views and the removal of a cart *)

(** X11. DELETE /remove-cart on a stored cart (ids unique) answers with the
    cart and the number of its line items; afterwards the cart is gone,
    the line items kept are exactly those of the other carts, and the other
    carts and the catalog are as before. *)
Theorem remove_cart_cascades db cart_id cart :
  unique_ids db →
  findById Cart._id cart_id (carts db) = Some cart →
  let r := remove_cart cart_id db in
  fst r = Ok (cart, length (List.filter (by_cart cart_id) (cartitems db))) ∧
  findById Cart._id cart_id (carts (snd r)) = None ∧
  (∀ j, j ≠ cart_id →
     findById Cart._id j (carts (snd r)) = findById Cart._id j (carts db)) ∧
  (∀ d, d ∈ cartitems (snd r) ↔ d ∈ cartitems db ∧ CartItem.cart d ≠ cart_id) ∧
  inventories (snd r) = inventories db.
Proof.
  intros (_ & Hnd & _) Hcart.
  assert (Hr : remove_cart cart_id db
               = (Ok (cart, length (List.filter (by_cart cart_id) (cartitems db))),
                  set_cartitems (deleteMany (by_cart cart_id) (cartitems db))
                    (set_carts (deleteOne (has_id Cart._id cart_id) (carts db)) db))).
  { unfold remove_cart, try_catch_ok, bind, Cart_findByIdAndDelete, CartItem_deleteMany.
    by rewrite Hcart. }
  cbv zeta. rewrite Hr. cbn [fst snd carts cartitems inventories set_cartitems set_carts].
  split; [done|]. split; [by apply deleteOne_same|].
  split; [intros j Hj; by apply deleteOne_other|]. split; [|done].
  intros d. rewrite deleteMany_elem. unfold by_cart.
  by rewrite bool_decide_eq_false.
Qed.

Lemma remove_cart_cascades_witness :
  let r := remove_cart 1 sample_db in
  fst r = Ok ({| Cart._id := 1; Cart.userId := 7; Cart.cartItems := [2] |},
              length (List.filter (by_cart 1) (cartitems sample_db))) ∧
  findById Cart._id 1 (carts (snd r)) = None ∧
  (∀ j, j ≠ 1 →
     findById Cart._id j (carts (snd r)) = findById Cart._id j (carts sample_db)) ∧
  (∀ d, d ∈ cartitems (snd r) ↔ d ∈ cartitems sample_db ∧ CartItem.cart d ≠ 1) ∧
  inventories (snd r) = inventories sample_db.
Proof.
  apply (remove_cart_cascades sample_db 1).
  - repeat split; by apply (bool_decide_unpack _).
  - reflexivity.
Defined.

(** X12. DELETE /remove-cart with an id no stored cart has answers 404
    "Cart not found" and keeps the carts, yet the line items that name this
    id as their cart are deleted all the same: both deletions run before
    the answer is chosen. *)
Theorem remove_cart_unknown_still_deletes db cart_id d :
  findById Cart._id cart_id (carts db) = None →
  d ∈ cartitems db → CartItem.cart d = cart_id →
  let r := remove_cart cart_id db in
  fst r = Failed (Res 404 (message_text "Cart not found")) ∧
  carts (snd r) = carts db ∧
  (d ∉ cartitems (snd r)) ∧
  length (cartitems (snd r)) < length (cartitems db).
Proof.
  intros Hnone Hin Hd.
  assert (Hr : remove_cart cart_id db
               = (Failed (Res 404 (message_text "Cart not found")),
                  set_cartitems (deleteMany (by_cart cart_id) (cartitems db))
                    (set_carts (deleteOne (has_id Cart._id cart_id) (carts db)) db))).
  { unfold remove_cart, try_catch_ok, bind, Cart_findByIdAndDelete, CartItem_deleteMany.
    by rewrite Hnone. }
  cbv zeta. rewrite Hr. cbn [fst snd carts cartitems set_cartitems set_carts].
  split; [done|]. split; [|split].
  - clear -Hnone. unfold findById, findOne in Hnone.
    induction (carts db) as [|c l IH]; simpl in *; [done|].
    destruct (has_id Cart._id cart_id c); [done|]. f_equal. by apply IH.
  - rewrite deleteMany_elem. intros [_ Hq]. unfold by_cart in Hq.
    by apply bool_decide_eq_false in Hq.
  - unfold deleteMany. clear -Hin Hd.
    induction (cartitems db) as [|x l IH]; [by apply elem_of_nil in Hin|].
    simpl. apply elem_of_cons in Hin as [<- | Hin].
    + unfold by_cart at 1. rewrite bool_decide_eq_true_2 by done. simpl.
      pose proof (List.filter_length_le (fun d0 => negb (by_cart cart_id d0)) l). lia.
    + specialize (IH Hin). destruct (negb (by_cart cart_id x)); simpl; lia.
Qed.

Lemma remove_cart_unknown_still_deletes_witness :
  let r := remove_cart 1 orphan_db in
  fst r = Failed (Res 404 (message_text "Cart not found")) ∧
  carts (snd r) = carts orphan_db ∧
  (catalog_line 2 1 0 "Glue" 3 ∉ cartitems (snd r)) ∧
  length (cartitems (snd r)) < length (cartitems orphan_db).
Proof.
  apply (remove_cart_unknown_still_deletes orphan_db 1 (catalog_line 2 1 0 "Glue" 3)).
  - reflexivity.
  - by apply list_elem_of_singleton.
  - reflexivity.
Defined.

(** A run of the loop of /add-items on a cart that holds none of the
    requested catalog items: one line item is created per item. *)
Lemma add_items_loop_all_new items : ∀ cart db,
  Forall (fun it => ∃ inv,
            findById Inventory._id (AddItems.item_id it) (inventories db) = Some inv ∧
            Inventory.itemName inv ≠ "" ∧ (1 ≤ AddItems.ordered_quantity it)%Z) items →
  NoDup (List.map AddItems.item_id items) →
  Forall (fun d => CartItem._id d < next_id db) (cartitems db) →
  Forall (fun d => CartItem.cart d ≠ Cart._id cart) (cartitems db) →
  add_items_loop cart items db
  = (Next (Cart.with_cartItems
             (Cart.cartItems cart ++ seq (next_id db) (length items)) cart),
     set_cartitems
       (cartitems db
        ++ ordered_lines (inventories db) (Cart._id cart) (next_id db) items)
       (set_next_id (next_id db + length items) db)).
Proof.
  assert (Hgen : ∀ items cart db,
    Forall (fun it => ∃ inv,
              findById Inventory._id (AddItems.item_id it) (inventories db) = Some inv ∧
              Inventory.itemName inv ≠ "" ∧ (1 ≤ AddItems.ordered_quantity it)%Z) items →
    NoDup (List.map AddItems.item_id items) →
    Forall (fun d => CartItem._id d < next_id db) (cartitems db) →
    Forall (fun d => CartItem.cart d = Cart._id cart →
                     Forall (fun it => CartItem.item_id d ≠ value (AddItems.item_id it))
                       items) (cartitems db) →
    add_items_loop cart items db
    = (Next (Cart.with_cartItems
               (Cart.cartItems cart ++ seq (next_id db) (length items)) cart),
       set_cartitems
         (cartitems db
          ++ ordered_lines (inventories db) (Cart._id cart) (next_id db) items)
         (set_next_id (next_id db + length items) db))).
  { clear items. induction items as [|[i q] rest IH]; intros cart db Hall Hnd Hlt Hnew.
    - cbn [add_items_loop ordered_lines length seq]. unfold ret.
      rewrite !app_nil_r, Nat.add_0_r. by destruct cart, db.
    - apply Forall_cons in Hall as [(inv & Hinv & Hname & Hq) Hall].
      cbn [AddItems.item_id AddItems.ordered_quantity] in Hinv, Hq.
      cbn [List.map AddItems.item_id] in Hnd. apply NoDup_cons in Hnd as [Hi Hnd].
      rewrite (add_items_loop_create db cart i q inv); try done.
      2:{ apply findOne_None_filter. clear -Hnew.
          induction Hnew as [|d l Hd _ IHl]; simpl; [done|].
          unfold by_cart_item_id at 1.
          destruct (bool_decide (CartItem.cart d = Cart._id cart)) eqn:Hc; [|done].
          apply bool_decide_eq_true_1 in Hc. apply Hd, Forall_cons in Hc as [Hc _].
          cbn [AddItems.item_id] in Hc. by rewrite bool_decide_eq_false_2. }
      rewrite IH; cbn [inventories cartitems next_id set_cartitems set_next_id
                       Cart._id Cart.with_cartItems Cart.cartItems]; try done.
      + cbn [ordered_lines length seq AddItems.item_id AddItems.ordered_quantity].
        rewrite Hinv. cbn [from_option].
        rewrite <- !app_assoc. cbn [app].
        replace (S (next_id db) + length rest) with (next_id db + S (length rest)) by lia.
        by destruct cart, db.
      + apply Forall_app. split.
        * eapply Forall_impl; [exact Hlt | simpl; lia].
        * repeat constructor.
      + apply Forall_app. split.
        * eapply Forall_impl; [exact Hnew|]. intros d Hd Hc.
          by apply Hd, Forall_cons in Hc as [_ Hc].
        * constructor; [|constructor]. intros _. cbn [CartItem.item_id catalog_line].
          apply Forall_forall. intros it Hit [= Heq]. apply Hi. rewrite Heq.
          apply list_elem_of_fmap. by exists it. }
  intros cart db Hall Hnd Hlt Hnew. apply Hgen; try done.
  eapply Forall_impl; [exact Hnew|]. by intros d Hd Hc.
Qed.

(** Populating the references [n], [n+1], ... over a store that ends with
    the line items created under these ids. *)
Lemma populate_ordered_lines catalog c items : ∀ n old,
  Forall (fun d => CartItem._id d < n) old →
  omap (fun id => findById CartItem._id id (old ++ ordered_lines catalog c n items))
    (seq n (length items))
  = ordered_lines catalog c n items.
Proof.
  induction items as [|it rest IH]; intros n old Hold; [done|].
  cbn [length seq ordered_lines]. cbn [omap list_omap].
  set (line := catalog_line n c _ _ _).
  assert (Hfound : findById CartItem._id n (old ++ line :: ordered_lines catalog c (S n) rest)
                   = Some line).
  { unfold findById. rewrite findOne_app.
    replace (findOne (has_id CartItem._id n) old) with (@None CartItem.t).
    - unfold findOne. simpl. unfold has_id at 1. by rewrite bool_decide_eq_true_2.
    - symmetry. apply (findById_existsb CartItem._id). by apply existsb_has_id_below. }
  rewrite Hfound. f_equal. fold (@omap list _).
  replace (old ++ line :: ordered_lines catalog c (S n) rest)
    with ((old ++ [line]) ++ ordered_lines catalog c (S n) rest)
    by (by rewrite <- app_assoc).
  apply IH. apply Forall_app. split.
  - eapply Forall_impl; [exact Hold | simpl; lia].
  - repeat constructor.
Qed.

(** X13. The first order of a requester shows up in their view: when the
    requester has no cart yet and a validated /add-items request names
    distinct catalog items, all stored under a non-empty name, the request
    is answered 200 and GET /cart-items-final then lists one line per
    requested item, in the order of the request, under the catalog name and
    with the requested quantity, status "Pending" and no remark. *)
Theorem first_order_shows_in_view db req :
  fresh_ids db →
  AddItems.valid req = true →
  AddItems.items req ≠ [] →
  NoDup (List.map AddItems.item_id (AddItems.items req)) →
  Forall (fun it => ∃ inv,
            findById Inventory._id (AddItems.item_id it) (inventories db) = Some inv ∧
            Inventory.itemName inv ≠ "") (AddItems.items req) →
  findOne (by_userId (AddItems.userId req)) (carts db) = None →
  let r := add_items req db in
  status_code (fst r) = 200%Z ∧
  fst (cart_items_final (AddItems.userId req) (snd r))
  = Ok (List.map view_of
          (ordered_lines (inventories db) (next_id db) (S (next_id db))
             (AddItems.items req))).
Proof.
  intros [Hcarts Hitems] Hvalid Hne Hnd Hall Hnone.
  set (u := AddItems.userId req) in *. set (n := next_id db).
  set (lines := ordered_lines (inventories db) n (S n) (AddItems.items req)).
  set (cart := {| Cart._id := n; Cart.userId := u;
                  Cart.cartItems := seq (S n) (length (AddItems.items req)) |}).
  set (db1 := set_cartitems (cartitems db ++ lines)
                (set_next_id (S n + length (AddItems.items req)) db)).
  assert (Hloop : add_items_loop
                    {| Cart._id := n; Cart.userId := u; Cart.cartItems := [] |}
                    (AddItems.items req) (set_next_id (S n) db) = (Next cart, db1)).
  { rewrite add_items_loop_all_new; [by destruct db| |done| |].
    - unfold AddItems.valid in Hvalid. rewrite forallb_forall in Hvalid.
      rewrite Forall_forall in Hall. apply Forall_forall. intros it Hit.
      destruct (Hall it Hit) as (inv & Hinv & Hname). exists inv.
      split; [done|]. split; [done|].
      apply list_elem_of_In, Hvalid in Hit. by apply bool_decide_eq_true_1 in Hit.
    - simpl. eapply Forall_impl; [exact Hitems|]. simpl. intros d [? _]. fold n. lia.
    - simpl. eapply Forall_impl; [exact Hitems|]. simpl. intros d [_ ?]. fold n. lia. }
  destruct (Cart_save_created db1 u cart) as [Hsave Hfind]; [done| |done|].
  { simpl. exact Hcarts. }
  assert (Hr : add_items req db
               = (Res 200 (json_cart cart), set_carts (carts db1 ++ [cart]) db1)).
  { unfold add_items. rewrite Hvalid. cbn [negb].
    unfold try_catch. unfold bind at 1 2. unfold Cart_findOne. fold u. rewrite Hnone.
    unfold new_Cart, bind at 1, new_ObjectId, ret at 1. fold n.
    unfold bind at 1. rewrite Hloop.
    unfold bind. rewrite Hsave. done. }
  cbv zeta. rewrite Hr. split; [done|]. cbn [fst snd].
  unfold cart_items_final, try_catch_ok, bind, Cart_findOne_populated.
  cbn [carts set_carts]. rewrite Hfind.
  assert (Hpop : populate (set_carts (carts db1 ++ [cart]) db1) cart = lines).
  { unfold populate. cbn [cartitems set_carts db1 set_cartitems Cart.cartItems cart].
    apply populate_ordered_lines.
    eapply Forall_impl; [exact Hitems|]. simpl. intros d [? _]. fold n. lia. }
  rewrite Hpop.
  rewrite bool_decide_eq_false_2; [done|].
  subst lines. destruct (AddItems.items req); [done | simpl; lia].
Qed.

(** The theorem at work: requester 9 orders glue from the catalog of
    [sample_db]. *)
Lemma first_order_shows_in_view_witness :
  let r := add_items (single_add 9 0 2) sample_db in
  status_code (fst r) = 200%Z ∧
  fst (cart_items_final 9 (snd r))
  = Ok (List.map view_of
          (ordered_lines (inventories sample_db) (next_id sample_db)
             (S (next_id sample_db)) (AddItems.items (single_add 9 0 2)))).
Proof.
  apply (first_order_shows_in_view sample_db (single_add 9 0 2)).
  - split; by apply (bool_decide_unpack _).
  - reflexivity.
  - discriminate.
  - by apply (bool_decide_unpack _).
  - repeat constructor. exists glue. split; [reflexivity | discriminate].
  - reflexivity.
Defined.

(** X14. On a well-formed store a validated /add-custom-item under a
    non-empty name never merges into a stored line item: it is answered
    200, and GET /cart-item-summary-custom, which lists the line items
    without a catalog reference in stored order, afterwards lists what it
    listed before followed by one new line item with the requested name,
    quantity and link. *)
Theorem custom_item_listed_last db req :
  store_ok db →
  AddCustomItem.valid req = true →
  AddCustomItem.itemName req ≠ "" →
  let r := add_custom_item req db in
  status_code (fst r) = 200%Z ∧
  cart_item_summary_custom db
  = (Res 200 (json_cartItems (List.filter by_item_id_null (cartitems db))), db) ∧
  ∃ n c,
    cart_item_summary_custom (snd r)
    = (Res 200 (json_cartItems
                  (List.filter by_item_id_null (cartitems db)
                   ++ [custom_line n c (AddCustomItem.itemName req)
                         (AddCustomItem.ordered_quantity req)
                         (AddCustomItem.link req)])), snd r).
Proof.
  intros (_ & Hfresh & _ & Hl) Hvalid Hname.
  apply bool_decide_eq_true_1 in Hvalid.
  destruct (add_custom_item_always_creates db req) as (cart & n & db1 & Hr & Hitems);
    try done.
  { eapply Forall_impl; [exact Hl|]. intros d (_ & _ & Href) Hu. by rewrite Hu in Href. }
  cbv zeta. rewrite Hr. cbn [fst snd]. split; [done|]. split; [done|].
  exists n, (Cart._id cart).
  unfold cart_item_summary_custom, try_catch, bind, CartItem_find, ret.
  by rewrite Hitems, List.filter_app.
Qed.

Lemma custom_item_listed_last_witness :
  let req := custom_add 7 "Tape" 1 (Some "https://shop/tape") in
  let r := add_custom_item req sample_db in
  status_code (fst r) = 200%Z ∧
  cart_item_summary_custom sample_db
  = (Res 200 (json_cartItems (List.filter by_item_id_null (cartitems sample_db))),
     sample_db) ∧
  ∃ n c,
    cart_item_summary_custom (snd r)
    = (Res 200 (json_cartItems
                  (List.filter by_item_id_null (cartitems sample_db)
                   ++ [custom_line n c (AddCustomItem.itemName req)
                         (AddCustomItem.ordered_quantity req)
                         (AddCustomItem.link req)])), snd r).
Proof.
  apply (custom_item_listed_last sample_db
           (custom_add 7 "Tape" 1 (Some "https://shop/tape"))).
  - repeat split; simpl; repeat constructor; simpl; try lia;
      try (by apply (bool_decide_unpack _)).
  - reflexivity.
  - discriminate.
Defined.

Lemma club_list_cases users carts :
  match club_list users carts with
  | inr l => Forall2 (fun c e => club_of users c = inr e) carts l
  | inl e =>
      e = TypeError ∧
      Exists (fun c => findById User._id (Cart.userId c) users = None) carts
  end.
Proof.
  induction carts as [|c carts IH]; simpl; [constructor|].
  destruct (club_of users c) as [e|entry] eqn:Hc.
  - unfold club_of in Hc.
    destruct (findById User._id (Cart.userId c) users) eqn:Hu; [done|].
    injection Hc as <-. split; [done | by constructor].
  - destruct (club_list users carts) as [e|l].
    + destruct IH as [-> Hex]. split; [done | by apply Exists_cons_tl].
    + by constructor.
Qed.

(** X15. GET /get-club-list is all or nothing and never writes: either it
    answers one entry per stored cart, in stored order, built from the
    cart and its requester's record, or some cart's requester is not among
    the users and the answer is 500 with the message of the TypeError that
    reading a field of [null] raises. *)
Theorem get_club_list_all_or_nothing users db :
  snd (get_club_list users db) = db ∧
  match fst (get_club_list users db) with
  | Ok l => Forall2 (fun c e => club_of users c = inr e) (carts db) l
  | Failed r =>
      r = Res 500 (error_message TypeError) ∧
      Exists (fun c => findById User._id (Cart.userId c) users = None) (carts db)
  end.
Proof.
  unfold get_club_list, try_catch_ok, bind, Cart_find.
  pose proof (club_list_cases users (carts db)) as H.
  destruct (club_list users (carts db)) as [e|l]; simpl.
  - destruct H as [-> Hex]. done.
  - done.
Qed.

Lemma elem_of_store {D} (id_of : D -> ObjectId) d c : d ∈ store id_of d c.
Proof.
  unfold store. destruct (existsb _ c) eqn:He.
  - apply existsb_exists in He as (x & Hx & Hid). apply list_elem_of_In.
    apply in_map_iff. exists x. by rewrite Hid.
  - apply elem_of_app. right. by apply list_elem_of_singleton.
Qed.

Lemma club_list_missing users carts c :
  c ∈ carts → findById User._id (Cart.userId c) users = None →
  club_list users carts = inl TypeError.
Proof.
  intros Hin Hnone. pose proof (club_list_cases users carts) as H.
  destruct (club_list users carts) as [e|l]; [by destruct H as [-> _]|].
  apply list_elem_of_lookup in Hin as [k Hk].
  destruct (Forall2_lookup_l _ _ _ k c H) as (e & _ & He); [exact Hk|].
  unfold club_of in He. by rewrite Hnone in He.
Qed.

Lemma add_items_loop_return items : ∀ cart db r db',
  add_items_loop cart items db = (Return r, db') → status_code r = 404%Z.
Proof.
  induction items as [|item rest IH]; intros cart db r db' Hrun; [done|].
  rewrite add_items_loop_cons in Hrun.
  destruct (add_items_loop cart [item] db) as [[cart1|r1|e1] db1] eqn:H1;
    [by eapply IH | | done].
  injection Hrun as <- <-. revert H1. cbn [add_items_loop].
  unfold Inventory_findById, CartItem_findOne, new_CartItem, new_ObjectId.
  unfold bind, ret.
  destruct (findById _ _ _) as [inv|]; [|by intros [= <- _]].
  destruct (findOne _ _) as [e|]; cbv beta iota.
  - match goal with |- context [CartItem_save ?x ?s] =>
      by destruct (CartItem_save_cases x s) as [[-> _] | [-> _]] end.
  - match goal with |- context [CartItem_save ?x ?s] =>
      by destruct (CartItem_save_cases x s) as [[-> _] | [-> _]] end.
Qed.

(** X16. /add-items takes the requester's id from the body and never looks
    the requester up: on a well-formed store, a request answered 200 for an
    id that no user bears leaves a cart of that id behind, and from then on
    GET /get-club-list fails with 500. *)
Theorem unknown_requester_breaks_club_list users req db :
  store_ok db →
  findById User._id (AddItems.userId req) users = None →
  status_code (fst (add_items req db)) = 200%Z →
  fst (get_club_list users (snd (add_items req db)))
  = Failed (Res 500 (error_message TypeError)).
Proof.
  intros Hok Hnone H200.
  assert (Hrun : ∀ resp db', add_items req db = (resp, db') →
            status_code resp = 200%Z →
            ∃ c, c ∈ carts db' ∧ Cart.userId c = AddItems.userId req).
  { intros resp db'. unfold add_items. destruct (negb _); [by intros [= <- _]|].
    unfold try_catch. unfold bind at 1, Cart_findOne. unfold bind at 1.
    assert (Hu : ∃ cart db0,
              match findOne (by_userId (AddItems.userId req)) (carts db) with
              | Some cart => ret cart
              | None => new_Cart (AddItems.userId req)
              end db = (Next cart, db0) ∧ store_ok db0 ∧
              Cart._id cart < next_id db0 ∧ Cart.userId cart = AddItems.userId req).
    { destruct (cart_for_ok (AddItems.userId req) db Hok)
        as (cart & db0 & Hrun & Hok0 & _ & _ & _ & Hid0 & _).
      exists cart, db0. do 3 (split; [done|]).
      destruct (findOne _ (carts db)) as [c|] eqn:Hc.
      - injection Hrun as <- _. apply findOne_Some in Hc as [_ Hq].
        by apply bool_decide_eq_true_1 in Hq.
      - by injection Hrun as <- _. }
    destruct Hu as (cart & db0 & -> & Hok0 & Hid0 & Huser).
    unfold bind at 1.
    destruct (add_items_loop cart (AddItems.items req) db0) as [o1 db1] eqn:Hloop.
    destruct (add_items_loop_ok _ _ _ _ _ Hok0 Hid0 Hloop) as (_ & _ & _ & _ & Hcart).
    destruct o1 as [cart'|r|]; [| |by intros [= <- _]].
    2:{ apply add_items_loop_return in Hloop. intros [= <- _]. congruence. }
    destruct Hcart as [_ Hu']. unfold bind, Cart_save.
    destruct (existsb (has_id _ _) _); [|destruct (existsb _ _); [by intros [= <- _]|]];
      intros [= _ <-] _; exists cart'; (split; [apply elem_of_store | congruence]). }
  destruct (add_items req db) as [resp db'] eqn:Hr.
  destruct (Hrun resp db' eq_refl H200) as (c & Hin & Hu). cbn [snd].
  unfold get_club_list, try_catch_ok, bind, Cart_find.
  rewrite (club_list_missing users _ c); [done | done | by rewrite Hu].
Qed.

(** The theorem at work: a request in the name of requester 9, whom
    [sample_users] does not know. *)
Lemma unknown_requester_breaks_club_list_witness :
  fst (get_club_list sample_users (snd (add_items (single_add 9 0 2) sample_db)))
  = Failed (Res 500 (error_message TypeError)).
Proof.
  apply (unknown_requester_breaks_club_list sample_users (single_add 9 0 2) sample_db).
  - repeat split; simpl; repeat constructor; simpl; try lia;
      try (by apply (bool_decide_unpack _)).
  - reflexivity.
  - reflexivity.
Defined.

(** * The catalog routes *)

Lemma PostInventory_valid_status req :
  PostInventory.valid req = true →
  PostInventory.itemStatus req ∈ Inventory.itemStatus_enum.
Proof.
  unfold PostInventory.valid. intros [_ Hs]%andb_true_iff.
  by apply bool_decide_eq_true_1 in Hs.
Qed.

Lemma existsb_no_name (l : list Inventory.t) name :
  Forall (fun d => Inventory.itemName d ≠ name) l →
  existsb (fun d' => bool_decide (Inventory.itemName d' = name)) l = false.
Proof.
  induction 1 as [|d l Hd _ IH]; simpl; [done|].
  by rewrite bool_decide_eq_false_2, IH.
Qed.

(** X17. A POST /inventory that passes the validators under a non-empty
    name no catalog item bears is answered 201 with the new catalog item,
    whose ordering status defaults to "Available" and which has no remark;
    GET /inventory then lists it after the items it listed before, and
    GET /inventory/user lists it exactly when it was created enabled. *)
Theorem post_inventory_creates db req name :
  PostInventory.valid req = true →
  PostInventory.itemName req = Some name → name ≠ "" →
  Forall (fun d => Inventory.itemName d ≠ name) (inventories db) →
  let r := post_inventory req db in
  let item := created_item (next_id db) req name in
  fst r = Res 201 (json_inventory item) ∧
  fst (get_inventory (snd r)) = Ok (inventories db ++ [item]) ∧
  ∃ listed,
    fst (get_inventory_user db) = Ok listed ∧
    fst (get_inventory_user (snd r))
    = Ok (listed ++ if bool_decide (PostInventory.itemStatus req = "enabled")
                    then [inventory_view_of item] else []).
Proof.
  intros Hvalid Hname Hne Hfree.
  pose proof (PostInventory_valid_status req Hvalid) as Hstatus.
  set (item := created_item (next_id db) req name).
  assert (Hr : post_inventory req db
               = (Res 201 (json_inventory item),
                  set_inventories (inventories db ++ [item])
                    (set_next_id (S (next_id db)) db))).
  { unfold post_inventory. rewrite Hvalid. cbn [negb].
    unfold try_catch, bind at 1, new_Inventory, bind at 1, new_ObjectId, ret at 1.
    rewrite Hname. change (default "" (Some name)) with name.
    fold (created_item (next_id db) req name). fold item.
    unfold bind, Inventory_save, Inventory.invalid_paths.
    cbn [item created_item Inventory.itemStatus Inventory.itemName
         Inventory.itemOrderedStatus].
    rewrite (bool_decide_eq_true_2 _ Hstatus).
    rewrite (bool_decide_eq_false_2 (name = "")) by done.
    cbn [app inventories set_next_id].
    by rewrite existsb_no_name. }
  cbv zeta. rewrite Hr. cbn [fst snd]. split; [done|]. split; [done|].
  eexists. split; [reflexivity|].
  unfold get_inventory_user, try_catch_ok, bind, Inventory_find_where, ret.
  cbn [fst inventories set_inventories].
  rewrite List.filter_app, map_app. do 2 f_equal.
  simpl. unfold by_itemStatus at 1.
  change (Inventory.itemStatus item) with (PostInventory.itemStatus req).
  by case_bool_decide.
Qed.

Lemma post_inventory_creates_witness :
  let req := new_item (Some "Rope") 4 "disabled" in
  let r := post_inventory req glue_db in
  let item := created_item (next_id glue_db) req "Rope" in
  fst r = Res 201 (json_inventory item) ∧
  fst (get_inventory (snd r)) = Ok (inventories glue_db ++ [item]) ∧
  ∃ listed,
    fst (get_inventory_user glue_db) = Ok listed ∧
    fst (get_inventory_user (snd r))
    = Ok (listed ++ if bool_decide (PostInventory.itemStatus req = "enabled")
                    then [inventory_view_of item] else []).
Proof.
  apply (post_inventory_creates glue_db (new_item (Some "Rope") 4 "disabled") "Rope").
  - reflexivity.
  - reflexivity.
  - discriminate.
  - repeat constructor. discriminate.
Defined.

(** X18. The validators of POST /inventory do not look at the name: a
    request that passes them without a name, or with an empty one, is
    stopped by the schema when the document is saved and answered 500
    "Internal Server Error", not 400; nothing is stored. *)
Theorem post_inventory_without_name db req :
  PostInventory.valid req = true →
  default "" (PostInventory.itemName req) = "" →
  let r := post_inventory req db in
  fst r = Res 500 (error_text "Internal Server Error") ∧
  kind_of (fst r) = Some Internal ∧
  inventories (snd r) = inventories db ∧
  carts (snd r) = carts db ∧ cartitems (snd r) = cartitems db.
Proof.
  intros Hvalid Hname.
  pose proof (PostInventory_valid_status req Hvalid) as Hstatus.
  assert (Hr : post_inventory req db
               = (Res 500 (error_text "Internal Server Error"),
                  set_next_id (S (next_id db)) db)).
  { unfold post_inventory. rewrite Hvalid. cbn [negb].
    unfold try_catch, bind at 1, new_Inventory, bind at 1, new_ObjectId, ret at 1.
    rewrite Hname.
    unfold bind, Inventory_save, Inventory.invalid_paths.
    cbn [Inventory.itemStatus Inventory.itemName Inventory.itemOrderedStatus].
    by rewrite (bool_decide_eq_true_2 _ Hstatus). }
  cbv zeta. by rewrite Hr.
Qed.

Lemma post_inventory_without_name_witness :
  let r := post_inventory (new_item None 4 "enabled") glue_db in
  fst r = Res 500 (error_text "Internal Server Error") ∧
  kind_of (fst r) = Some Internal ∧
  inventories (snd r) = inventories glue_db ∧
  carts (snd r) = carts glue_db ∧ cartitems (snd r) = cartitems glue_db.
Proof.
  apply (post_inventory_without_name glue_db (new_item None 4 "enabled")).
  - reflexivity.
  - reflexivity.
Defined.

Lemma findById_updateOne_same {D} (id_of : D -> ObjectId) (f : D -> D) i c d :
  findById id_of i c = Some d →
  findById id_of i (updateOne (has_id id_of i) f c)
  = if has_id id_of i (f d) then Some (f d)
    else findById id_of i (deleteOne (has_id id_of i) c).
Proof.
  unfold findById, findOne. induction c as [|x c IH]; simpl; [done|].
  destruct (has_id id_of i x) eqn:Hx; simpl.
  - by intros [= ->].
  - rewrite Hx. exact IH.
Qed.

Lemma findById_updateOne_other {D} (id_of : D -> ObjectId) (f : D -> D) i j c :
  (∀ d, id_of (f d) = id_of d) → j ≠ i →
  findById id_of j (updateOne (has_id id_of i) f c) = findById id_of j c.
Proof.
  intros Hf Hne. unfold findById, findOne. induction c as [|x c IH]; simpl; [done|].
  destruct (has_id id_of i x) eqn:Hx; simpl.
  - unfold has_id in *. rewrite Hf. apply bool_decide_eq_true_1 in Hx.
    by rewrite !bool_decide_eq_false_2 by congruence.
  - destruct (has_id id_of j x); [done | exact IH].
Qed.

Lemma PutInventory_no_conflict (l : list Inventory.t) id name :
  Forall (fun d' => Inventory._id d' = id ∨ Inventory.itemName d' ≠ name) l →
  existsb (fun d' => negb (has_id Inventory._id id d')
                     && bool_decide (Inventory.itemName d' = name)) l = false.
Proof.
  induction 1 as [|d l Hd _ IH]; simpl; [done|]. rewrite IH, orb_false_r.
  destruct Hd as [Hd | Hd].
  - unfold has_id. by rewrite bool_decide_eq_true_2.
  - rewrite (bool_decide_eq_false_2 _ Hd). apply andb_false_r.
Qed.

Lemma put_inventory_run db id req name d :
  PutInventory.valid req = true →
  PutInventory.itemName req = Some name →
  findById Inventory._id id (inventories db) = Some d →
  Forall (fun d' => Inventory._id d' = id ∨ Inventory.itemName d' ≠ name)
    (inventories db) →
  put_inventory id req db
  = (Ok (updated_inventory req d),
     set_inventories
       (updateOne (has_id Inventory._id id) (updated_inventory req) (inventories db))
       db).
Proof.
  intros Hvalid Hname Hd Hfree.
  unfold put_inventory. rewrite Hvalid. cbn [negb].
  unfold try_catch_ok, bind, Inventory_findByIdAndUpdate. rewrite Hd.
  cbn [updated_inventory Inventory.itemName]. rewrite Hname.
  change (default (Inventory.itemName d) (Some name)) with name.
  by rewrite PutInventory_no_conflict.
Qed.

(** X19. A PUT /inventory/:id that passes the validators for a stored
    catalog item, under a name no other catalog item bears, is answered
    with the item under its new name, status and quantity and with the
    ordering status and remark it had; a lookup of the id then gives this
    item, every other catalog item is as before, and so are the carts and
    the line items, which keep the name they were created under. *)
Theorem put_inventory_updates db id req name d :
  PutInventory.valid req = true →
  PutInventory.itemName req = Some name →
  findById Inventory._id id (inventories db) = Some d →
  Forall (fun d' => Inventory._id d' = id ∨ Inventory.itemName d' ≠ name)
    (inventories db) →
  let r := put_inventory id req db in
  let item := updated_inventory req d in
  fst r = Ok item ∧
  (Inventory.itemName item, Inventory.itemStatus item, Inventory.itemQuantity item)
  = (name, PutInventory.itemStatus req, PutInventory.itemQuantity req) ∧
  (Inventory.itemOrderedStatus item, Inventory.itemRemark item)
  = (Inventory.itemOrderedStatus d, Inventory.itemRemark d) ∧
  findById Inventory._id id (inventories (snd r)) = Some item ∧
  (∀ j, j ≠ id →
     findById Inventory._id j (inventories (snd r))
     = findById Inventory._id j (inventories db)) ∧
  carts (snd r) = carts db ∧ cartitems (snd r) = cartitems db.
Proof.
  intros Hvalid Hname Hd Hfree. cbv zeta.
  rewrite (put_inventory_run db id req name d) by done.
  cbn [fst snd inventories carts cartitems set_inventories].
  split; [done|]. split; [by cbn; rewrite Hname|]. split; [done|].
  pose proof (findById_Some _ _ _ _ Hd) as [_ Hid].
  split; [|split; [|done]].
  - rewrite (findById_updateOne_same _ _ _ _ d) by done.
    unfold has_id. cbn [updated_inventory Inventory._id].
    by rewrite bool_decide_eq_true_2.
  - intros j Hj. by apply findById_updateOne_other.
Qed.

(** The theorem at work on [sample_db]: the glue is renamed while a cart
    holds a line item for it. *)
Lemma put_inventory_updates_witness :
  let req := {| PutInventory.itemName := Some "Wood glue";
                PutInventory.itemStatus := "enabled";
                PutInventory.itemQuantity := 12 |} in
  let r := put_inventory 0 req sample_db in
  let item := updated_inventory req glue in
  fst r = Ok item ∧
  (Inventory.itemName item, Inventory.itemStatus item, Inventory.itemQuantity item)
  = ("Wood glue", PutInventory.itemStatus req, PutInventory.itemQuantity req) ∧
  (Inventory.itemOrderedStatus item, Inventory.itemRemark item)
  = (Inventory.itemOrderedStatus glue, Inventory.itemRemark glue) ∧
  findById Inventory._id 0 (inventories (snd r)) = Some item ∧
  (∀ j, j ≠ 0 →
     findById Inventory._id j (inventories (snd r))
     = findById Inventory._id j (inventories sample_db)) ∧
  carts (snd r) = carts sample_db ∧ cartitems (snd r) = cartitems sample_db.
Proof.
  apply (put_inventory_updates sample_db 0
           {| PutInventory.itemName := Some "Wood glue";
              PutInventory.itemStatus := "enabled";
              PutInventory.itemQuantity := 12 |} "Wood glue" glue).
  - reflexivity.
  - reflexivity.
  - reflexivity.
  - repeat constructor.
Defined.

(** X20. A PUT /inventory/:id that passes the validators for a stored
    catalog item under the name another catalog item bears is answered 400
    with the message that the name already exists, the [Conflict] of the
    taxonomy, and changes nothing. *)
Theorem put_inventory_name_taken db id req name d other :
  PutInventory.valid req = true →
  PutInventory.itemName req = Some name →
  findById Inventory._id id (inventories db) = Some d →
  other ∈ inventories db → Inventory._id other ≠ id →
  Inventory.itemName other = name →
  let r := put_inventory id req db in
  fst r = Failed (Res 400 (error_text
                             "Item name must be unique. This name already exists.")) ∧
  (∀ resp, fst r = Failed resp → kind_of resp = Some Conflict) ∧
  snd r = db.
Proof.
  intros Hvalid Hname Hd Hin Hother Hsame.
  assert (Hr : put_inventory id req db
               = (Failed (Res 400 (error_text
                    "Item name must be unique. This name already exists.")), db)).
  { unfold put_inventory. rewrite Hvalid. cbn [negb].
    unfold try_catch_ok, bind, Inventory_findByIdAndUpdate. rewrite Hd.
    cbn [updated_inventory Inventory.itemName]. rewrite Hname.
    change (default (Inventory.itemName d) (Some name)) with name.
    replace (existsb _ (inventories db)) with true; [done|].
    symmetry. apply existsb_exists. exists other.
    split; [by apply list_elem_of_In|].
    unfold has_id. rewrite (bool_decide_eq_false_2 _ Hother).
    by rewrite (bool_decide_eq_true_2 _ Hsame). }
  cbv zeta. rewrite Hr. split; [done|]. split; [|done].
  by intros resp [= <-].
Qed.

Lemma put_inventory_name_taken_witness :
  let r := put_inventory 1
             {| PutInventory.itemName := Some "Glue";
                PutInventory.itemStatus := "enabled";
                PutInventory.itemQuantity := 4 |} catalog_db in
  fst r = Failed (Res 400 (error_text
                             "Item name must be unique. This name already exists.")) ∧
  (∀ resp, fst r = Failed resp → kind_of resp = Some Conflict) ∧
  snd r = catalog_db.
Proof.
  apply (put_inventory_name_taken catalog_db 1
           {| PutInventory.itemName := Some "Glue";
              PutInventory.itemStatus := "enabled";
              PutInventory.itemQuantity := 4 |} "Glue" rope glue).
  - reflexivity.
  - reflexivity.
  - reflexivity.
  - apply elem_of_cons. by left.
  - discriminate.
  - reflexivity.
Defined.

(** One iteration of the loop of /add-items for a catalog item stored
    under the empty name: the new line item fails its schema. *)
Lemma add_items_loop_nameless db cart i q inv rest :
  findById Inventory._id i (inventories db) = Some inv →
  Inventory.itemName inv = "" →
  findOne (by_cart_item_id (Cart._id cart) i) (cartitems db) = None →
  (1 ≤ q)%Z →
  add_items_loop cart
    ({| AddItems.item_id := i; AddItems.ordered_quantity := q |} :: rest) db
  = (Throw (ValidationError ["itemName"]), set_next_id (S (next_id db)) db).
Proof.
  intros Hinv Hname Hnone Hq.
  cbn [add_items_loop AddItems.item_id AddItems.ordered_quantity].
  unfold bind at 1, Inventory_findById. rewrite Hinv.
  unfold bind at 1, CartItem_findOne. rewrite Hnone.
  unfold bind at 1, new_CartItem, bind at 1, new_ObjectId, ret at 1.
  unfold bind at 1, CartItem_save, CartItem.invalid_paths.
  cbn [CartItem.itemName CartItem.ordered_quantity CartItem.status].
  rewrite Hname. rewrite (bool_decide_eq_false_2 (q < 1)%Z) by lia. done.
Qed.

(** X21. PUT /inventory/:id runs no schema validator and its input
    validators do not look at the name, so a catalog item can be renamed to
    the empty name; from then on an /add-items request for this item by a
    requester whose cart does not hold it yet is answered 500 with the
    validation error on [itemName] of the line item it tried to create. *)
Theorem empty_name_blocks_orders db id req d u q :
  fresh_ids db →
  PutInventory.valid req = true → PutInventory.itemName req = Some "" →
  findById Inventory._id id (inventories db) = Some d →
  Forall (fun d' => Inventory._id d' = id ∨ Inventory.itemName d' ≠ "")
    (inventories db) →
  (1 ≤ q)%Z →
  (∀ c, findOne (by_userId u) (carts db) = Some c →
        List.filter (by_cart_item_id (Cart._id c) id) (cartitems db) = []) →
  let r := put_inventory id req db in
  (∃ item, fst r = Ok item ∧ Inventory.itemName item = "") ∧
  fst (add_items (single_add u id q) (snd r))
  = Res 500 (error_message (ValidationError ["itemName"])).
Proof.
  intros [Hcarts Hitems] Hvalid Hname Hd Hfree Hq Hnone. cbv zeta.
  rewrite (put_inventory_run db id req "" d) by done. cbn [fst snd].
  split.
  { eexists. split; [done|]. cbn. by rewrite Hname. }
  set (db1 := set_inventories _ db).
  pose proof (findById_Some _ _ _ _ Hd) as [_ Hid].
  assert (Hinv : findById Inventory._id id (inventories db1)
                 = Some (updated_inventory req d)).
  { cbn [db1 inventories set_inventories].
    rewrite (findById_updateOne_same _ _ _ _ d) by done.
    unfold has_id. cbn [updated_inventory Inventory._id].
    by rewrite bool_decide_eq_true_2. }
  assert (Hempty : Inventory.itemName (updated_inventory req d) = "")
    by (cbn; by rewrite Hname).
  assert (Hv : AddItems.valid (single_add u id q) = true).
  { unfold AddItems.valid. simpl. by rewrite bool_decide_eq_true_2. }
  unfold add_items. rewrite Hv. unfold single_add.
  cbn [negb AddItems.userId AddItems.items].
  unfold try_catch. unfold bind at 1 2 3. unfold Cart_findOne.
  change (carts db1) with (carts db).
  destruct (findOne (by_userId u) (carts db)) as [c|] eqn:Hc.
  - specialize (Hnone c eq_refl). unfold ret at 1.
    rewrite (add_items_loop_nameless db1 c id q (updated_inventory req d));
      try done.
    by apply findOne_None_filter.
  - unfold new_Cart, bind at 1, new_ObjectId, ret at 1.
    rewrite (add_items_loop_nameless _ _ id q (updated_inventory req d));
      try done.
    apply findOne_None_filter. simpl.
    clear -Hitems. induction Hitems as [|x l [_ Hx] _ IH]; simpl; [done|].
    unfold by_cart_item_id at 1. rewrite bool_decide_eq_false_2 by lia. done.
Qed.

(** The theorem at work on [sample_db]: the glue loses its name, and
    requester 9 can no longer order it. *)
Lemma empty_name_blocks_orders_witness :
  let r := put_inventory 0
             {| PutInventory.itemName := Some "";
                PutInventory.itemStatus := "enabled";
                PutInventory.itemQuantity := 10 |} sample_db in
  (∃ item, fst r = Ok item ∧ Inventory.itemName item = "") ∧
  fst (add_items (single_add 9 0 2) (snd r))
  = Res 500 (error_message (ValidationError ["itemName"])).
Proof.
  apply (empty_name_blocks_orders sample_db 0
           {| PutInventory.itemName := Some "";
              PutInventory.itemStatus := "enabled";
              PutInventory.itemQuantity := 10 |} glue 9 2).
  - split; by apply (bool_decide_unpack _).
  - reflexivity.
  - reflexivity.
  - reflexivity.
  - repeat constructor.
  - lia.
  - discriminate.
Defined.

(** X22. /add-items never looks at the status of a catalog item: an item
    that is switched off is missing from the list GET /inventory/user
    gives requesters, and yet a validated request for it by a requester
    whose cart does not hold it is answered 200 and stores a line item for
    it. *)
Theorem disabled_item_still_orderable db u i q inv :
  fresh_ids db →
  findById Inventory._id i (inventories db) = Some inv →
  Inventory.itemStatus inv = "disabled" →
  NoDup (List.map Inventory._id (inventories db)) →
  Inventory.itemName inv ≠ "" → (1 ≤ q)%Z →
  (∀ c, findOne (by_userId u) (carts db) = Some c →
        List.filter (by_cart_item_id (Cart._id c) i) (cartitems db) = []) →
  (∃ listed, fst (get_inventory_user db) = Ok listed ∧
             i ∉ List.map inv_id listed) ∧
  status_code (fst (add_items (single_add u i q) db)) = 200%Z ∧
  ∃ n c, cartitems (snd (add_items (single_add u i q) db))
         = cartitems db ++ [catalog_line n c i (Inventory.itemName inv) q].
Proof.
  intros Hfresh Hinv Hoff Hnd Hname Hq Hnone. split.
  - eexists. split; [reflexivity|].
    rewrite map_map. cbn [inventory_view_of inv_id].
    intros Hin%list_elem_of_In%in_map_iff. destruct Hin as (x & Hid & Hx).
    apply filter_In in Hx as [Hx Hon]. apply bool_decide_eq_true_1 in Hon.
    apply findById_Some in Hinv as [Hin Hi].
    assert (x = inv); [|subst x; congruence].
    clear -Hnd Hx Hin Hid Hi. apply list_elem_of_In in Hx.
    induction (inventories db) as [|y l IH]; [by apply elem_of_nil in Hx|].
    simpl in Hnd. apply NoDup_cons in Hnd as [Hy Hnd].
    apply elem_of_cons in Hx as [-> | Hx], Hin as [-> | Hin]; try done.
    + exfalso. apply Hy. apply list_elem_of_fmap. exists inv. split; [congruence | done].
    + exfalso. apply Hy. apply list_elem_of_fmap. exists x. split; [congruence | done].
    + by apply IH.
  - destruct (add_items_first db u i q inv) as (cart & n & db1 & -> & _ & _ & _ & Hl & _);
      try done.
    split; [done|]. by exists n, (Cart._id cart).
Qed.

(** The theorem at work on [catalog_db]: requester 7 orders the rope that
    is switched off. *)
Lemma disabled_item_still_orderable_witness :
  (∃ listed, fst (get_inventory_user catalog_db) = Ok listed ∧
             1 ∉ List.map inv_id listed) ∧
  status_code (fst (add_items (single_add 7 1 2) catalog_db)) = 200%Z ∧
  ∃ n c, cartitems (snd (add_items (single_add 7 1 2) catalog_db))
         = cartitems catalog_db ++ [catalog_line n c 1 (Inventory.itemName rope) 2].
Proof.
  apply (disabled_item_still_orderable catalog_db 7 1 2 rope).
  - split; constructor.
  - reflexivity.
  - reflexivity.
  - by apply (bool_decide_unpack _).
  - discriminate.
  - lia.
  - discriminate.
Defined.

(** ** The batch of annotations *)

Lemma set_annotations_id it mem stored :
  Inventory._id (set_annotations it mem stored) = Inventory._id stored.
Proof. done. Qed.

Lemma set_annotations_assign it d :
  set_annotations it (assign_annotations it d) d = assign_annotations it d.
Proof.
  unfold set_annotations, assign_annotations. cbn.
  by destruct (UpdateInventoryItems.itemOrderedStatus it),
    (UpdateInventoryItems.itemRemark it).
Qed.

Lemma set_annotations_cataloged it mem stored :
  as_cataloged (set_annotations it mem stored) = as_cataloged stored.
Proof. done. Qed.

Lemma annotate_task_inr snap it mem :
  annotate_task snap it = inr mem →
  ∃ d, findById Inventory._id (UpdateInventoryItems._id it) snap = Some d ∧
       mem = assign_annotations it d ∧
       Inventory.invalid_paths (assign_annotations it d) = [] ∧
       Inventory._id mem = UpdateInventoryItems._id it.
Proof.
  unfold annotate_task. destruct (findById _ _ snap) as [d|] eqn:Hd; [|done].
  destruct (Inventory.invalid_paths _) eqn:Hv; [|done].
  intros [= <-]. exists d. do 3 (split; [done|]).
  cbn. by apply findById_Some in Hd as [_ ?].
Qed.

Lemma commit_annotation_other snap c it i :
  UpdateInventoryItems._id it ≠ i →
  findById Inventory._id i (commit_annotation snap c it) = findById Inventory._id i c.
Proof.
  intros Hne. unfold commit_annotation.
  destruct (annotate_task snap it) as [e|mem] eqn:Ht; [done|].
  apply annotate_task_inr in Ht as (_ & _ & _ & _ & Hid).
  apply findById_replace_other; [apply set_annotations_id | congruence].
Qed.

Lemma commit_annotation_same snap c it :
  findById Inventory._id (UpdateInventoryItems._id it) (commit_annotation snap c it)
  = match annotate_task snap it with
    | inr mem =>
        set_annotations it mem <$> findById Inventory._id (UpdateInventoryItems._id it) c
    | inl _ => findById Inventory._id (UpdateInventoryItems._id it) c
    end.
Proof.
  unfold commit_annotation. destruct (annotate_task snap it) as [e|mem] eqn:Ht; [done|].
  apply annotate_task_inr in Ht as (_ & _ & _ & _ & Hid). rewrite Hid.
  apply findById_replace_same, set_annotations_id.
Qed.

Lemma foldl_commit_annotation_other snap items i : ∀ c,
  annotations_for i items = [] →
  findById Inventory._id i (foldl (commit_annotation snap) c items)
  = findById Inventory._id i c.
Proof.
  induction items as [|it items IH]; intros c Hnone; simpl; [done|].
  unfold annotations_for in Hnone. simpl in Hnone.
  case_bool_decide as Hit; [done|].
  rewrite IH by done. by apply commit_annotation_other.
Qed.

Lemma foldl_commit_annotation_once snap items it : ∀ c,
  annotations_for (UpdateInventoryItems._id it) items = [it] →
  findById Inventory._id (UpdateInventoryItems._id it)
    (foldl (commit_annotation snap) c items)
  = findById Inventory._id (UpdateInventoryItems._id it) (commit_annotation snap c it).
Proof.
  induction items as [|x items IH]; intros c Hone; simpl; [done|].
  unfold annotations_for in Hone. simpl in Hone.
  case_bool_decide as Hx.
  - injection Hone as -> Hrest. by apply foldl_commit_annotation_other.
  - rewrite IH by done. rewrite !commit_annotation_same.
    by rewrite commit_annotation_other.
Qed.

Lemma annotations_for_once items it :
  NoDup (List.map UpdateInventoryItems._id items) → it ∈ items →
  annotations_for (UpdateInventoryItems._id it) items = [it].
Proof.
  unfold annotations_for.
  induction items as [|x l IH]; simpl; intros Hnd Hd; [by apply elem_of_nil in Hd|].
  apply NoDup_cons in Hnd as [Hx Hnd].
  assert (Hrest : ∀ y, y ∈ l → UpdateInventoryItems._id y ≠ UpdateInventoryItems._id x).
  { intros y Hy Heq. apply Hx. rewrite <- Heq. apply list_elem_of_fmap. by exists y. }
  apply elem_of_cons in Hd as [-> | Hd].
  - rewrite bool_decide_eq_true_2 by done. f_equal.
    clear -Hrest. induction l as [|y l IH]; simpl; [done|].
    rewrite bool_decide_eq_false_2 by (apply Hrest; left).
    apply IH. intros z Hz. apply Hrest. by right.
  - rewrite bool_decide_eq_false_2 by (symmetry; by apply Hrest). by apply IH.
Qed.

Lemma map_cataloged_commit_annotations snap items : ∀ c,
  List.map as_cataloged (foldl (commit_annotation snap) c items)
  = List.map as_cataloged c.
Proof.
  induction items as [|it items IH]; intros c; simpl; [done|].
  rewrite IH. unfold commit_annotation.
  destruct (annotate_task snap it); [done|].
  rewrite map_map. apply map_ext. intros d. by destruct (has_id _ _ d).
Qed.

(** X23. PUT /update-inventory-items annotates and nothing else: whatever
    the batch holds and however it is answered, the catalog afterwards has
    the same items in the same order under the same ids, names, quantities
    and statuses, and the carts and line items are as before. *)
Theorem update_inventory_items_keeps_catalog items db :
  List.map as_cataloged (inventories (snd (update_inventory_items items db)))
  = List.map as_cataloged (inventories db) ∧
  carts (snd (update_inventory_items items db)) = carts db ∧
  cartitems (snd (update_inventory_items items db)) = cartitems db.
Proof.
  unfold update_inventory_items.
  destruct (rejections _); cbn [snd inventories carts cartitems set_inventories];
    by rewrite map_cataloged_commit_annotations.
Qed.

Lemma assign_annotations_valid it d :
  Inventory.invalid_paths d = [] →
  Inventory.invalid_paths (assign_annotations it d) = [] ↔ accepted_annotation it = true.
Proof.
  unfold Inventory.invalid_paths, accepted_annotation, assign_annotations.
  cbn [Inventory.itemStatus Inventory.itemName Inventory.itemOrderedStatus].
  destruct (UpdateInventoryItems.itemOrderedStatus it) as [s|]; cbn [default];
    repeat case_bool_decide; simpl; try done.
Qed.

Lemma rejections_nil {A} (results : list (error + A)) :
  rejections results = [] ↔ Forall (fun r => ∃ a, r = inr a) results.
Proof.
  unfold rejections. induction results as [|[e|a] l IH]; simpl.
  - split; [constructor | done].
  - split; [done|]. intros [[a Ha] _]%Forall_cons. done.
  - rewrite IH. split; [intros ?; constructor; eauto | by intros [_ ?]%Forall_cons].
Qed.

(** X24. On a catalog whose items pass their schema, a batch of
    PUT /update-inventory-items that names each catalog item at most once
    treats its items one by one: an item whose ordering status the schema
    accepts has its annotations stored, an item with another ordering
    status leaves its catalog item as it was, whatever happens to the
    others; the batch is answered 200 exactly when every item names a
    stored catalog item and is accepted. *)
Theorem update_inventory_items_per_item db items :
  NoDup (List.map UpdateInventoryItems._id items) →
  Forall (fun d => Inventory.invalid_paths d = []) (inventories db) →
  let r := update_inventory_items items db in
  (∀ it d, it ∈ items →
     findById Inventory._id (UpdateInventoryItems._id it) (inventories db) = Some d →
     findById Inventory._id (UpdateInventoryItems._id it) (inventories (snd r))
     = Some (if accepted_annotation it then assign_annotations it d else d)) ∧
  ((∃ l, fst r = Ok l) ↔
   Forall (fun it =>
             is_Some (findById Inventory._id (UpdateInventoryItems._id it)
                        (inventories db)) ∧
             accepted_annotation it = true) items).
Proof.
  intros Hnd Hvalid.
  assert (Htask : ∀ it d,
            findById Inventory._id (UpdateInventoryItems._id it) (inventories db) = Some d →
            annotate_task (inventories db) it
            = if accepted_annotation it then inr (assign_annotations it d)
              else inl (ValidationError
                          (Inventory.invalid_paths (assign_annotations it d)))).
  { intros it d Hd. unfold annotate_task. rewrite Hd. cbv zeta.
    rewrite Forall_forall in Hvalid.
    pose proof (findById_Some _ _ _ _ Hd) as [Hin _].
    pose proof (assign_annotations_valid it d (Hvalid d Hin)) as Hiff.
    destruct (accepted_annotation it).
    - by rewrite (proj2 Hiff eq_refl).
    - destruct (Inventory.invalid_paths (assign_annotations it d)); [|done].
      discriminate (proj1 Hiff eq_refl). }
  split.
  - intros it d Hit Hd.
    assert (Hsnd : inventories (snd (update_inventory_items items db))
                   = foldl (commit_annotation (inventories db)) (inventories db) items).
    { unfold update_inventory_items. by destruct (rejections _). }
    rewrite Hsnd.
    rewrite foldl_commit_annotation_once by by apply annotations_for_once.
    rewrite commit_annotation_same, (Htask it d Hd), Hd.
    destruct (accepted_annotation it); [|done].
    simpl. f_equal. apply set_annotations_assign.
  - assert (Hfst : (∃ l, fst (update_inventory_items items db) = Ok l) ↔
                   rejections (List.map (annotate_task (inventories db)) items)
                   = []).
    { unfold update_inventory_items.
      destruct (rejections _); simpl; split; try done; [eauto | by intros [? ?]]. }
    rewrite Hfst, rejections_nil, Forall_fmap.
    apply Forall_iff. intros it. simpl. split.
    + intros [mem Hmem]. apply annotate_task_inr in Hmem as (d & Hd & _ & Hv & _).
      split; [by exists d|].
      rewrite Forall_forall in Hvalid.
      pose proof (findById_Some _ _ _ _ Hd) as [Hin _].
      by apply (assign_annotations_valid it d (Hvalid d Hin)).
    + intros [[d Hd] Hacc]. rewrite (Htask it d Hd), Hacc. eauto.
Qed.

(** The theorem at work on [catalog_db]: the glue is marked as ordered,
    the rope gets an ordering status the schema does not know. *)
Lemma update_inventory_items_per_item_witness :
  let items :=
    [{| UpdateInventoryItems._id := 0;
        UpdateInventoryItems.itemOrderedStatus := Some "Ordered from Amazon";
        UpdateInventoryItems.itemRemark := Some "by Friday" |};
     {| UpdateInventoryItems._id := 1;
        UpdateInventoryItems.itemOrderedStatus := Some "Lost";
        UpdateInventoryItems.itemRemark := None |}] in
  let r := update_inventory_items items catalog_db in
  (∀ it d, it ∈ items →
     findById Inventory._id (UpdateInventoryItems._id it) (inventories catalog_db)
     = Some d →
     findById Inventory._id (UpdateInventoryItems._id it) (inventories (snd r))
     = Some (if accepted_annotation it then assign_annotations it d else d)) ∧
  ((∃ l, fst r = Ok l) ↔
   Forall (fun it =>
             is_Some (findById Inventory._id (UpdateInventoryItems._id it)
                        (inventories catalog_db)) ∧
             accepted_annotation it = true) items).
Proof.
  apply (update_inventory_items_per_item catalog_db
           [{| UpdateInventoryItems._id := 0;
               UpdateInventoryItems.itemOrderedStatus := Some "Ordered from Amazon";
               UpdateInventoryItems.itemRemark := Some "by Friday" |};
            {| UpdateInventoryItems._id := 1;
               UpdateInventoryItems.itemOrderedStatus := Some "Lost";
               UpdateInventoryItems.itemRemark := None |}]).
  - by apply (bool_decide_unpack _).
  - repeat constructor.
Defined.

(** * Carts and their references *)

Lemma lines_kept_refl db : lines_kept db db.
Proof. split; [done|]. intros i d' _ Hd'. by exists d'. Qed.

Lemma lines_kept_trans db1 db2 db3 :
  lines_kept db1 db2 → lines_kept db2 db3 → lines_kept db1 db3.
Proof.
  intros [Hn12 H12] [Hn23 H23]. split; [lia|]. intros i d3 Hi Hd3.
  destruct (H23 i d3 ltac:(lia) Hd3) as (d2 & Hd2 & Hc2).
  destruct (H12 i d2 Hi Hd2) as (d1 & Hd1 & Hc1).
  exists d1. split; [done | congruence].
Qed.

Lemma lines_kept_same db db' :
  cartitems db' = cartitems db → next_id db ≤ next_id db' → lines_kept db db'.
Proof. intros Hl Hn. split; [done|]. intros i d' _. rewrite Hl. by exists d'. Qed.

Lemma lines_kept_sublist db db' :
  NoDup (List.map CartItem._id (cartitems db)) →
  cartitems db' `sublist_of` cartitems db → next_id db ≤ next_id db' →
  lines_kept db db'.
Proof.
  intros Hnd Hsub Hn. split; [done|]. intros i d' _ Hd'.
  apply findById_Some in Hd' as [Hin <-]. exists d'. split; [|done].
  apply findById_of_elem; [done|]. by eapply elem_of_sublist.
Qed.

Lemma lines_kept_requested db db' :
  (∀ i, as_requested <$> findById CartItem._id i (cartitems db')
        = as_requested <$> findById CartItem._id i (cartitems db)) →
  next_id db ≤ next_id db' → lines_kept db db'.
Proof.
  intros Hsame Hn. split; [done|]. intros i d' _ Hd'.
  specialize (Hsame i). rewrite Hd' in Hsame.
  destruct (findById CartItem._id i (cartitems db)) as [d|]; [|done].
  exists d. split; [done|]. simpl in Hsame. injection Hsame. congruence.
Qed.

Lemma lines_kept_store db d0 d' :
  findById CartItem._id (CartItem._id d') (cartitems db) = Some d0 →
  CartItem.cart d' = CartItem.cart d0 →
  lines_kept db (set_cartitems (store CartItem._id d' (cartitems db)) db).
Proof.
  intros Hd0 Hcart. split; [done|]. intros i d Hi. cbn [cartitems set_cartitems].
  rewrite findById_store. case_bool_decide as Heq.
  - intros [= <-]. subst i. by exists d0.
  - intros Hd. by exists d.
Qed.

Lemma lines_kept_new_line db d :
  next_id db ≤ CartItem._id d →
  lines_kept db (set_cartitems (cartitems db ++ [d]) (set_next_id (S (next_id db)) db)).
Proof.
  intros Hid. split; [simpl; lia|]. intros i d' Hi. cbn [cartitems set_cartitems].
  unfold findById. rewrite findOne_app. fold (findById CartItem._id i (cartitems db)).
  destruct (findById CartItem._id i (cartitems db)) as [x|].
  - intros [= <-]. by exists x.
  - unfold findOne. simpl. unfold has_id. by rewrite bool_decide_eq_false_2 by lia.
Qed.

Lemma refs_ok_cart_kept db db' c :
  refs_ok_cart db c → lines_kept db db' → refs_ok_cart db' c.
Proof.
  unfold refs_ok_cart. intros Hc [Hn Hk]. eapply Forall_impl; [exact Hc|].
  intros i [Hi Hd]. split; [lia|].
  destruct (findById CartItem._id i (cartitems db')) as [d'|] eqn:Hd'; [|done].
  destruct (Hk i d' Hi Hd') as (d & Hfound & Hcart). rewrite Hfound in Hd. congruence.
Qed.

Lemma carts_ok_kept db db' :
  carts_ok db → lines_kept db db' → carts db' `sublist_of` carts db → carts_ok db'.
Proof.
  intros [Hnd Hrefs] Hk Hsub. split.
  - by eapply NoDup_map_sublist.
  - eapply Forall_sublist; [|exact Hsub].
    eapply Forall_impl; [exact Hrefs|]. intros c Hc. by eapply refs_ok_cart_kept.
Qed.

Lemma findById_of_cart (l : list Cart.t) c :
  NoDup (List.map Cart._id l) → c ∈ l → findById Cart._id (Cart._id c) l = Some c.
Proof.
  intros Hnd Hin. unfold findById, findOne.
  induction l as [|x l IH]; [by apply elem_of_nil in Hin|].
  simpl in Hnd |- *. apply NoDup_cons in Hnd as [Hx Hnd].
  apply elem_of_cons in Hin as [<- | Hin].
  - unfold has_id. by rewrite bool_decide_eq_true_2.
  - unfold has_id at 1. rewrite bool_decide_eq_false_2; [by apply IH|].
    intros Heq. apply Hx. rewrite Heq. apply list_elem_of_fmap. by exists c.
Qed.

(** A stored cart written back under the requester it had. *)
Lemma carts_ok_replace db c0 c' :
  carts_ok db → NoDup (List.map Cart._id (carts db)) →
  findById Cart._id (Cart._id c') (carts db) = Some c0 →
  Cart.userId c' = Cart.userId c0 → refs_ok_cart db c' →
  carts_ok (set_carts (store Cart._id c' (carts db)) db).
Proof.
  intros [Hnd Hrefs] Hids Hc0 Hu Hc'.
  unfold store. rewrite (existsb_has_id_found _ _ _ _ Hc0).
  destruct (findById_Some _ _ _ _ Hc0) as [Hin Hid].
  assert (Hsame : ∀ x, x ∈ carts db → has_id Cart._id (Cart._id c') x = true → x = c0).
  { intros x Hx Hq. apply bool_decide_eq_true_1 in Hq.
    pose proof (findById_of_cart _ _ Hids Hx) as Hfx. rewrite Hq, Hc0 in Hfx.
    by injection Hfx. }
  split; cbn [carts set_carts].
  - replace (List.map Cart.userId (List.map _ (carts db)))
      with (List.map Cart.userId (carts db)); [done|].
    rewrite map_map. apply map_ext_in. intros x Hx%list_elem_of_In.
    destruct (has_id Cart._id (Cart._id c') x) eqn:Hq; [|done].
    rewrite (Hsame x Hx Hq). done.
  - rewrite Forall_forall in Hrefs |- *.
    intros y (x & -> & Hx)%list_elem_of_fmap.
    destruct (has_id Cart._id (Cart._id c') x); [done | by apply Hrefs].
Qed.

(** A cart stored for a requester who had none. *)
Lemma carts_ok_append db c' :
  carts_ok db → findOne (by_userId (Cart.userId c')) (carts db) = None →
  refs_ok_cart db c' →
  carts_ok (set_carts (carts db ++ [c']) db).
Proof.
  intros [Hnd Hrefs] Hnone Hc'. split; cbn [carts set_carts].
  - rewrite map_app. apply NoDup_app. split; [done|]. split; [|apply NoDup_singleton].
    intros u (x & -> & Hx)%list_elem_of_fmap Hu%list_elem_of_singleton.
    apply findOne_None_filter in Hnone.
    assert (Hf : In x (List.filter (by_userId (Cart.userId c')) (carts db))).
    { apply filter_In. split; [by apply list_elem_of_In|].
      unfold by_userId. by apply bool_decide_eq_true_2. }
    rewrite Hnone in Hf. destruct Hf.
  - apply Forall_app. split; [done | by apply Forall_singleton].
Qed.

(** [cart.save()] at the end of the two add routes. *)
Lemma carts_ok_Cart_save db c' :
  carts_ok db → NoDup (List.map Cart._id (carts db)) → refs_ok_cart db c' →
  (∃ c0, c0 ∈ carts db ∧ Cart._id c' = Cart._id c0 ∧ Cart.userId c' = Cart.userId c0)
  ∨ (findOne (by_userId (Cart.userId c')) (carts db) = None ∧
     Forall (fun x => Cart._id x < Cart._id c') (carts db)) →
  carts_ok (snd (Cart_save c' db)).
Proof.
  intros Hok Hids Hc' [(c0 & Hin & Hid & Hu) | [Hnone Hlt]]; unfold Cart_save.
  - assert (Hc0 : findById Cart._id (Cart._id c') (carts db) = Some c0)
      by (rewrite Hid; by apply findById_of_cart).
    rewrite (existsb_has_id_found _ _ _ _ Hc0). cbn [snd].
    by apply (carts_ok_replace db c0).
  - pose proof (existsb_has_id_below Cart._id _ _ Hlt) as He. rewrite He.
    replace (existsb _ (carts db)) with false.
    + cbn [snd]. rewrite store_new by done. by apply carts_ok_append.
    + symmetry. apply not_true_is_false. intros [x [Hin Hx]]%existsb_exists.
      apply findOne_None_filter in Hnone.
      assert (Hf : In x (List.filter (by_userId (Cart.userId c')) (carts db))).
      { apply filter_In. split; [done|]. unfold by_userId. done. }
      rewrite Hnone in Hf. destruct Hf.
Qed.

(** ** The routes that leave the carts alone *)

Lemma store_kept_refl db : store_kept db db.
Proof. split; [apply lines_kept_refl | done]. Qed.

Lemma store_kept_same db db' :
  cartitems db' = cartitems db → carts db' = carts db → next_id db ≤ next_id db' →
  store_kept db db'.
Proof. intros Hl Hc Hn. split; [by apply lines_kept_same | by rewrite Hc]. Qed.

Lemma carts_ok_store_kept db db' : carts_ok db → store_kept db db' → carts_ok db'.
Proof. intros Hok [Hk Hsub]. by eapply carts_ok_kept. Qed.

Lemma kept_post_inventory req db : store_kept db (snd (post_inventory req db)).
Proof.
  unfold post_inventory. destruct (negb _); [apply store_kept_refl|].
  unfold try_catch, bind at 1, new_Inventory, bind at 1, new_ObjectId, ret at 1.
  unfold bind, Inventory_save.
  destruct (Inventory.invalid_paths _); [destruct (existsb _ _)|];
    (apply store_kept_same; simpl; done || lia).
Qed.

Lemma kept_put_inventory id req db : store_kept db (snd (put_inventory id req db)).
Proof.
  unfold put_inventory. destruct (negb _); [apply store_kept_refl|].
  unfold try_catch_ok, bind, Inventory_findByIdAndUpdate.
  destruct (findById _ _ _) as [d|]; [destruct (existsb _ _)|];
    (apply store_kept_same; simpl; done || lia).
Qed.

Lemma kept_update_inventory_items items db :
  store_kept db (snd (update_inventory_items items db)).
Proof.
  unfold update_inventory_items.
  destruct (rejections _); (apply store_kept_same; simpl; done || lia).
Qed.

Lemma kept_delete_inventory id db :
  store_ok db → store_kept db (snd (delete_inventory id db)).
Proof.
  intros (_ & _ & (_ & _ & Hnd) & _).
  assert (Hr : snd (delete_inventory id db)
               = set_cartitems (deleteMany (by_item_id id) (cartitems db))
                   (set_inventories
                      (deleteOne (has_id Inventory._id id) (inventories db)) db)).
  { unfold delete_inventory, try_catch, bind, Inventory_findByIdAndDelete,
      CartItem_deleteMany.
    by destruct (findById Inventory._id id (inventories db)). }
  rewrite Hr. split; [|done].
  apply lines_kept_sublist; [done | apply deleteMany_sublist | done].
Qed.

Lemma requested_update_cart_item_status cartItemId req db :
  ∃ l, snd (update_cart_item_status cartItemId req db) = set_cartitems l db ∧
       ∀ i, as_requested <$> findById CartItem._id i l
            = as_requested <$> findById CartItem._id i (cartitems db).
Proof.
  unfold update_cart_item_status. destruct (negb _); [exists (cartitems db); by destruct db|].
  unfold try_catch, bind, CartItem_findById.
  destruct (findById _ cartItemId _) as [d|] eqn:Hd;
    [|exists (cartitems db); by destruct db].
  match goal with |- context [CartItem_save ?x ?s] =>
    destruct (CartItem_save_cases x s) as [[-> _] | [-> _]] end;
    [exists (cartitems db); by destruct db|].
  eexists. split; [done|]. intros i. apply (as_requested_store _ _ d).
  - rewrite assign_updates_id. by destruct (findById_Some _ _ _ _ Hd) as [_ ->].
  - apply assign_updates_as_requested.
Qed.

Lemma kept_update_cart_item_status cartItemId req db :
  store_kept db (snd (update_cart_item_status cartItemId req db)).
Proof.
  destruct (requested_update_cart_item_status cartItemId req db) as (l & -> & Hsame).
  split; [|done]. by apply lines_kept_requested.
Qed.

Lemma kept_update_multiple_cart_items items db :
  store_kept db (snd (update_multiple_cart_items items db)).
Proof.
  unfold update_multiple_cart_items.
  destruct (negb _); [apply store_kept_refl|].
  assert (Hk : store_kept db
                 (set_cartitems
                    (foldl (commit_task (cartitems db)) (cartitems db) items) db)).
  { split; [|done].
    apply lines_kept_requested; [|done]. intros i. apply as_requested_commit_tasks. }
  by destruct (rejections _).
Qed.

Lemma lenient_loop_next_id ids items : ∀ db,
  next_id (snd (update_items_status_loop ids items db)) = next_id db.
Proof.
  induction items as [|item rest IH]; intros db; [done|].
  cbn [update_items_status_loop]. unfold bind at 1, CartItem_findById.
  destruct (findById _ _ _) as [d|]; [|done].
  destruct (CartItem.item_id d) as [| |k]; [done | done |].
  case_bool_decide; [|by apply IH]. unfold bind.
  match goal with |- context [CartItem_save ?x ?s] =>
    destruct (CartItem_save_cases x s) as [[-> _] | [-> _]] end; [done|].
  by rewrite IH.
Qed.

Lemma kept_update_items_status items db :
  store_kept db (snd (update_items_status items db)).
Proof.
  unfold update_items_status. destruct (negb _); [apply store_kept_refl|].
  unfold try_catch, bind at 1, Inventory_find. unfold bind.
  pose proof (as_requested_lenient_loop
                (List.map Inventory._id (inventories db)) items db) as Hsame.
  pose proof (lenient_loop_next_id
                (List.map Inventory._id (inventories db)) items db) as Hn.
  destruct (update_items_status_loop _ items db) as [o db'] eqn:Hrun.
  destruct (lenient_loop_frame _ _ _ _ _ Hrun) as [_ Hc]. simpl in Hsame, Hn.
  assert (store_kept db db').
  { split; [|by rewrite Hc]. apply lines_kept_requested; [done | lia]. }
  by destruct o as [[]| |].
Qed.

Lemma kept_remove_cart cart_id db :
  store_ok db → store_kept db (snd (remove_cart cart_id db)).
Proof.
  intros (_ & _ & (_ & _ & Hnd) & _).
  assert (Hr : snd (remove_cart cart_id db)
               = set_cartitems (deleteMany (by_cart cart_id) (cartitems db))
                   (set_carts (deleteOne (has_id Cart._id cart_id) (carts db)) db)).
  { unfold remove_cart, try_catch_ok, bind, Cart_findByIdAndDelete, CartItem_deleteMany.
    by destruct (findById Cart._id cart_id (carts db)). }
  rewrite Hr. split; [|apply deleteOne_sublist].
  apply lines_kept_sublist; [done | apply deleteMany_sublist | done].
Qed.

(** ** The routes that write carts *)

Lemma refs_ok_cart_filter db c (f : ObjectId -> bool) :
  refs_ok_cart db c →
  refs_ok_cart db (Cart.with_cartItems (List.filter f (Cart.cartItems c)) c).
Proof.
  unfold refs_ok_cart. cbn [Cart.cartItems Cart.with_cartItems Cart._id].
  intros Hc. eapply Forall_sublist; [exact Hc | apply List_filter_sublist].
Qed.

Lemma carts_ok_remove_item cart itemName db :
  store_ok db → carts_ok db → carts_ok (snd (remove_item cart itemName db)).
Proof.
  intros Hok Hcarts.
  unfold remove_item, try_catch, bind, Cart_findOne, CartItem_findOne,
    CartItem_deleteOne, Cart_deleteOne, respond.
  fold (findById Cart._id cart (carts db)).
  destruct (findById Cart._id cart (carts db)) as [cartDoc|] eqn:Hc; [|done].
  destruct (findOne _ (cartitems db)) as [cartItem|]; [|done].
  set (db1 := set_cartitems
                (deleteOne (has_id CartItem._id (CartItem._id cartItem)) (cartitems db))
                db).
  pose proof Hok as (_ & _ & (_ & Hids & Hnd) & _).
  assert (Hk1 : store_kept db db1).
  { split; [|done]. apply lines_kept_sublist; [done | apply deleteOne_sublist | done]. }
  pose proof (carts_ok_store_kept _ _ Hcarts Hk1) as Hcarts1.
  destruct (findById_Some _ _ _ _ Hc) as [Hin Hid].
  case_bool_decide.
  - cbn [snd]. apply (carts_ok_store_kept db1); [done|].
    split; [by apply lines_kept_same | apply deleteOne_sublist].
  - match goal with |- context [Cart_save ?c ?s] =>
      assert (Hsave : carts_ok (snd (Cart_save c s))) end.
    { apply carts_ok_Cart_save; [done | done | |].
      - apply refs_ok_cart_filter. destruct Hcarts1 as [_ Hrefs].
        rewrite Forall_forall in Hrefs. by apply Hrefs.
      - left. by exists cartDoc. }
    match goal with |- context [Cart_save ?c ?s] =>
      by destruct (Cart_save c s) as [[[]| |] db2] end.
Qed.

(** One iteration of the loop of /add-items. *)
Lemma add_items_step_refs cart item db o db1 :
  store_ok db → refs_ok_cart db cart →
  add_items_loop cart [item] db = (o, db1) →
  lines_kept db db1 ∧
  match o with Next cart' => refs_ok_cart db1 cart' | _ => True end.
Proof.
  intros Hok Hrefs Hrun.
  pose proof Hok as (_ & [_ Hlines] & (_ & _ & Hnd) & _).
  assert (Hfresh : Forall (fun d => CartItem._id d < next_id db) (cartitems db))
    by (eapply Forall_impl; [exact Hlines|]; by intros ? []).
  cbn [add_items_loop] in Hrun. unfold bind at 1, Inventory_findById in Hrun.
  destruct (findById Inventory._id _ _) as [inv|];
    [|injection Hrun as <- <-; split; [apply lines_kept_refl | done]].
  unfold bind at 1, CartItem_findOne in Hrun.
  destruct (findOne _ (cartitems db)) as [e|] eqn:He.
  - unfold bind at 1 in Hrun.
    match type of Hrun with context [CartItem_save ?x ?s] =>
      destruct (CartItem_save_cases x s) as [[Hs _] | [Hs _]]; rewrite Hs in Hrun end;
      injection Hrun as <- <-; [split; [apply lines_kept_refl | done]|].
    apply findOne_Some in He as [Hin _].
    assert (Hk : lines_kept db
              (set_cartitems
                 (store CartItem._id
                    (CartItem.with_ordered_quantity
                       (CartItem.ordered_quantity e + AddItems.ordered_quantity item) e)
                    (cartitems db)) db)).
    { apply (lines_kept_store db e); [|done].
      cbn [CartItem._id CartItem.with_ordered_quantity]. by apply findById_of_elem. }
    split; [done | by eapply refs_ok_cart_kept].
  - unfold bind at 1, new_CartItem, bind at 1, new_ObjectId, ret at 1 in Hrun.
    unfold bind at 1 in Hrun.
    match type of Hrun with context [CartItem_save ?x ?s] =>
      destruct (CartItem_save_cases x s) as [[Hs _] | [Hs _]]; rewrite Hs in Hrun end;
      injection Hrun as <- <-.
    { split; [|done]. apply lines_kept_same; simpl; done || lia. }
    cbn [cartitems set_cartitems set_next_id CartItem._id].
    rewrite store_new by by apply existsb_has_id_below.
    match goal with |- lines_kept db (set_cartitems (_ ++ [?line]) _) ∧ _ =>
      pose proof (lines_kept_new_line db line ltac:(done)) as Hk end.
    split; [done|].
    unfold refs_ok_cart. cbn [Cart.cartItems Cart.with_cartItems Cart._id].
    apply Forall_app. split; [by apply (refs_ok_cart_kept db)|].
    apply Forall_singleton. cbn [next_id set_cartitems set_next_id cartitems].
    split; [lia|].
    unfold findById. rewrite findOne_app.
    replace (findOne (has_id CartItem._id (next_id db)) (cartitems db))
      with (@None CartItem.t).
    + unfold findOne. simpl. unfold has_id. by rewrite bool_decide_eq_true_2.
    + symmetry. apply (findById_existsb CartItem._id). by apply existsb_has_id_below.
Qed.

Lemma add_items_loop_refs items : ∀ cart db o db',
  store_ok db → Cart._id cart < next_id db → refs_ok_cart db cart →
  add_items_loop cart items db = (o, db') →
  lines_kept db db' ∧
  match o with Next cart' => refs_ok_cart db' cart' | _ => True end.
Proof.
  induction items as [|item rest IH]; intros cart db o db' Hok Hcart Hrefs Hrun.
  { injection Hrun as <- <-. split; [apply lines_kept_refl | done]. }
  rewrite add_items_loop_cons in Hrun.
  destruct (add_items_loop cart [item] db) as [o1 db1] eqn:Hone.
  destruct (add_items_step_refs _ _ _ _ _ Hok Hrefs Hone) as [Hk1 Hr1].
  destruct (add_items_loop_ok _ _ _ _ _ Hok Hcart Hone) as (Hok1 & _ & _ & Hn1 & Hc1).
  destruct o1 as [cart1| |]; try (by injection Hrun as <- <-).
  destruct Hc1 as [Hid1 _].
  destruct (IH cart1 db1 o db' Hok1 ltac:(lia) Hr1 Hrun) as [Hk Hr].
  split; [by eapply lines_kept_trans | done].
Qed.

(** The cart the two add routes work on, with what saving it will need. *)
Lemma cart_for_refs u db :
  store_ok db → carts_ok db →
  ∃ cart db0,
    match findOne (by_userId u) (carts db) with
    | Some cart => ret cart
    | None => new_Cart u
    end db = (Next cart, db0) ∧
    store_ok db0 ∧ carts db0 = carts db ∧ Cart._id cart < next_id db0 ∧
    lines_kept db db0 ∧ refs_ok_cart db0 cart ∧
    ((∃ c0, c0 ∈ carts db ∧ Cart._id cart = Cart._id c0
            ∧ Cart.userId cart = Cart.userId c0)
     ∨ (findOne (by_userId (Cart.userId cart)) (carts db) = None ∧
        Forall (fun x => Cart._id x < Cart._id cart) (carts db))).
Proof.
  intros Hok [_ Hrefs].
  destruct (findOne (by_userId u) (carts db)) as [c|] eqn:Hc.
  - exists c, db. apply findOne_Some in Hc as [Hin _].
    pose proof Hok as (_ & [Hcarts _] & _). rewrite Forall_forall in Hcarts, Hrefs.
    do 3 (split; [done|]). split; [by apply Hcarts|].
    split; [apply lines_kept_refl|]. split; [by apply Hrefs|].
    left. by exists c.
  - eexists _, _. split; [reflexivity|].
    split; [by apply store_ok_next_id; [|lia]|].
    split; [done|]. split; [simpl; lia|].
    split; [apply lines_kept_same; simpl; done || lia|].
    split; [constructor|].
    right. split; [done|]. by destruct Hok as (_ & [Hcarts _] & _).
Qed.

(** [cart.save()] and the answer that end the two add routes. *)
Lemma carts_ok_finish db db1 cart cart' :
  store_ok db1 → carts_ok db → lines_kept db db1 → carts db1 = carts db →
  refs_ok_cart db1 cart' →
  Cart._id cart' = Cart._id cart → Cart.userId cart' = Cart.userId cart →
  ((∃ c0, c0 ∈ carts db ∧ Cart._id cart = Cart._id c0
          ∧ Cart.userId cart = Cart.userId c0)
   ∨ (findOne (by_userId (Cart.userId cart)) (carts db) = None ∧
      Forall (fun x => Cart._id x < Cart._id cart) (carts db))) →
  carts_ok
    (snd (let (o, db') :=
            (let* _ := Cart_save cart' in ret (Res 200 (json_cart cart'))) db1 in
          match o with
          | Next r | Return r => (r, db')
          | Throw e => (Res 500 (error_message e), db')
          end)).
Proof.
  intros Hok1 Hcarts Hk Hc1 Hrefs Hid Hu Hcase.
  assert (Hcarts1 : carts_ok db1).
  { apply (carts_ok_kept db); [done | done | by rewrite Hc1]. }
  assert (Hsave : carts_ok (snd (Cart_save cart' db1))).
  { apply carts_ok_Cart_save; [done | by destruct Hok1 as (_ & _ & (_ & ? & _) & _) | done |].
    rewrite Hc1, Hid, Hu. exact Hcase. }
  unfold bind. by destruct (Cart_save cart' db1) as [[[]| |] db2].
Qed.

Lemma carts_ok_add_items req db :
  store_ok db → carts_ok db → carts_ok (snd (add_items req db)).
Proof.
  intros Hok Hcarts. unfold add_items. destruct (negb _); [done|].
  unfold try_catch. unfold bind at 1, Cart_findOne. unfold bind at 1.
  destruct (cart_for_refs (AddItems.userId req) db Hok Hcarts)
    as (cart & db0 & -> & Hok0 & Hc0 & Hid0 & Hk0 & Hrefs0 & Hcase).
  unfold bind at 1.
  destruct (add_items_loop cart (AddItems.items req) db0) as [o1 db1] eqn:Hloop.
  destruct (add_items_loop_ok _ _ _ _ _ Hok0 Hid0 Hloop) as (Hok1 & Hc1 & _ & _ & Hcart).
  destruct (add_items_loop_refs _ _ _ _ _ Hok0 Hid0 Hrefs0 Hloop) as [Hk1 Hrefs1].
  assert (Hk : lines_kept db db1) by (by eapply lines_kept_trans).
  destruct o1 as [cart'| |];
    [|cbn [snd]; apply (carts_ok_kept db); [done | done | by rewrite Hc1, Hc0]..].
  destruct Hcart as [Hid' Hu'].
  apply (carts_ok_finish db db1 cart cart'); try done. by rewrite Hc1.
Qed.

Lemma carts_ok_add_custom_item req db :
  store_ok db → carts_ok db → carts_ok (snd (add_custom_item req db)).
Proof.
  intros Hok Hcarts. unfold add_custom_item. destruct (negb _); [done|].
  unfold try_catch. unfold bind at 1, Cart_findOne. unfold bind at 1.
  destruct (cart_for_refs (AddCustomItem.userId req) db Hok Hcarts)
    as (cart & db0 & -> & Hok0 & Hc0 & Hid0 & Hk0 & Hrefs0 & Hcase).
  unfold bind at 1, CartItem_findOne. unfold bind at 1.
  pose proof Hok0 as (_ & [_ Hlines] & (_ & _ & Hnd) & _).
  assert (Hfresh : Forall (fun d => CartItem._id d < next_id db0) (cartitems db0))
    by (eapply Forall_impl; [exact Hlines|]; by intros ? []).
  assert (Hstop : ∀ db1, lines_kept db0 db1 → carts db1 = carts db0 → carts_ok db1).
  { intros db1 Hk1 Hc1. apply (carts_ok_kept db); [done | | by rewrite Hc1, Hc0].
    by eapply lines_kept_trans. }
  destruct (findOne _ (cartitems db0)) as [e|] eqn:He.
  - unfold bind at 1.
    match goal with |- context [CartItem_save ?d ?s] =>
      destruct (CartItem_save_cases d s) as [[-> _] | [-> Hvalid]] end.
    { cbn [snd]. apply Hstop; [apply lines_kept_refl | done]. }
    unfold ret at 1.
    apply findOne_Some in He as [Hin _].
    match goal with |- context [set_cartitems (store CartItem._id ?d _) db0] =>
      assert (Hk1 : lines_kept db0
                (set_cartitems (store CartItem._id d (cartitems db0)) db0)) end.
    { apply (lines_kept_store db0 e).
      - replace (CartItem._id _) with (CartItem._id e)
          by (by destruct (AddCustomItem.link req)).
        by apply findById_of_elem.
      - by destruct (AddCustomItem.link req). }
    apply (carts_ok_finish db _ cart cart); try done.
    + apply (store_ok_save_line db0 e); try done.
      * replace (CartItem._id _) with (CartItem._id e)
          by (by destruct (AddCustomItem.link req)).
        by apply findById_of_elem.
      * by destruct (AddCustomItem.link req).
      * by destruct (AddCustomItem.link req).
    + by eapply lines_kept_trans.
    + by eapply refs_ok_cart_kept.
  - unfold bind at 1, new_CartItem, bind at 1, new_ObjectId, ret at 1.
    unfold bind at 1.
    match goal with |- context [CartItem_save ?d ?s] =>
      destruct (CartItem_save_cases d s) as [[-> _] | [-> Hvalid]] end.
    { cbn [snd]. apply Hstop; [apply lines_kept_same; simpl; done || lia | done]. }
    unfold ret at 1. cbn [CartItem._id cartitems set_next_id].
    rewrite store_new by by apply existsb_has_id_below.
    match goal with |- context [set_cartitems (_ ++ [?line]) _] =>
      pose proof (lines_kept_new_line db0 line ltac:(done)) as Hk1 end.
    apply (carts_ok_finish db _ cart); try done.
    + apply (store_ok_new_line (set_next_id (S (next_id db0)) db0)); simpl; try done.
      * by apply store_ok_next_id; [|lia].
      * pose proof Hok0 as (Hinvs & _). eapply Forall_impl; [exact Hinvs|]. done.
      * lia.
    + by eapply lines_kept_trans.
    + unfold refs_ok_cart. cbn [Cart.cartItems Cart.with_cartItems Cart._id].
      apply Forall_app. split; [by apply (refs_ok_cart_kept db0)|].
      apply Forall_singleton. cbn [next_id set_cartitems set_next_id cartitems].
      split; [lia|].
      unfold findById. rewrite findOne_app.
      replace (findOne (has_id CartItem._id (next_id db0)) (cartitems db0))
        with (@None CartItem.t).
      * unfold findOne. simpl. unfold has_id. by rewrite bool_decide_eq_true_2.
      * symmetry. apply (findById_existsb CartItem._id). by apply existsb_has_id_below.
Qed.

(** ** Every reachable store *)

Lemma carts_ok_serve r db : store_ok db → carts_ok db → carts_ok (serve r db).
Proof.
  intros Hok Hcarts. destruct r; cbn [serve].
  - by apply carts_ok_add_items.
  - by apply carts_ok_add_custom_item.
  - by apply carts_ok_remove_item.
  - eapply carts_ok_store_kept; [done | apply kept_update_cart_item_status].
  - eapply carts_ok_store_kept; [done | apply kept_update_multiple_cart_items].
  - eapply carts_ok_store_kept; [done | apply kept_update_items_status].
  - eapply carts_ok_store_kept; [done | by apply kept_remove_cart].
  - eapply carts_ok_store_kept; [done | apply kept_post_inventory].
  - eapply carts_ok_store_kept; [done | by apply kept_delete_inventory].
  - eapply carts_ok_store_kept; [done | apply kept_put_inventory].
  - eapply carts_ok_store_kept; [done | apply kept_update_inventory_items].
Qed.

Lemma reachable_carts_ok db : reachable db → carts_ok db.
Proof.
  intros [rs ->]. induction rs as [|r rs IH] using rev_ind.
  - split; constructor.
  - rewrite serve_all_snoc. apply carts_ok_serve; [|done].
    apply reachable_store_ok. by exists rs.
Qed.

Lemma findOne_by_userId_own (l : list Cart.t) c :
  NoDup (List.map Cart.userId l) → c ∈ l →
  findOne (by_userId (Cart.userId c)) l = Some c.
Proof.
  intros Hnd Hin. unfold findOne.
  induction l as [|x l IH]; [by apply elem_of_nil in Hin|].
  simpl in Hnd |- *. apply NoDup_cons in Hnd as [Hx Hnd].
  apply elem_of_cons in Hin as [<- | Hin].
  - unfold by_userId. by rewrite bool_decide_eq_true_2.
  - unfold by_userId at 1. rewrite bool_decide_eq_false_2; [by apply IH|].
    intros Heq. apply Hx. rewrite Heq. apply list_elem_of_fmap. by exists c.
Qed.

(** X25. In every store reached from the empty one by requests served one
    after the other, no requester has two carts, and every stored cart is
    the one the routes find for its requester. *)
Theorem one_cart_per_requester db :
  reachable db →
  NoDup (List.map Cart.userId (carts db)) ∧
  ∀ c, c ∈ carts db → findOne (by_userId (Cart.userId c)) (carts db) = Some c.
Proof.
  intros [Hnd _]%reachable_carts_ok. split; [done|].
  intros c Hc. by apply findOne_by_userId_own.
Qed.

Lemma one_cart_per_requester_witness :
  NoDup (List.map Cart.userId (carts sample_db)) ∧
  ∀ c, c ∈ carts sample_db →
    findOne (by_userId (Cart.userId c)) (carts sample_db) = Some c.
Proof.
  apply (one_cart_per_requester sample_db).
  exists sample_requests. reflexivity.
Defined.

Lemma populate_own db c :
  refs_ok_cart db c →
  Forall (fun d => d ∈ cartitems db ∧ CartItem.cart d = Cart._id c
                   ∧ CartItem._id d ∈ Cart.cartItems c) (populate db c).
Proof.
  unfold refs_ok_cart, populate. intros Hrefs.
  assert (Hgen : ∀ refs,
    Forall (fun id => id < next_id db ∧
                      match findById CartItem._id id (cartitems db) with
                      | Some d => CartItem.cart d = Cart._id c
                      | None => True
                      end) refs →
    Forall (fun d => d ∈ cartitems db ∧ CartItem.cart d = Cart._id c
                     ∧ CartItem._id d ∈ refs)
      (omap (fun id => findById CartItem._id id (cartitems db)) refs)).
  { clear Hrefs. induction 1 as [|id refs [_ Hd] _ IH]; [constructor|].
    cbn [omap list_omap]. fold (@omap list _).
    assert (Hrest : Forall (fun d => d ∈ cartitems db ∧ CartItem.cart d = Cart._id c
                                     ∧ CartItem._id d ∈ id :: refs)
                      (omap (fun id => findById CartItem._id id (cartitems db)) refs)).
    { eapply Forall_impl; [exact IH|]. intros d (? & ? & ?).
      split; [done|]. split; [done|]. by right. }
    destruct (findById CartItem._id id (cartitems db)) as [d|] eqn:Hfound; [|done].
    constructor; [|done]. apply findById_Some in Hfound as [Hin Hid].
    split; [done|]. split; [done|]. rewrite Hid. by left. }
  by apply Hgen.
Qed.

(** X26. In every such store the two cart views show a requester's own
    line items and nothing else: when GET /cart-items-final or
    GET /cart-items-user answers for a requester, the lines it lists are
    stored line items of the one cart of this requester, each bearing an id
    the cart refers to. *)
Theorem views_show_own_items db u :
  reachable db →
  (∀ views, fst (cart_items_final u db) = Ok views →
     ∃ c lines,
       findOne (by_userId u) (carts db) = Some c ∧ views = List.map view_of lines ∧
       Forall (fun d => d ∈ cartitems db ∧ CartItem.cart d = Cart._id c
                        ∧ CartItem._id d ∈ Cart.cartItems c) lines) ∧
  (∀ views, fst (cart_items_user u db) = Ok views →
     ∃ c lines,
       findOne (by_userId u) (carts db) = Some c ∧ views = List.map full_view_of lines ∧
       Forall (fun d => d ∈ cartitems db ∧ CartItem.cart d = Cart._id c
                        ∧ CartItem._id d ∈ Cart.cartItems c) lines).
Proof.
  intros [_ Hrefs]%reachable_carts_ok. rewrite Forall_forall in Hrefs.
  split; intros views.
  - unfold cart_items_final, try_catch_ok, bind, Cart_findOne_populated.
    destruct (findOne (by_userId u) (carts db)) as [c|] eqn:Hc; [|done].
    case_bool_decide; [done|]. intros [= <-].
    exists c, (populate db c). split; [done|]. split; [done|].
    apply populate_own, Hrefs. by apply findOne_Some in Hc as [? _].
  - unfold cart_items_user, try_catch_ok, bind, Cart_findOne_populated.
    destruct (findOne (by_userId u) (carts db)) as [c|] eqn:Hc; [|done].
    case_bool_decide; [done|]. intros [= <-].
    exists c, (populate db c). split; [done|]. split; [done|].
    apply populate_own, Hrefs. by apply findOne_Some in Hc as [? _].
Qed.

Lemma views_show_own_items_witness :
  (∀ views, fst (cart_items_final 7 sample_db) = Ok views →
     ∃ c lines,
       findOne (by_userId 7) (carts sample_db) = Some c ∧
       views = List.map view_of lines ∧
       Forall (fun d => d ∈ cartitems sample_db ∧ CartItem.cart d = Cart._id c
                        ∧ CartItem._id d ∈ Cart.cartItems c) lines) ∧
  (∀ views, fst (cart_items_user 7 sample_db) = Ok views →
     ∃ c lines,
       findOne (by_userId 7) (carts sample_db) = Some c ∧
       views = List.map full_view_of lines ∧
       Forall (fun d => d ∈ cartitems sample_db ∧ CartItem.cart d = Cart._id c
                        ∧ CartItem._id d ∈ Cart.cartItems c) lines).
Proof.
  apply (views_show_own_items sample_db 7).
  exists sample_requests. reflexivity.
Defined.

(** * The access check *)

Lemma strip_prefix_app pat s : strip_prefix pat (pat +:+ s) = Some s.
Proof.
  induction pat as [|a pat IH]; simpl; [by destruct s|].
  by rewrite bool_decide_eq_true_2.
Qed.

Lemma replace_prefix pat s : replace pat (pat +:+ s) = s.
Proof.
  destruct (pat +:+ s) as [|c rest] eqn:Heq.
  - destruct pat; [simpl in Heq; by subst | done].
  - simpl. rewrite <- Heq, strip_prefix_app. done.
Qed.

(** X27. A request whose [Authorization] header is "Bearer " followed by a
    non-empty token that verifies to the id of a stored user is let through
    exactly when the access level of this user is the one the route
    requires, and is answered 403 "Access denied." otherwise: the levels
    are compared for equality, so an administrator is refused on the
    routes of the requesters as a requester is on those of the
    administrator. *)
Theorem bearer_token_needs_exact_role jwt_verify required token id user users :
  token ≠ "" →
  jwt_verify token = Decoded (Some id) →
  findById User._id id users = Some user →
  authMiddleware jwt_verify required (Some ("Bearer " +:+ token)) users
  = if bool_decide (User.access user = required) then None
    else Some (Res 403 (message_text "Access denied.")).
Proof.
  intros Hne Hverify Huser. unfold authMiddleware.
  cbn [fmap option_fmap option_map]. rewrite replace_prefix.
  rewrite (bool_decide_eq_false_2 _ Hne), Hverify. cbn [mbind option_bind].
  by rewrite Huser.
Qed.

(** The theorem at work: the administrator calls a route of the
    requesters. *)
Lemma bearer_token_needs_exact_role_witness :
  authMiddleware sample_verify "user" (Some ("Bearer " +:+ "token-of-1"))
    (admin :: sample_users)
  = if bool_decide (User.access admin = "user") then None
    else Some (Res 403 (message_text "Access denied.")).
Proof.
  apply (bearer_token_needs_exact_role sample_verify "user" "token-of-1" 1 admin
           (admin :: sample_users)).
  - discriminate.
  - reflexivity.
  - reflexivity.
Defined.

(** X28. Whatever the header, the middleware lets a request through only
    when the header, with its first "Bearer " taken out, is a non-empty
    token that verifies to the id of a stored user whose access level is
    the required one. *)
Theorem authMiddleware_pass_needs_role jwt_verify required authorization users :
  authMiddleware jwt_verify required authorization users = None →
  ∃ header id user,
    authorization = Some header ∧ replace "Bearer " header ≠ "" ∧
    jwt_verify (replace "Bearer " header) = Decoded (Some id) ∧
    findById User._id id users = Some user ∧ User.access user = required.
Proof.
  unfold authMiddleware. destruct authorization as [header|]; [|done].
  cbn [fmap option_fmap option_map]. case_bool_decide as Hempty; [done|].
  destruct (jwt_verify (replace "Bearer " header)) as [[id|]| |] eqn:Hverify; try done.
  cbn [mbind option_bind].
  destruct (findById User._id id users) as [user|] eqn:Huser; [|done].
  case_bool_decide as Haccess; [|done]. intros _.
  by exists header, id, user.
Qed.

Lemma authMiddleware_pass_needs_role_witness :
  ∃ header id user,
    Some ("Bearer " +:+ "token-of-7") = Some header ∧ replace "Bearer " header ≠ "" ∧
    sample_verify (replace "Bearer " header) = Decoded (Some id) ∧
    findById User._id id (admin :: sample_users) = Some user ∧
    User.access user = "user".
Proof.
  apply (authMiddleware_pass_needs_role sample_verify "user"
           (Some ("Bearer " +:+ "token-of-7")) (admin :: sample_users)).
  reflexivity.
Defined.

(** ** Registration *)

Lemma existsb_no_email (l : list User.t) e :
  Forall (fun u => User.email u ≠ e) l →
  existsb (fun u => bool_decide (User.email u = e)) l = false.
Proof.
  induction 1 as [|u l Hu _ IH]; simpl; [done|].
  by rewrite bool_decide_eq_false_2, IH.
Qed.

(** X30. POST /register stores the access level the body asks for: with
    the verification code that was mailed to its address, a club name and
    an address no user has, and the required fields filled in, a
    registration that asks for the level "bosslevel" is answered with a
    new user of that level, and from then on a token that verifies to this
    user's id passes the access check of the administrator's routes. *)
Theorem register_grants_requested_access jwt_verify req hashedPassword acc stored :
  findOne (by_email (Register.email req)) (verificationcodes acc) = Some stored →
  Register.verificationCode req = VerificationCode.code stored →
  findOne (by_clubName (Register.clubName req)) (users acc) = None →
  Forall (fun u => User.email u ≠ Register.email req) (users acc) →
  Forall (fun u => User._id u < next_account_id acc) (users acc) →
  Register.cordName req ≠ "" → Register.clubName req ≠ "" →
  Register.mobile req ≠ "" → Register.email req ≠ "" → hashedPassword ≠ "" →
  Register.access req = Some "bosslevel" →
  let r := register req hashedPassword acc in
  ∃ user,
    fst r = Ok user ∧ User.access user = "bosslevel" ∧
    findById User._id (User._id user) (users (snd r)) = Some user ∧
    ∀ token, token ≠ "" → jwt_verify token = Decoded (Some (User._id user)) →
      authMiddleware jwt_verify "bosslevel" (Some ("Bearer " +:+ token)) (users (snd r))
      = None.
Proof.
  intros Hcode Hmatch Hclub Hemail Hfresh Hcord Hname Hmobile Hmail Hhash Haccess.
  set (user := {| User._id := next_account_id acc;
                  User.cordName := Register.cordName req;
                  User.clubName := Register.clubName req;
                  User.mobile := Register.mobile req;
                  User.email := Register.email req;
                  User.password := hashedPassword;
                  User.access := "bosslevel" |}).
  assert (Hr : register req hashedPassword acc
               = (Ok user,
                  {| users := users acc ++ [user];
                     verificationcodes :=
                       deleteOne (by_email (Register.email req)) (verificationcodes acc);
                     next_account_id := S (next_account_id acc) |})).
  { unfold register. rewrite Hcode.
    rewrite bool_decide_eq_false_2 by (intros Hne; by apply Hne).
    rewrite Hclub, Haccess. cbn [access_or_user].
    rewrite (bool_decide_eq_false_2 ("bosslevel" = "")) by done. fold user.
    unfold User_invalid_paths.
    cbn [user User.cordName User.clubName User.mobile User.email User.password
         User.access].
    rewrite !bool_decide_eq_false_2 by done.
    rewrite bool_decide_eq_true_2 by (by apply (bool_decide_unpack _)).
    cbn [app users]. by rewrite existsb_no_email. }
  cbv zeta. rewrite Hr. cbn [fst snd users]. exists user.
  assert (Hfound : findById User._id (User._id user) (users acc ++ [user]) = Some user).
  { unfold findById. rewrite findOne_app.
    replace (findOne (has_id User._id (User._id user)) (users acc)) with (@None User.t).
    - unfold findOne. simpl. unfold has_id. by rewrite bool_decide_eq_true_2.
    - symmetry. apply (findById_existsb User._id). by apply existsb_has_id_below. }
  split; [done|]. split; [done|]. split; [done|].
  intros token Htoken Hverify.
  unfold authMiddleware. cbn [fmap option_fmap option_map]. rewrite replace_prefix.
  rewrite (bool_decide_eq_false_2 _ Htoken), Hverify. cbn [mbind option_bind].
  rewrite Hfound. by rewrite bool_decide_eq_true_2.
Qed.

(** The theorem at work on [sample_accounts]. *)
Lemma register_grants_requested_access_witness :
  let r := register sample_registration "$2b$10$hash" sample_accounts in
  ∃ user,
    fst r = Ok user ∧ User.access user = "bosslevel" ∧
    findById User._id (User._id user) (users (snd r)) = Some user ∧
    ∀ token, token ≠ "" → sample_verify token = Decoded (Some (User._id user)) →
      authMiddleware sample_verify "bosslevel" (Some ("Bearer " +:+ token))
        (users (snd r)) = None.
Proof.
  apply (register_grants_requested_access sample_verify sample_registration
           "$2b$10$hash" sample_accounts
           {| VerificationCode.email := "noor@club.example";
              VerificationCode.code := "271828" |}).
  - reflexivity.
  - reflexivity.
  - reflexivity.
  - repeat constructor; discriminate.
  - repeat constructor; simpl; lia.
  - discriminate.
  - discriminate.
  - discriminate.
  - discriminate.
  - discriminate.
  - reflexivity.
Defined.

(** * The names of the catalog *)

















(** * Sound stores *)

Lemma line_sound_ids ids ids' d :
  (∀ k, k ∈ ids → k ∈ ids') → CartItem._id d ∉ ids' → line_sound ids d → line_sound ids' d.
Proof.
  intros _ Hid (Hv & _ & Href). by split.
Qed.

Lemma store_sound_next_id db n :
  store_sound db → next_id db ≤ n → store_sound (set_next_id n db).
Proof.
  intros (Hinv & [Hc Hi] & Hu & Hl) Hn. repeat split; simpl; try done.
  - eapply Forall_impl; [exact Hinv | simpl; lia].
  - eapply Forall_impl; [exact Hc | simpl; lia].
  - eapply Forall_impl; [exact Hi | simpl; lia].
  - by destruct Hu as (? & ? & ?).
  - by destruct Hu as (? & ? & ?).
  - by destruct Hu as (? & ? & ?).
Qed.

(** A line item built on the id just drawn is appended. *)
Lemma store_sound_new_line db d :
  store_sound db →
  S (CartItem._id d) = next_id db →
  Forall (fun x => CartItem._id x < CartItem._id d) (cartitems db) →
  Forall (fun x => Inventory._id x < CartItem._id d) (inventories db) →
  CartItem.cart d < next_id db →
  CartItem.invalid_paths d = [] →
  CartItem.item_id d ≠ undefined →
  store_sound (set_cartitems (cartitems db ++ [d]) db).
Proof.
  intros (Hinv & [Hc Hi] & (Hu1 & Hu2 & Hu3) & Hl) Hid Hlines Hinvs Hcart Hvalid Href.
  repeat split; simpl; try done.
  - apply Forall_app. split; [done|]. apply Forall_singleton. lia.
  - by apply NoDup_map_snoc.
  - apply Forall_app. split; [done|]. apply Forall_singleton.
    repeat split; [done | | done].
    intros (x & Hx & Hin)%list_elem_of_fmap.
    rewrite Forall_forall in Hinvs. specialize (Hinvs x Hin). lia.
Qed.

(** Line items rewritten in place, each keeping its id and its cart. *)
Lemma store_sound_map_lines db (g : CartItem.t -> CartItem.t) :
  store_sound db →
  (∀ x, x ∈ cartitems db →
     CartItem._id (g x) = CartItem._id x ∧ CartItem.cart (g x) = CartItem.cart x ∧
     CartItem.item_id (g x) = CartItem.item_id x ∧ CartItem.invalid_paths (g x) = []) →
  store_sound (set_cartitems (List.map g (cartitems db)) db).
Proof.
  intros (Hinv & [Hc Hi] & (Hu1 & Hu2 & Hu3) & Hl) Hg.
  assert (Hids : List.map CartItem._id (List.map g (cartitems db))
                 = List.map CartItem._id (cartitems db)).
  { rewrite map_map. apply map_ext_in. intros x Hx%list_elem_of_In.
    by destruct (Hg x Hx) as (-> & _). }
  repeat split; simpl; try done.
  - rewrite Forall_forall in Hi |- *. intros y (x & -> & Hx)%list_elem_of_fmap.
    destruct (Hg x Hx) as (-> & -> & _). by apply Hi.
  - by rewrite Hids.
  - rewrite Forall_forall in Hl |- *. intros y (x & -> & Hx)%list_elem_of_fmap.
    destruct (Hg x Hx) as (Hid & _ & Hitem & Hvalid).
    destruct (Hl x Hx) as (_ & Hnot & Href).
    repeat split; [done | by rewrite Hid | by rewrite Hitem].
Qed.

(** Line items deleted. *)
Lemma store_sound_sub_lines db l :
  store_sound db → l `sublist_of` cartitems db → store_sound (set_cartitems l db).
Proof.
  intros (Hinv & [Hc Hi] & (Hu1 & Hu2 & Hu3) & Hl) Hsub.
  repeat split; simpl; try done.
  - by eapply Forall_sublist.
  - by eapply NoDup_map_sublist.
  - by eapply Forall_sublist.
Qed.

(** Carts deleted. *)
Lemma store_sound_sub_carts db l :
  store_sound db → l `sublist_of` carts db → store_sound (set_carts l db).
Proof.
  intros (Hinv & [Hc Hi] & (Hu1 & Hu2 & Hu3) & Hl) Hsub.
  repeat split; simpl; try done.
  - by eapply Forall_sublist.
  - by eapply NoDup_map_sublist.
Qed.

(** A cart saved: in place when its id is stored, appended when its id is
    above the stored ones. *)
Lemma store_sound_save_cart db c :
  store_sound db → Cart._id c < next_id db →
  (existsb (has_id Cart._id (Cart._id c)) (carts db) = true
   ∨ Forall (fun x => Cart._id x < Cart._id c) (carts db)) →
  store_sound (set_carts (store Cart._id c (carts db)) db).
Proof.
  intros (Hinv & [Hc Hi] & (Hu1 & Hu2 & Hu3) & Hl) Hid Hcase.
  repeat split; simpl; try done.
  - unfold store. destruct (existsb _ (carts db)).
    + rewrite Forall_forall in Hc |- *. intros y (x & -> & Hx)%list_elem_of_fmap.
      destruct (has_id _ _ x); [done | by apply Hc].
    + apply Forall_app. split; [done | by apply Forall_singleton].
  - destruct Hcase as [He | Hlt].
    + by rewrite map_id_store.
    + rewrite store_new by by apply existsb_has_id_below.
      by apply NoDup_map_snoc.
Qed.

Lemma store_sound_save_line db d d' :
  store_sound db →
  findById CartItem._id (CartItem._id d') (cartitems db) = Some d →
  CartItem.cart d' = CartItem.cart d → CartItem.item_id d' = CartItem.item_id d →
  CartItem.invalid_paths d' = [] →
  store_sound (set_cartitems (store CartItem._id d' (cartitems db)) db).
Proof.
  intros Hok Hd Hcart Hitem Hvalid.
  unfold store. rewrite (existsb_has_id_found _ _ _ _ Hd).
  apply store_sound_map_lines; [done|]. intros x Hx.
  destruct (findById_Some _ _ _ _ Hd) as [Hin Hid].
  destruct Hok as (_ & _ & (_ & _ & Hnd) & Hl).
  unfold has_id. case_bool_decide as Hxid.
  - assert (x = d) as -> by (apply (unique_id_eq (cartitems db)); congruence).
    by rewrite Hid.
  - rewrite Forall_forall in Hl. by destruct (Hl x Hx) as (? & _).
Qed.

Lemma store_sound_update_cart_item_status id req db :
  store_sound db → store_sound (snd (update_cart_item_status id req db)).
Proof.
  intros Hok. unfold update_cart_item_status.
  destruct (negb _); [done|].
  unfold try_catch, bind, CartItem_findById.
  destruct (findById CartItem._id id (cartitems db)) as [d|] eqn:Hd; [|done].
  destruct (CartItem_save_cases
              (assign_updates (UpdateCartItemStatus.allotted_quantity req)
                 (UpdateCartItemStatus.status req) (UpdateCartItemStatus.remarks req) d) db)
    as [[-> _] | [-> Hvalid]]; [done|].
  simpl. apply (store_sound_save_line db d); try done.
  - rewrite assign_updates_id. by destruct (findById_Some _ _ _ _ Hd) as [_ ->].
  - apply assign_updates_cart.
  - apply assign_updates_item_id.
Qed.

Lemma store_sound_update_items_status_loop ids items : ∀ db,
  store_sound db → store_sound (snd (update_items_status_loop ids items db)).
Proof.
  induction items as [|item rest IH]; intros db Hok; [done|].
  cbn [update_items_status_loop]. unfold bind at 1, CartItem_findById.
  destruct (findById _ _ _) as [d|] eqn:Hd; [|done].
  destruct (CartItem.item_id d) as [| |k] eqn:Hk; [done | done |].
  case_bool_decide; [|by apply IH].
  unfold bind.
  destruct (CartItem_save_cases
              (assign_updates None (UpdateItemsStatus.status item)
                 (UpdateItemsStatus.remarks item) d) db)
    as [[-> _] | [-> Hvalid]]; [done|].
  apply IH. apply (store_sound_save_line db d); try done.
  - rewrite assign_updates_id. by destruct (findById_Some _ _ _ _ Hd) as [_ ->].
  - apply assign_updates_cart.
  - apply assign_updates_item_id.
Qed.

Lemma store_sound_update_items_status items db :
  store_sound db → store_sound (snd (update_items_status items db)).
Proof.
  intros Hok. unfold update_items_status. destruct (negb _); [done|].
  unfold try_catch, bind at 1, Inventory_find. unfold bind.
  pose proof (store_sound_update_items_status_loop
                (List.map Inventory._id (inventories db)) items db Hok) as Hloop.
  by destruct (update_items_status_loop _ items db) as [[[]| |] db'].
Qed.

Lemma store_sound_commit_tasks snap items : ∀ db,
  store_sound db →
  store_sound (set_cartitems (foldl (commit_task snap) (cartitems db) items) db).
Proof.
  induction items as [|it items IH]; intros db Hok; simpl.
  - by destruct db.
  - specialize (IH (set_cartitems (commit_task snap (cartitems db) it) db)).
    simpl in IH. apply IH. unfold commit_task.
    destruct (update_task snap it) as [e|mem] eqn:Ht; [by destruct db|].
    apply store_sound_map_lines; [done|]. intros x Hx.
    destruct (has_id CartItem._id (CartItem._id mem) x); [|].
    + destruct (set_modified_fields it mem x) as (Hc & Hi & _).
      repeat split; [apply set_modified_id | done | done |].
      apply set_modified_valid; [by eapply update_task_valid|].
      destruct Hok as (_ & _ & _ & Hl). rewrite Forall_forall in Hl.
      by destruct (Hl x Hx).
    + destruct Hok as (_ & _ & _ & Hl). rewrite Forall_forall in Hl.
      by destruct (Hl x Hx).
Qed.

Lemma store_sound_update_multiple_cart_items items db :
  store_sound db → store_sound (snd (update_multiple_cart_items items db)).
Proof.
  intros Hok. unfold update_multiple_cart_items. destruct (negb _); [done|].
  pose proof (store_sound_commit_tasks (cartitems db) items db Hok).
  by destruct (rejections _).
Qed.

Lemma store_sound_remove_item cart itemName db :
  store_sound db → store_sound (snd (remove_item cart itemName db)).
Proof.
  intros Hok.
  unfold remove_item, try_catch, bind, Cart_findOne, CartItem_findOne,
    CartItem_deleteOne, Cart_deleteOne, respond.
  fold (findById Cart._id cart (carts db)).
  destruct (findById Cart._id cart (carts db)) as [cartDoc|] eqn:Hc; [|done].
  destruct (findOne _ (cartitems db)) as [cartItem|]; [|done].
  assert (Hok1 : store_sound (set_cartitems
                   (deleteOne (has_id CartItem._id (CartItem._id cartItem))
                      (cartitems db)) db))
    by (apply store_sound_sub_lines; [done | apply deleteOne_sublist]).
  case_bool_decide.
  - cbn [snd]. apply (store_sound_sub_carts _ _ Hok1). apply deleteOne_sublist.
  - unfold Cart_save. cbn [Cart._id Cart.with_cartItems carts set_cartitems].
    destruct (findById_Some _ _ _ _ Hc) as [Hin Hid].
    rewrite Hid, (existsb_has_id_found _ _ _ _ Hc). cbn [snd].
    apply (store_sound_save_cart _ (Cart.with_cartItems _ cartDoc) Hok1).
    + destruct Hok as (_ & [Hcarts _] & _). rewrite Forall_forall in Hcarts.
      cbn [Cart._id Cart.with_cartItems set_cartitems next_id]. by apply Hcarts.
    + left. cbn [Cart._id Cart.with_cartItems carts set_cartitems].
      rewrite Hid. by apply (existsb_has_id_found _ _ _ _ Hc).
Qed.

Lemma store_sound_remove_cart cart_id db :
  store_sound db → store_sound (snd (remove_cart cart_id db)).
Proof.
  intros Hok.
  assert (Hr : snd (remove_cart cart_id db)
               = set_cartitems (deleteMany (by_cart cart_id) (cartitems db))
                   (set_carts (deleteOne (has_id Cart._id cart_id) (carts db)) db)).
  { unfold remove_cart, try_catch_ok, bind, Cart_findByIdAndDelete, CartItem_deleteMany.
    by destruct (findById Cart._id cart_id (carts db)). }
  rewrite Hr. apply store_sound_sub_lines; [|apply deleteMany_sublist].
  apply store_sound_sub_carts; [done | apply deleteOne_sublist].
Qed.

(** The loop of /add-items: the store stays well-formed, the catalog and
    the carts are not touched, and the in-memory cart keeps its id. *)
Lemma add_items_loop_sound items : ∀ cart db o db',
  store_sound db → Cart._id cart < next_id db →
  add_items_loop cart items db = (o, db') →
  store_sound db' ∧ carts db' = carts db ∧
  inventories db' = inventories db ∧ next_id db ≤ next_id db' ∧
  match o with
  | Next cart' => Cart._id cart' = Cart._id cart ∧ Cart.userId cart' = Cart.userId cart
  | _ => True
  end.
Proof.
  induction items as [|item rest IH]; intros cart db o db' Hok Hcart Hrun.
  { injection Hrun as <- <-. close_ok. }
  cbn [add_items_loop] in Hrun. unfold bind at 1, Inventory_findById in Hrun.
  destruct (findById Inventory._id _ (inventories db)) as [inv|] eqn:Hinv.
  2:{ injection Hrun as <- <-. close_ok. }
  unfold bind at 1, CartItem_findOne in Hrun.
  destruct (findOne _ (cartitems db)) as [e|] eqn:He.
  - unfold bind at 1 in Hrun.
    destruct (CartItem_save_cases
                (CartItem.with_ordered_quantity
                   (CartItem.ordered_quantity e + AddItems.ordered_quantity item) e) db)
      as [[Hs _] | [Hs Hvalid]]; rewrite Hs in Hrun.
    { injection Hrun as <- <-. close_ok. }
    assert (Hok1 : store_sound (set_cartitems
                     (store CartItem._id
                        (CartItem.with_ordered_quantity
                           (CartItem.ordered_quantity e + AddItems.ordered_quantity item) e)
                        (cartitems db)) db)).
    { apply findOne_Some in He as [Hin _].
      destruct Hok as (H1 & H2 & (H3 & H4 & Hnd) & H5).
      apply (store_sound_save_line db e); try done.
      by apply (findById_of_elem (cartitems db) e). }
    by destruct (IH cart _ _ _ Hok1 Hcart Hrun) as (? & ? & ? & ? & ?).
  - unfold bind at 1, new_CartItem, bind at 1, new_ObjectId, ret at 1 in Hrun.
    unfold bind at 1 in Hrun.
    match type of Hrun with context [CartItem_save ?d ?s] =>
      destruct (CartItem_save_cases d s) as [[Hs _] | [Hs Hvalid]]; rewrite Hs in Hrun end.
    { injection Hrun as <- <-. split; [by apply store_sound_next_id; [|lia]|].
      repeat split; try done. simpl. lia. }
    cbn [CartItem._id cartitems set_next_id] in Hrun.
    pose proof Hok as (Hinvs & [_ Hlines] & _).
    rewrite store_new in Hrun.
    2:{ apply existsb_has_id_below. eapply Forall_impl; [exact Hlines|]. by intros ? []. }
    apply IH in Hrun as (? & Hc' & Hi' & Hn' & Hm).
    + simpl in Hc', Hi', Hn'. split; [done|]. split; [done|]. split; [done|].
      split; [lia|]. by destruct o.
    + apply (store_sound_new_line (set_next_id (S (next_id db)) db)); simpl; try done.
      * by apply store_sound_next_id; [|lia].
      * eapply Forall_impl; [exact Hlines|]. by intros ? [].
      * lia.
    + simpl. lia.
Qed.

Lemma store_sound_Cart_save c db :
  store_sound db → Cart._id c < next_id db →
  (existsb (has_id Cart._id (Cart._id c)) (carts db) = true
   ∨ Forall (fun x => Cart._id x < Cart._id c) (carts db)) →
  store_sound (snd (Cart_save c db)).
Proof.
  intros Hok Hid Hcase. unfold Cart_save.
  destruct Hcase as [He | Hlt].
  - rewrite He. simpl. apply store_sound_save_cart; [done | done | by left].
  - rewrite (existsb_has_id_below _ _ _ Hlt).
    destruct (existsb _ (carts db)); [done|]. simpl.
    apply store_sound_save_cart; [done | done | by right].
Qed.

(** The cart a handler works on: the stored one, or a new one on the id
    just drawn. *)
Lemma cart_for_sound u db :
  store_sound db →
  ∃ cart db0,
    match findOne (by_userId u) (carts db) with
    | Some cart => ret cart
    | None => new_Cart u
    end db = (Next cart, db0) ∧
    store_sound db0 ∧ carts db0 = carts db ∧
    cartitems db0 = cartitems db ∧ inventories db0 = inventories db ∧
    Cart._id cart < next_id db0 ∧
    (existsb (has_id Cart._id (Cart._id cart)) (carts db) = true
     ∨ Forall (fun x => Cart._id x < Cart._id cart) (carts db)).
Proof.
  intros Hok.
  destruct (findOne (by_userId u) (carts db)) as [c|] eqn:Hc.
  - exists c, db. apply findOne_Some in Hc as [Hin _].
    pose proof Hok as (_ & [Hcarts _] & _). rewrite Forall_forall in Hcarts.
    do 5 (split; [done|]). split; [by apply Hcarts|].
    left. apply existsb_exists. exists c.
    split; [by apply list_elem_of_In | by apply bool_decide_eq_true_2].
  - eexists _, _. split; [reflexivity|]. split; [by apply store_sound_next_id; [|lia]|].
    do 3 (split; [done|]). split; [simpl; lia|].
    right. by destruct Hok as (_ & [Hcarts _] & _).
Qed.

Lemma store_sound_add_items req db :
  store_sound db → store_sound (snd (add_items req db)).
Proof.
  intros Hok. unfold add_items. destruct (negb _); [done|].
  unfold try_catch. unfold bind at 1, Cart_findOne. unfold bind at 1.
  destruct (cart_for_sound (AddItems.userId req) db Hok)
    as (cart & db0 & -> & Hok0 & Hc0 & _ & _ & Hid0 & Hcase).
  unfold bind at 1.
  destruct (add_items_loop cart (AddItems.items req) db0) as [o1 db1] eqn:Hloop.
  destruct (add_items_loop_sound _ _ _ _ _ Hok0 Hid0 Hloop) as (Hok1 & Hc1 & _ & Hn1 & Hcart).
  destruct o1 as [cart'| |]; [|by simpl..].
  destruct Hcart as [Hid' _].
  assert (Hsave : store_sound (snd (Cart_save cart' db1))).
  { apply store_sound_Cart_save; [done | lia | by rewrite Hid', Hc1, Hc0]. }
  unfold bind. by destruct (Cart_save cart' db1) as [[[]| |] db2].
Qed.

Lemma store_sound_add_custom_item req db :
  store_sound db → store_sound (snd (add_custom_item req db)).
Proof.
  intros Hok. unfold add_custom_item. destruct (negb _); [done|].
  unfold try_catch. unfold bind at 1, Cart_findOne. unfold bind at 1.
  destruct (cart_for_sound (AddCustomItem.userId req) db Hok)
    as (cart & db0 & -> & Hok0 & Hc0 & _ & _ & Hid0 & Hcase).
  unfold bind at 1, CartItem_findOne. unfold bind at 1.
  assert (Hfinish : ∀ cart' db1,
            store_sound db1 → carts db1 = carts db0 → next_id db0 ≤ next_id db1 →
            Cart._id cart' = Cart._id cart →
            store_sound
              (snd (let (o, db') :=
                      (let* _ := Cart_save cart' in
                       ret (Res 200 (json_cart cart'))) db1 in
                    match o with
                    | Next r | Return r => (r, db')
                    | Throw e => (Res 500 (error_message e), db')
                    end))).
  { intros cart' db1 Hok1 Hc1 Hn1 Hid'.
    assert (Hsave : store_sound (snd (Cart_save cart' db1))).
    { apply store_sound_Cart_save; [done | lia | by rewrite Hid', Hc1, Hc0]. }
    unfold bind. by destruct (Cart_save cart' db1) as [[[]| |] db2]. }
  destruct (findOne _ (cartitems db0)) as [e|] eqn:He.
  - unfold bind at 1.
    match goal with |- context [CartItem_save ?d ?s] =>
      destruct (CartItem_save_cases d s) as [[-> _] | [-> Hvalid]] end; [done|].
    unfold ret at 1. apply Hfinish; try done.
    apply findOne_Some in He as [Hin _].
    pose proof Hok0 as (_ & _ & (_ & _ & Hnd) & _).
    apply (store_sound_save_line db0 e); try done.
    + replace (CartItem._id _) with (CartItem._id e)
        by (by destruct (AddCustomItem.link req)).
      by apply findById_of_elem.
    + by destruct (AddCustomItem.link req).
    + by destruct (AddCustomItem.link req).
  - unfold bind at 1, new_CartItem, bind at 1, new_ObjectId, ret at 1.
    unfold bind at 1.
    match goal with |- context [CartItem_save ?d ?s] =>
      destruct (CartItem_save_cases d s) as [[-> _] | [-> Hvalid]] end.
    { simpl. by apply store_sound_next_id; [|lia]. }
    unfold ret at 1. cbn [CartItem._id cartitems set_next_id].
    pose proof Hok0 as (Hinvs & [_ Hlines] & _).
    rewrite store_new.
    2:{ apply existsb_has_id_below. eapply Forall_impl; [exact Hlines|]. by intros ? []. }
    apply Hfinish; simpl; try done; [|lia].
    apply (store_sound_new_line (set_next_id (S (next_id db0)) db0)); simpl; try done.
    + by apply store_sound_next_id; [|lia].
    + eapply Forall_impl; [exact Hlines|]. by intros ? [].
    + lia.
Qed.

Lemma store_sound_post_inventory req db :
  store_sound db → store_sound (snd (post_inventory req db)).
Proof.
  intros Hok. unfold post_inventory. destruct (negb _); [done|].
  unfold try_catch, bind at 1, new_Inventory, bind at 1, new_ObjectId, ret at 1.
  unfold bind, Inventory_save.
  assert (Hok0 : store_sound (set_next_id (S (next_id db)) db))
    by (by apply store_sound_next_id; [|lia]).
  destruct (Inventory.invalid_paths _); [|done].
  destruct (existsb _ _); [done|]. cbn [snd inventories set_next_id].
  destruct Hok as (Hinv & [Hc Hi] & (Hu1 & Hu2 & Hu3) & Hl).
  repeat split; simpl; try done.
  - apply Forall_app. split; [|apply Forall_singleton; simpl; lia].
    eapply Forall_impl; [exact Hinv | simpl; lia].
  - eapply Forall_impl; [exact Hc | simpl; lia].
  - eapply Forall_impl; [exact Hi | simpl; lia].
  - apply NoDup_map_snoc; [done|]. done.
  - rewrite Forall_forall in Hl, Hi |- *. intros d Hin.
    pose proof (Hl d Hin) as Hd. destruct (Hi d Hin) as [Hid _].
    rewrite map_app. simpl.
    apply (line_sound_ids (List.map Inventory._id (inventories db))); [| |done].
    + intros k Hk. apply elem_of_app. by left.
    + intros [Hk | Hk%list_elem_of_singleton]%elem_of_app;
        [by destruct Hd as (_ & ? & _)|].
      lia.
Qed.

Lemma store_sound_same_catalog_ids db l :
  store_sound db → List.map Inventory._id l = List.map Inventory._id (inventories db) →
  store_sound (set_inventories l db).
Proof.
  intros (Hinv & [Hc Hi] & (Hu1 & Hu2 & Hu3) & Hl) Hids.
  repeat split; simpl; try done.
  - apply (Forall_fmap Inventory._id (fun i => i < next_id db)) in Hinv.
    apply (Forall_fmap Inventory._id (fun i => i < next_id db)).
    change (Forall (fun i => i < next_id db) (List.map Inventory._id l)).
    by rewrite Hids.
  - by rewrite Hids.
  - by rewrite Hids.
Qed.

Lemma store_sound_put_inventory id req db :
  store_sound db → store_sound (snd (put_inventory id req db)).
Proof.
  intros Hok. unfold put_inventory. destruct (negb _); [done|].
  unfold try_catch_ok, bind, Inventory_findByIdAndUpdate.
  destruct (findById _ _ _) as [d|]; [|done].
  destruct (existsb _ _); [done|]. simpl.
  apply store_sound_same_catalog_ids; [done|]. by apply map_id_updateOne.
Qed.

Lemma store_sound_update_inventory_items items db :
  store_sound db → store_sound (snd (update_inventory_items items db)).
Proof.
  intros Hok. unfold update_inventory_items.
  assert (store_sound (set_inventories
            (foldl (commit_annotation (inventories db)) (inventories db) items) db))
    by (apply store_sound_same_catalog_ids; [done | apply map_id_commit_annotations]).
  by destruct (rejections _).
Qed.

Lemma store_sound_delete_inventory id db :
  store_sound db → store_sound (snd (delete_inventory id db)).
Proof.
  intros Hok.
  assert (Hr : snd (delete_inventory id db)
               = set_cartitems (deleteMany (by_item_id id) (cartitems db))
                   (set_inventories
                      (deleteOne (has_id Inventory._id id) (inventories db)) db)).
  { unfold delete_inventory, try_catch, bind, Inventory_findByIdAndDelete,
      CartItem_deleteMany. by destruct (findById Inventory._id id (inventories db)). }
  rewrite Hr. destruct Hok as (Hinv & [Hc Hi] & (Hu1 & Hu2 & Hu3) & Hl).
  repeat split; simpl; try done.
  - eapply Forall_sublist; [exact Hinv | apply deleteOne_sublist].
  - eapply Forall_sublist; [exact Hi | apply deleteMany_sublist].
  - eapply NoDup_map_sublist; [exact Hu1 | apply deleteOne_sublist].
  - eapply NoDup_map_sublist; [exact Hu3 | apply deleteMany_sublist].
  - rewrite Forall_forall in Hl |- *. intros d [Hd Hq]%deleteMany_elem.
    destruct (Hl d Hd) as (Hv & Hid & Href). repeat split; [done | |].
    + intros Hin. apply Hid. eapply elem_of_sublist; [exact Hin|].
      apply (fmap_sublist Inventory._id), deleteOne_sublist.
    + done.
Qed.

Lemma store_sound_serve r db :
  store_sound db → store_sound (serve r db).
Proof.
  intros Hok. destruct r; simpl.
  - by apply store_sound_add_items.
  - by apply store_sound_add_custom_item.
  - by apply store_sound_remove_item.
  - by apply store_sound_update_cart_item_status.
  - by apply store_sound_update_multiple_cart_items.
  - by apply store_sound_update_items_status.
  - by apply store_sound_remove_cart.
  - by apply store_sound_post_inventory.
  - by apply store_sound_delete_inventory.
  - by apply store_sound_put_inventory.
  - by apply store_sound_update_inventory_items.
Qed.

(** X1. Requests that write keep the store sound, one after the other and
    from any sound store: ids stay below the counter and unique in each
    collection, and every stored line item passes its schema, bears an id
    that no catalog item bears, and holds the [item_id] path.  (Whether a
    held [item_id] still names a catalog item is not part of it.) *)
Theorem serve_keeps_store_sound rs db :
  store_sound db → store_sound (foldl (fun db r => serve r db) db rs).
Proof.
  revert db. induction rs as [|r rs IH]; intros db Hok; [done|].
  cbn [foldl]. by apply IH, store_sound_serve.
Qed.

(** The theorem at work on [requests_db], whose rope line refers to a
    catalog item that is gone: an item is removed from the cart, then the
    glue is deleted from the catalog. *)
Lemma serve_keeps_store_sound_witness :
  store_sound (foldl (fun db r => serve r db) requests_db
                 [DELETE_remove_item 2 "Glue"; DELETE_inventory 0]).
Proof.
  apply (serve_keeps_store_sound [DELETE_remove_item 2 "Glue"; DELETE_inventory 0]
           requests_db).
  repeat split; simpl; repeat constructor; simpl; try lia;
    try (by apply (bool_decide_unpack _)); try done.
Defined.
